(** * CyberDrive: bounded-concurrency batch dispatcher, answer extraction
      and majority vote

    A shallow embedding of the evaluation scripts of the repository:
    the [process_question] / [process_batch] pair that every inference
    script repeats around an [asyncio.Semaphore], the regular-expression
    answer extraction of [extract_answers.py] and the majority vote of
    [choose_majority.py].

    The first half of the file holds the definitions, module by module in
    the order of the scripts; the second half holds the lemmas. *)

From Stdlib Require Import ZArith NArith Lia Ascii.
From Stdlib Require OrderedTypeEx.
From stdpp Require Import base option list gmap strings pretty sorting.

Set Default Proof Using "Type".
Open Scope string_scope.
Open Scope list_scope.
Open Scope nat_scope.

(* ===================================================================== *)
(** * Part I: definitions                                                 *)
(* ===================================================================== *)

(** ** Python values shared by the scripts *)

(** What a Python call does when it is wrapped in [try: ... except
    Exception as e:]: it returns a value, or raises an exception of class
    [Exception], of which the handlers only ever use [str(e)]. What is
    not an [Exception] (a cancellation, a keyboard interrupt) is outside
    the model. *)
Inductive outcome (A : Type) : Type :=
  | Returns (a : A)
  | Raises (msg : string).
Arguments Returns {A} a.
Arguments Raises {A} msg.

#[export] Instance outcome_ret : MRet outcome := λ A a, Returns a.
#[export] Instance outcome_bind : MBind outcome := λ A B k m,
  match m with
  | Returns a => k a
  | Raises msg => Raises msg
  end.

(** A result record is a Python [dict] from field names to strings. *)
Abbreviation pydict := (gmap string string).

(** A row of the questions table, as [csv.DictReader] yields it. *)
Record WorkItem : Type := mkWorkItem {
  id : string;
  question : string
}.

(** ** asyncio: semaphore, event loop and [gather]

    The loop is single-threaded and cooperative: a task runs without
    interruption from one suspension point to the next, so a turn of the
    loop is one atomic step of the model. Which task runs next is left
    open: a schedule is any list of task positions. The semaphore of
    asyncio wakes its waiters in order of arrival; the model lets any
    waiting task take a free permit, which allows every run asyncio can
    make and more. *)

Module Asyncio.

(** Where a coroutine stands after it ran up to its next [await] that
    really suspends, or up to its [return]. *)
Inductive status (F R : Type) : Type :=
  | Suspended (f : F)
  | Returned (r : R).
Arguments Suspended {F R} f.
Arguments Returned {F R} r.

(** The body that a script puts under [async with self.semaphore:],
    cut at its suspension points. [start] runs from the acquisition
    of the permit to the first suspension, [resume] from a wake-up to the
    next one. Both may read and write the attributes of the processor
    object ([shared]) and report the outside effects they perform
    ([Ev]). The first argument is the position of the task in the
    batch. *)
Record async_fn (Item Ev Res : Type) : Type := AsyncFn {
  shared : Type;
  frame : Type;
  attrs0 : shared;
  start : nat → Item → shared → shared * list Ev * status frame Res;
  resume : nat → frame → shared → shared * list Ev * status frame Res;
  awaits_left : frame → nat
}.
Arguments shared {Item Ev Res} _.
Arguments frame {Item Ev Res} _.
Arguments attrs0 {Item Ev Res} _.
Arguments start {Item Ev Res} _ _ _ _.
Arguments resume {Item Ev Res} _ _ _ _.
Arguments awaits_left {Item Ev Res} _ _.

(** What the event loop records for task [i]. *)
Inductive sched_event (Ev : Type) : Type :=
  | Acquired
  | Did (e : Ev)
  | Released.
Arguments Acquired {Ev}.
Arguments Did {Ev} e.
Arguments Released {Ev}.

Section Loop.
Context {Item Ev Res : Type} (fn : async_fn Item Ev Res).

(** One task per coroutine handed to [gather]. *)
Inductive task : Type :=
  | Waiting (q : Item)          (* not yet past [semaphore.acquire()] *)
  | Holding (f : frame fn)      (* inside the [async with], suspended *)
  | Done (r : Res).             (* returned, permit given back *)

Record loop : Type := Loop {
  sem_value : nat;              (* [Semaphore._value] *)
  attrs : shared fn;
  tasks : list task;
  trace : list (nat * sched_event Ev)
}.

(** [gather] schedules the coroutines in the order of its arguments;
    the semaphore starts with [n] permits. *)
Definition init (n : nat) (qs : list Item) : loop :=
  {| sem_value := n; attrs := attrs0 fn; tasks := Waiting <$> qs; trace := [] |}.

(** The loop state after task [i] ran one slice with [v] permits left:
    on [return] the [async with] block is left and [release()] adds
    the permit back. *)
Definition settle (i v : nat) (st : loop)
    (out : shared fn * list (nat * sched_event Ev) * status (frame fn) Res) : loop :=
  match out with
  | (a, evs, Suspended f) =>
      {| sem_value := v; attrs := a;
         tasks := <[i := Holding f]> (tasks st);
         trace := trace st ++ evs |}
  | (a, evs, Returned r) =>
      {| sem_value := v + 1; attrs := a;
         tasks := <[i := Done r]> (tasks st);
         trace := trace st ++ evs ++ [(i, Released)] |}
  end.

Definition tag (i : nat) (evs : list Ev) : list (nat * sched_event Ev) :=
  (λ e, (i, Did e)) <$> evs.

(** The event loop runs task [i] until it suspends or returns. A task
    waiting in [acquire()] can only run when the semaphore is not
    locked; a suspended task can always be woken up. *)
Definition step_task (i : nat) (st : loop) : option loop :=
  match tasks st !! i with
  | Some (Waiting q) =>
      if decide (0 < sem_value st) then
        let '(a, evs, s) := start fn i q (attrs st) in
        Some (settle i (sem_value st - 1) st (a, (i, Acquired) :: tag i evs, s))
      else None
  | Some (Holding f) =>
      let '(a, evs, s) := resume fn i f (attrs st) in
      Some (settle i (sem_value st) st (a, tag i evs, s))
  | Some (Done _) | None => None
  end.

(** A schedule names the task the loop runs at each turn: it stands for
    the order in which the awaited operations complete. *)
Fixpoint run (sched : list nat) (st : loop) : option loop :=
  match sched with
  | [] => Some st
  | i :: sched' => st' ← step_task i st; run sched' st'
  end.

Definition result_of (t : task) : option Res :=
  match t with
  | Done r => Some r
  | _ => None
  end.

(** [await asyncio.gather] over the tasks resolves once every task is done,
    to the list of their values in the order of the arguments. *)
Definition gather (st : loop) : option (list Res) :=
  mapM result_of (tasks st).

Definition is_holding (t : task) : bool :=
  match t with
  | Holding _ => true
  | _ => false
  end.

(** Number of tasks inside the [async with] block. *)
Definition in_flight (st : loop) : nat :=
  length (filter (λ t, is_holding t = true) (tasks st)).

(** Number of permits task [i] holds according to a trace. *)
Fixpoint permits (i : nat) (tr : list (nat * sched_event Ev)) : Z :=
  match tr with
  | [] => 0
  | (j, e) :: tr' =>
      (if decide (i = j)
       then match e with
            | Acquired => 1
            | Released => -1
            | Did _ => 0
            end
       else 0) + permits i tr'
  end%Z.

(** Upper bound on the number of slices task [t] still needs, when
    [start] never leaves more than [b] suspensions. *)
Definition weight (b : nat) (t : task) : nat :=
  match t with
  | Waiting _ => b + 2
  | Holding f => awaits_left fn f + 1
  | Done _ => 0
  end.

Definition remaining (b : nat) (st : loop) : nat :=
  sum_list_with (weight b) (tasks st).


(** Permits held by task [i] according to the task table. *)
Definition holds (st : loop) (i : nat) : Z :=
  match tasks st !! i with
  | Some (Holding _) => 1
  | _ => 0
  end.

Definition trace_ok (st : loop) : Prop :=
  (∀ i, permits i (trace st) = holds st i) ∧
  (∀ k i e, trace st !! k = Some (i, Did e) →
            permits i (take k (trace st)) = 1%Z).

(** The events task [i] appends in one turn: an optional [Acquired],
    its own effects, an optional [Released]. *)
Definition slice (i : nat) (acq : bool) (evs : list Ev) (rel : bool)
    : list (nat * sched_event Ev) :=
  (if acq then [(i, Acquired)] else []) ++ tag i evs
    ++ (if rel then [(i, Released)] else []).

(** What the task at position [i] may be, when it was created for item
    [q], [expected] is the result it has to compute and [frame_ok]
    describes its suspended frames. *)
Definition task_ok (expected : nat → Item → Res)
    (frame_ok : nat → Item → frame fn → Prop)
    (i : nat) (q : Item) (t : task) : Prop :=
  match t with
  | Waiting q' => q' = q
  | Holding f => frame_ok i q f
  | Done r => r = expected i q
  end.

Definition tasks_ok (expected : nat → Item → Res)
    (frame_ok : nat → Item → frame fn → Prop)
    (qs : list Item) (st : loop) : Prop :=
  ∀ i q, qs !! i = Some q →
         ∃ t, tasks st !! i = Some t ∧ task_ok expected frame_ok i q t.

(** *** Two properties of a dispatcher *)

(** The batch returns, and with one result per item: a run never
    takes more than [turns] turns per item, never gets stuck before
    [gather] resolves, and [gather] resolves to as many results as
    there are items, the one at position [i] satisfying [belongs] for
    the item at position [i]. *)
Definition returns_one_result_per_item (belongs : Item → Res → Prop)
    (turns n : nat) (qs : list Item) : Prop :=
  (∀ sched st, run sched (init n qs) = Some st →
     length sched ≤ turns * length qs ∧
     ∃ sched' st' rs, run sched' st = Some st' ∧ gather st' = Some rs) ∧
  (∀ sched st rs, run sched (init n qs) = Some st → gather st = Some rs →
     length rs = length qs ∧
     ∀ i q, qs !! i = Some q → ∃ r, rs !! i = Some r ∧ belongs q r).

(** The permit is taken before any effect of the body and given back
    on return: every effect in the trace was performed by a task
    holding exactly one permit, a task holds a permit exactly while
    it is inside the block, the semaphore counts the tasks inside the
    block, and it is back at [n] when [gather] resolves. *)
Definition permit_discipline (n : nat) (qs : list Item) : Prop :=
  ∀ sched st, run sched (init n qs) = Some st →
    (∀ k i e, trace st !! k = Some (i, Did e) →
              permits i (take k (trace st)) = 1%Z) ∧
    (∀ i, permits i (trace st) = holds st i) ∧
    sem_value st + in_flight st = n ∧
    (∀ rs, gather st = Some rs →
           sem_value st = n ∧ ∀ i, permits i (trace st) = 0%Z).

End Loop.

Arguments Waiting {Item Ev Res fn} q.
Arguments Holding {Item Ev Res fn} f.
Arguments Done {Item Ev Res fn} r.
Arguments sem_value {Item Ev Res fn} _.
Arguments attrs {Item Ev Res fn} _.
Arguments tasks {Item Ev Res fn} _.
Arguments trace {Item Ev Res fn} _.
Arguments holds {Item Ev Res fn} st i.
Arguments trace_ok {Item Ev Res fn} st.

End Asyncio.

(** ** The OpenAI chat-completions client, as the scripts use it *)

Module OpenAI.

Inductive content_part : Type :=
  | Text (text : string)
  | ImageUrl (url : string).

(** Arguments of [client.chat.completions.create]: the model, the
    content of the one user message and, when the script passes them,
    [max_tokens], [temperature] and [top_p]. *)
Record request : Type := mkRequest {
  model : string;
  content : list content_part;
  max_tokens : option Z;
  temperature : option Z;
  top_p : option Z
}.

(** [completion.choices[0]]: the message content and the finish reason. *)
Record completion : Type := mkCompletion {
  message_content : string;
  finish_reason : string
}.

Inductive io_event : Type :=
  | RemoteCall (req : request).

End OpenAI.

(** ** 8_frames_testing/inference4o_8frames.py *)

Module Inference4o8Frames.
Import Asyncio OpenAI.

Definition create_prompt (question : string) (frame_count : nat) : string :=
  "I am showing you " +:+ pretty frame_count +:+ " equally spaced frames from a 5-second video. 
The frames are numbered 1 through " +:+ pretty frame_count +:+ " in chronological order.
Based on these frames, you will answer a multiple choice question. Go through your reasoning through the different frames then put
all that reasoning together to choose the best answer from the multiple choice options. Remember that some frames are more
important than others when it comes to answering the question. Make sure at the end of your answer you 
output the best answer letter choice in <answer></answer> tags. Here is the multiple choice question:

" +:+ question +:+ "
".

Definition error_result (video_id msg : string) : pydict :=
  {[ "video_id" := video_id; "error" := msg ]}.

Definition response (video_id : string) (c : completion) : pydict :=
  {[ "video_id" := video_id;
     "answer" := message_content c;
     "finish_reason" := finish_reason c ]}.

Section Processor.
(** The frame store: the sorted [frame_*.jpg] paths under
    [extracted_frames_8/<video_id>]. *)
Variable get_frame_paths : string → list string.
(** Reading and base64-encoding a frame file. *)
Variable encode_image : string → outcome string.
(** The provider: what the call issued by the task at position [i]
    resolves to. *)
Variable create : nat → request → outcome completion.

(** The loop [for path in frame_paths: ... content.append(...)]. *)
Fixpoint add_frames (frame_paths : list string) (content : list content_part)
    : outcome (list content_part) :=
  match frame_paths with
  | [] => Returns content
  | path :: rest =>
      base64_image ← encode_image path;
      add_frames rest (content ++ [ImageUrl ("data:image/jpeg;base64," +:+ base64_image)])
  end.

(** [process_question] from the start of the [try] block to the
    arguments of the awaited [create] call. *)
Definition build_request (video_id question : string) : outcome request :=
  let frame_paths := get_frame_paths video_id in
  if bool_decide (frame_paths = []) then
    Raises ("No frames found for video ID " +:+ video_id)
  else
    content ← add_frames frame_paths [Text (create_prompt question 8)];
    Returns {| model := "gpt-4o"; content := content;
               max_tokens := Some 4096%Z; temperature := Some 0%Z;
               top_p := Some 0%Z |}.

(** From the acquisition of the permit to [await ...create(...)]. *)
Definition start_question (i : nat) (q : WorkItem) (_ : unit)
    : unit * list io_event * status (string * request) pydict :=
  match build_request (id q) (question q) with
  | Raises msg => (tt, [], Returned (error_result (id q) msg))
  | Returns req => (tt, [RemoteCall req], Suspended (id q, req))
  end.

(** From the completion of the awaited call to [return]. *)
Definition finish_question (i : nat) (f : string * request) : pydict :=
  match create i (snd f) with
  | Raises msg => error_result (fst f) msg
  | Returns c => response (fst f) c
  end.

Definition resume_question (i : nat) (f : string * request) (_ : unit)
    : unit * list io_event * status (string * request) pydict :=
  (tt, [], Returned (finish_question i f)).

Definition process_question_fn : async_fn WorkItem io_event pydict :=
  {| shared := unit; frame := string * request; attrs0 := tt;
     start := start_question; resume := resume_question;
     awaits_left := λ _, 0 |}.

(** The body of [process_question] run from its first line to its
    [return] for the task at position [i]: the remote calls it
    issued and the dict it returns. *)
Definition process_question (i : nat) (video_id question : string)
    : list io_event * pydict :=
  match start_question i (mkWorkItem video_id question) tt with
  | (_, evs, Returned r) => (evs, r)
  | (_, evs, Suspended f) => (evs, finish_question i f)
  end.

(** [process_batch] on a semaphore of [max_concurrent_requests]
    permits, when the awaited calls complete in the order [sched]:
    [None] while [gather] has not resolved. *)
Definition process_batch (max_concurrent_requests : nat)
    (questions : list WorkItem) (sched : list nat) : option (list pydict) :=
  st ← run process_question_fn sched (init process_question_fn max_concurrent_requests questions);
  gather process_question_fn st.

End Processor.
End Inference4o8Frames.

(** ** inference_4o_reasoning.py *)

Module Inference4oReasoning.
Import Asyncio OpenAI.

Definition create_prompt (question : string) (frame_count : nat) : string :=
  "I am showing you " +:+ pretty frame_count +:+ " equally spaced frames from a 5-second dashcam video captured from the driver's perspective (ego vehicle). The frames are numbered 1 through " +:+ pretty frame_count +:+ " in chronological order.

For each frame, provide a detailed analysis focusing on:
1. Traffic and Road Elements:
   - Traffic light states and positions
   - Traffic signs and road markings
   - Lane configurations and markings
   - Construction or road blockages
   - Intersection details and permitted turning directions
   
2. Vehicle Dynamics:
   - Position and behavior of ego vehicle
   - Positions and behaviors of other vehicles
   - Turn signals/blinkers of all vehicles
   - Approximate distances between vehicles
   - Lane positions and changes
   
3. Road Users and Hazards:
   - Pedestrians and their locations
   - Crosswalks and crossing activity
   - Bicyclists and bike lanes
   - Emergency vehicles
   - Road conditions or hazards (snow, construction, etc.)

4. Environmental Context:
   - Building types or destinations
   - Street signs and exit numbers
   - Parking regulations or restrictions
   - Number of lanes in each direction
   - Special lanes (bus, HOV, turn-only)

After analyzing individual frames, examine the sequence as a whole to track:
1. Changes in vehicle positions and movements
2. Traffic light cycles
3. Pedestrian movement patterns
4. Evolution of potential hazards or obstacles
5. Complete maneuvers or turns being executed

I will provide a multiple choice question that you should use to:
- Focus on elements specifically mentioned in the question
- Note details that could distinguish between answer choices
- Track relevant changes across the frame sequence

Important: Do not answer the question yet. Instead, use it to guide your detailed observations of both individual frames and the overall sequence.

Here is the question:

" +:+ question +:+ "
".

(** This script returns the records without the identifier. *)
Definition error_result (msg : string) : pydict :=
  {[ "error" := msg ]}.

Definition response (c : completion) : pydict :=
  {[ "answer" := message_content c;
     "finish_reason" := finish_reason c ]}.

Section Processor.
(** The sorted [frame_*.jpg] paths under [extracted_frames/<video_id>]. *)
Variable get_frame_paths : string → list string.
Variable encode_image : string → outcome string.
Variable create : nat → request → outcome completion.

Fixpoint add_frames (frame_paths : list string) (content : list content_part)
    : outcome (list content_part) :=
  match frame_paths with
  | [] => Returns content
  | path :: rest =>
      base64_image ← encode_image path;
      add_frames rest (content ++ [ImageUrl ("data:image/jpeg;base64," +:+ base64_image)])
  end.

Definition build_request (video_id question : string) : outcome request :=
  let frame_paths := get_frame_paths video_id in
  if bool_decide (frame_paths = []) then
    Raises ("No frames found for video ID " +:+ video_id)
  else
    content ← add_frames frame_paths [Text (create_prompt question 5)];
    Returns {| model := "gpt-4o"; content := content;
               max_tokens := Some 4096%Z; temperature := Some 0%Z;
               top_p := Some 0%Z |}.

Definition start_question (i : nat) (q : WorkItem) (_ : unit)
    : unit * list io_event * status request pydict :=
  match build_request (id q) (question q) with
  | Raises msg => (tt, [], Returned (error_result msg))
  | Returns req => (tt, [RemoteCall req], Suspended req)
  end.

Definition finish_question (i : nat) (req : request) : pydict :=
  match create i req with
  | Raises msg => error_result msg
  | Returns c => response c
  end.

Definition resume_question (i : nat) (req : request) (_ : unit)
    : unit * list io_event * status request pydict :=
  (tt, [], Returned (finish_question i req)).

Definition process_question_fn : async_fn WorkItem io_event pydict :=
  {| shared := unit; frame := request; attrs0 := tt;
     start := start_question; resume := resume_question;
     awaits_left := λ _, 0 |}.

Definition process_question (i : nat) (video_id question : string)
    : list io_event * pydict :=
  match start_question i (mkWorkItem video_id question) tt with
  | (_, evs, Returned r) => (evs, r)
  | (_, evs, Suspended req) => (evs, finish_question i req)
  end.

Definition process_batch (max_concurrent_requests : nat)
    (questions : list WorkItem) (sched : list nat) : option (list pydict) :=
  st ← run process_question_fn sched (init process_question_fn max_concurrent_requests questions);
  gather process_question_fn st.

(** The saving loop of [main]: [for question, result in
    zip(questions, results)], one [json.dump] per pair, as the list of
    the files written with their contents. *)
Definition save_results (questions : list WorkItem) (results : list pydict)
    : list (string * pydict) :=
  (λ qr, ("o1_preview_results0/" +:+ id (fst qr) +:+ "_result.json", snd qr))
    <$> zip questions results.

(** [main] with [max_concurrent_requests=5]. *)
Definition main (questions : list WorkItem) (sched : list nat)
    : option (list (string * pydict)) :=
  results ← process_batch 5 questions sched;
  Some (save_results questions results).

End Processor.
End Inference4oReasoning.

(** ** inferenceo1.py *)

Module InferenceO1.
Import Asyncio OpenAI.

Definition create_prompt (question : string) (frame_count : nat) : string :=
  "You have 5 equally spaced frames (Frame 1 through Frame 5) captured from a 5-second dashcam video, taken from the driver’s forward-facing perspective.

Using these frames, answer the following multiple-choice question by choosing the single best answer. Conclude with the final choice that best matches the situation. Output that choice in `<answer></answer>` tags.

Now, here is the question and its multiple-choice options:
" +:+ question +:+ "
".

Definition error_result (video_id msg : string) : pydict :=
  {[ "video_id" := video_id; "error" := msg ]}.

Definition response (video_id : string) (c : completion) : pydict :=
  {[ "video_id" := video_id;
     "answer" := message_content c;
     "finish_reason" := finish_reason c ]}.

Section Processor.
(** The frame store: the sorted [frame_*.jpg] paths under
    [extracted_frames/<video_id>]. *)
Variable get_frame_paths : string → list string.
(** Reading and base64-encoding a frame file. *)
Variable encode_image : string → outcome string.
(** The provider: what the call issued by the task at position [i]
    resolves to. *)
Variable create : nat → request → outcome completion.

(** The loop [for path in frame_paths: ... content.append(...)]. *)
Fixpoint add_frames (frame_paths : list string) (content : list content_part)
    : outcome (list content_part) :=
  match frame_paths with
  | [] => Returns content
  | path :: rest =>
      base64_image ← encode_image path;
      add_frames rest (content ++ [ImageUrl ("data:image/jpeg;base64," +:+ base64_image)])
  end.

(** [process_question] from the start of the [try] block to the
    arguments of the awaited [create] call. *)
Definition build_request (video_id question : string) : outcome request :=
  let frame_paths := get_frame_paths video_id in
  if bool_decide (frame_paths = []) then
    Raises ("No frames found for video ID " +:+ video_id)
  else
    content ← add_frames frame_paths [Text (create_prompt question 5)];
    Returns {| model := "o1"; content := content;
               max_tokens := None; temperature := None; top_p := None |}.

(** From the acquisition of the permit to [await ...create(...)]. *)
Definition start_question (i : nat) (q : WorkItem) (_ : unit)
    : unit * list io_event * status (string * request) pydict :=
  match build_request (id q) (question q) with
  | Raises msg => (tt, [], Returned (error_result (id q) msg))
  | Returns req => (tt, [RemoteCall req], Suspended (id q, req))
  end.

(** From the completion of the awaited call to [return]. *)
Definition finish_question (i : nat) (f : string * request) : pydict :=
  match create i (snd f) with
  | Raises msg => error_result (fst f) msg
  | Returns c => response (fst f) c
  end.

Definition resume_question (i : nat) (f : string * request) (_ : unit)
    : unit * list io_event * status (string * request) pydict :=
  (tt, [], Returned (finish_question i f)).

Definition process_question_fn : async_fn WorkItem io_event pydict :=
  {| shared := unit; frame := string * request; attrs0 := tt;
     start := start_question; resume := resume_question;
     awaits_left := λ _, 0 |}.

(** The body of [process_question] run from its first line to its
    [return] for the task at position [i]: the remote calls it
    issued and the dict it returns. *)
Definition process_question (i : nat) (video_id question : string)
    : list io_event * pydict :=
  match start_question i (mkWorkItem video_id question) tt with
  | (_, evs, Returned r) => (evs, r)
  | (_, evs, Suspended f) => (evs, finish_question i f)
  end.

(** [process_batch] on a semaphore of [max_concurrent_requests]
    permits, when the awaited calls complete in the order [sched]:
    [None] while [gather] has not resolved. *)
Definition process_batch (max_concurrent_requests : nat)
    (questions : list WorkItem) (sched : list nat) : option (list pydict) :=
  st ← run process_question_fn sched (init process_question_fn max_concurrent_requests questions);
  gather process_question_fn st.

End Processor.
End InferenceO1.

(** ** The Vertex AI client, as the Gemini scripts use it *)

Module VertexAI.

Inductive part : Type :=
  | Prompt (text : string)
  | FromData (data mime_type : string)
  | FromUri (uri mime_type : string).

(** Arguments of [model.generate_content]; the generation config, when
    given, holds [temperature] and [top_p]. *)
Record request : Type := mkRequest {
  contents : list part;
  generation_config : option (Z * Z)
}.

(** The response object; reading its [text] property may raise. *)
Record gen_response : Type := mkResponse {
  text : outcome string
}.

Inductive io_event : Type :=
  | RemoteCall (req : request)
  | Sleep (seconds : nat).

End VertexAI.

(** ** gemini_pro.py *)

Module GeminiPro.
Import Asyncio VertexAI.

Definition create_prompt (question : string) : string :=
  "You have 5 equally spaced frames (Frame 1 through Frame 5) captured from a 5-second dashcam video, taken from the driver’s forward-facing perspective.

Using these frames, answer the following multiple-choice question by choosing the single best answer. Incorporate any relevant details observed in the frames (for example, lanes, signage, vehicles, pedestrians, traffic signals, road markings, obstructions) that might help in selecting the correct answer. Consider how details may change across the frames and note that some frames may be more crucial than others. Explain your reasoning in detail.

Steps to follow:
1. **Frame-by-Frame Analysis:** Describe the significant elements you notice in each of the 5 frames (e.g., signs, road markings, obstructions, other vehicles, potential hazards). Make sure you particularly pay attention to road markings or signs with directional arrows whenever the question asks about the possible directions a given lane can go. 
2. **Contextual Reasoning:** Integrate the observations from each frame. Think about what is happening over time, which elements are most relevant, and how they connect to the question.
3. **Match to Answer Choices:** Relate your findings to each of the multiple-choice options. Eliminate those that are inconsistent with the visual evidence or standard traffic rules, and select the most appropriate remaining choice.
4. **Provide the Best Answer:** Conclude with the final choice that best matches the situation. Output that choice in `<answer></answer>` tags.

Now, here is the question and its multiple-choice options:

" +:+ question +:+ "
".

Definition error_result (video_id msg : string) : pydict :=
  {[ "video_id" := video_id; "error" := msg ]}.

Definition answer_result (video_id answer : string) : pydict :=
  {[ "video_id" := video_id; "answer" := answer ]}.

Section Processor.
Variable get_frame_paths : string → list string.
(** [PIL.Image.open] followed by [image_to_bytes]. *)
Variable load_image_bytes : string → outcome string.
(** The provider; the call blocks, it is not awaited. *)
Variable generate_content : nat → request → outcome gen_response.

Fixpoint add_parts (frame_paths : list string) (image_parts : list part)
    : outcome (list part) :=
  match frame_paths with
  | [] => Returns image_parts
  | path :: rest =>
      image_bytes ← load_image_bytes path;
      add_parts rest (image_parts ++ [FromData image_bytes "image/jpeg"])
  end.

Definition build_request (video_id question : string) : outcome request :=
  let frame_paths := get_frame_paths video_id in
  if bool_decide (frame_paths = []) then
    Raises ("No frames found for video ID " +:+ video_id)
  else
    image_parts ← add_parts frame_paths [];
    Returns {| contents := Prompt (create_prompt question) :: image_parts;
               generation_config := Some (0, 0)%Z |}.

(** The whole body: nothing in it suspends. *)
Definition process_question (i : nat) (video_id question : string)
    : list io_event * pydict :=
  match build_request video_id question with
  | Raises msg => ([], error_result video_id msg)
  | Returns req =>
      ([RemoteCall req],
       match generate_content i req ≫= text with
       | Raises msg => error_result video_id msg
       | Returns answer => answer_result video_id answer
       end)
  end.

Definition start_question (i : nat) (q : WorkItem) (_ : unit)
    : unit * list io_event * status Empty_set pydict :=
  let '(evs, r) := process_question i (id q) (question q) in
  (tt, evs, Returned r).

Definition resume_question (i : nat) (f : Empty_set) (_ : unit)
    : unit * list io_event * status Empty_set pydict :=
  match f with end.

Definition process_question_fn : async_fn WorkItem io_event pydict :=
  {| shared := unit; frame := Empty_set; attrs0 := tt;
     start := start_question; resume := resume_question;
     awaits_left := λ _, 0 |}.

Definition process_batch (max_concurrent_requests : nat)
    (questions : list WorkItem) (sched : list nat) : option (list pydict) :=
  st ← run process_question_fn sched (init process_question_fn max_concurrent_requests questions);
  gather process_question_fn st.

End Processor.
End GeminiPro.

(** ** gemini_video.py *)

Module GeminiVideo.
Import Asyncio VertexAI.

Definition batch_size : nat := 5.
Definition sleep_duration : nat := 0.

Definition is_sign (c : Ascii.ascii) : bool :=
  bool_decide (c = "+"%char) || bool_decide (c = "-"%char).

Fixpoint zeros (n : nat) : string :=
  match n with
  | 0 => ""
  | S n' => String "0" (zeros n')
  end.

(** [str.zfill]: pad with zeros on the left, after a leading sign. *)
Definition zfill (width : nat) (s : string) : string :=
  let n := String.length s in
  if decide (width ≤ n) then s
  else match s with
       | String c rest =>
           if is_sign c then String c (zeros (width - n) +:+ rest)
           else zeros (width - n) +:+ s
       | EmptyString => zeros width
       end.

Definition create_prompt (question : string) : string :=
  "You are analyzing a dashcam video taken from the driver's forward-facing perspective.
                
                Using this video, answer the following multiple-choice question by choosing the single best answer.
                Incorporate any relevant details observed in the video (for example, lanes, signage, vehicles, 
                pedestrians, traffic signals, road markings, obstructions) that might help in selecting the correct answer. 
                Explain your reasoning in detail. Relate your findings to each of the multiple-choice options. Eliminate those that are inconsistent with the visual evidence or standard traffic rules, and select the most appropriate remaining choice.
                Conclude with the final choice that best matches the situation. Output that choice in `<answer></answer>` tags.
                
                Question: " +:+ question +:+ "
                ".

Definition error_result (video_id msg : string) : pydict :=
  {[ "video_id" := video_id; "error" := msg ]}.

Definition answer_result (video_id answer : string) : pydict :=
  {[ "video_id" := video_id; "answer" := answer ]}.

Definition build_request (video_id question : string) : request :=
  let video_path := "gs://tesla_videos/videos/" +:+ zfill 5 video_id +:+ ".mp4" in
  {| contents := [FromUri video_path "video/mp4"; Prompt (create_prompt question)];
     generation_config := None |}.

(** The [return] statement: building the dict reads [response.text]. *)
Definition finish_question (video_id : string) (resp : gen_response) : pydict :=
  match text resp with
  | Raises msg => error_result video_id msg
  | Returns answer => answer_result video_id answer
  end.

Section Processor.
Variable generate_content : nat → request → outcome gen_response.

(** Up to the [return], or up to [await asyncio.sleep(...)] when the
    counter has reached a multiple of [batch_size]. The attribute
    [request_count] is the shared state. *)
Definition start_question (i : nat) (q : WorkItem) (request_count : nat)
    : nat * list io_event * status (string * gen_response) pydict :=
  let req := build_request (id q) (question q) in
  match generate_content i req with
  | Raises msg => (request_count, [RemoteCall req], Returned (error_result (id q) msg))
  | Returns resp =>
      let request_count := request_count + 1 in
      if decide (request_count mod batch_size = 0) then
        (request_count, [RemoteCall req; Sleep sleep_duration], Suspended (id q, resp))
      else
        (request_count, [RemoteCall req], Returned (finish_question (id q) resp))
  end.

(** After the sleep. *)
Definition resume_question (i : nat) (f : string * gen_response) (request_count : nat)
    : nat * list io_event * status (string * gen_response) pydict :=
  (request_count, [], Returned (finish_question (fst f) (snd f))).

Definition process_question_fn : async_fn WorkItem io_event pydict :=
  {| shared := nat; frame := string * gen_response; attrs0 := 0;
     start := start_question; resume := resume_question;
     awaits_left := λ _, 0 |}.

Definition process_batch (max_concurrent_requests : nat)
    (questions : list WorkItem) (sched : list nat) : option (list pydict) :=
  st ← run process_question_fn sched (init process_question_fn max_concurrent_requests questions);
  gather process_question_fn st.

(** A call of task [i] that returned, the only kind the counter counts. *)
Definition is_returned_call (ev : nat * sched_event io_event) : bool :=
  match ev with
  | (i, Did (RemoteCall req)) =>
      match generate_content i req with
      | Returns _ => true
      | Raises _ => false
      end
  | _ => false
  end.

Definition calls_returned (tr : list (nat * sched_event io_event)) : nat :=
  length (filter (λ ev, is_returned_call ev = true) tr).


(** The record [process_question] returns for the task at position
    [i]: it depends on the outcome of its own call only. *)
Definition question_result (i : nat) (q : WorkItem) : pydict :=
  match generate_content i (build_request (id q) (question q)) with
  | Raises msg => error_result (id q) msg
  | Returns resp => finish_question (id q) resp
  end.

Definition call_returns (i : nat) (q : WorkItem) : bool :=
  match generate_content i (build_request (id q) (question q)) with
  | Returns _ => true
  | Raises _ => false
  end.

(** Number of items, counted from position [i], whose call returns. *)
Fixpoint successes (i : nat) (questions : list WorkItem) : nat :=
  match questions with
  | [] => 0
  | q :: rest => (if call_returns i q then 1 else 0) + successes (S i) rest
  end.

(** What the task at position [i] has added to [request_count]: one
    if it is past its call and the call returned. *)
Definition counted_for (i : nat) (q : WorkItem)
    (t : task process_question_fn) : nat :=
  match t with
  | Waiting _ => 0
  | _ => if call_returns i q then 1 else 0
  end.

Fixpoint calls_counted (i : nat) (questions : list WorkItem)
    (ts : list (task process_question_fn)) : nat :=
  match questions, ts with
  | q :: rest, t :: ts' => counted_for i q t + calls_counted (S i) rest ts'
  | _, _ => 0
  end.

(** The counter agrees with the task table: every waiting task is
    the one created for its item, and [request_count] is the number of
    tasks past a call that returned. *)
Definition counter_ok (questions : list WorkItem)
    (st : loop process_question_fn) : Prop :=
  length (tasks st) = length questions ∧
  (∀ j q, tasks st !! j = Some (Waiting q) → questions !! j = Some q) ∧
  attrs st = calls_counted 0 questions (tasks st).

(** [main]: the loop over the rows of [all_questions.csv],
    [row['id'] = str(int(row['id'])).zfill(5)]. [int] is Python's
    builtin on the text of the column: the number, or [ValueError],
    which ends [main]. *)
Fixpoint read_questions (int : string → outcome Z) (rows : list WorkItem)
    : outcome (list WorkItem) :=
  match rows with
  | [] => Returns []
  | row :: rest =>
      id_num ← int (id row);
      questions ← read_questions int rest;
      Returns (mkWorkItem (zfill 5 (pretty id_num)) (question row) :: questions)
  end.

(** The saving loop of [main]: the files written, each with the
    object dumped into it, and how the loop ends.
    [result.pop('video_id')] raises [KeyError] on a dict without the
    key. *)
Fixpoint save_results (results : list pydict)
    : list (string * pydict) * outcome unit :=
  match results with
  | [] => ([], Returns tt)
  | result :: rest =>
      match result !! "video_id" with
      | None => ([], Raises "'video_id'")
      | Some video_id =>
          let '(written, end_) := save_results rest in
          (("gemini_video_answers/" +:+ video_id +:+ "_result.json",
            delete "video_id" result) :: written, end_)
      end
  end.

(** [main], with the default of five permits: [None] while the batch
    has not come to its end. *)
Definition main (int : string → outcome Z) (rows : list WorkItem)
    (sched : list nat) : option (list (string * pydict) * outcome unit) :=
  match read_questions int rows with
  | Raises msg => Some ([], Raises msg)
  | Returns questions =>
      results ← process_batch 5 questions sched;
      Some (save_results results)
  end.

End Processor.

Definition is_sleep (ev : nat * sched_event io_event) : bool :=
  match ev with
  | (_, Did (Sleep _)) => true
  | _ => false
  end.

Definition sleeps (tr : list (nat * sched_event io_event)) : nat :=
  length (filter (λ ev, is_sleep ev = true) tr).

(** The cooldown as the script has it: the counter is the number of
    calls that returned; a sleep of [sleep_duration] seconds is started
    once per [batch_size] such calls, by the task whose call has just
    returned and brought the counter to a multiple of [batch_size], and
    that task sleeps holding its permit. *)
Definition cooldown_ok
    (generate_content : nat → request → outcome gen_response)
    (st : loop (process_question_fn generate_content)) : Prop :=
  attrs st = calls_returned generate_content (trace st) ∧
  sleeps (trace st) = attrs st / batch_size ∧
  ∀ k i d, trace st !! k = Some (i, Did (Sleep d)) →
    d = sleep_duration ∧
    (∃ req resp, 0 < k ∧ trace st !! (k - 1) = Some (i, Did (RemoteCall req)) ∧
                 generate_content i req = Returns resp) ∧
    0 < calls_returned generate_content (take k (trace st)) ∧
    calls_returned generate_content (take k (trace st)) mod batch_size = 0 ∧
    permits i (take k (trace st)) = 1%Z.

(** The cooldown as a pause of the whole dispatcher: once a sleep has
    started, a further call is only made after the sleeping task has
    woken up and left the block. *)
Definition cooldown_pauses_dispatcher
    (generate_content : nat → request → outcome gen_response)
    (st : loop (process_question_fn generate_content)) : Prop :=
  ∀ k k' i j d req,
    trace st !! k = Some (i, Did (Sleep d)) →
    k < k' →
    trace st !! k' = Some (j, Did (RemoteCall req)) →
    permits i (take k' (trace st)) = 0%Z.

End GeminiVideo.

(** ** extract_letter.py *)

Module ExtractLetter.
Import Asyncio.

(** The JSON body posted to the chat-completions endpoint. *)
Record payload : Type := mkPayload {
  model : string;
  system_content : string;
  user_content : string;
  temperature : Z;
  max_tokens : Z
}.

(** What the script reads of the HTTP response: the status, the body as
    [await response.text()] gives it, and the stripped
    [result['choices'][0]['message']['content']] of
    [await response.json()]. *)
Record http_response : Type := mkHttpResponse {
  status : Z;
  body_text : outcome string;
  body_answer : outcome string
}.

Inductive io_event : Type :=
  | OpenFile (file_path mode : string)
  | ReadFile (file_path : string)
  | CloseFile (file_path : string)
  | Post (p : payload)
  | ReadBody
  | MakeDirs (output_dir : string)
  | WriteFile (output_path : string) (data : pydict).

(** The awaits of [process_single_file], at each of which the task is
    suspended: opening the input file, reading it and closing it (the
    [async with] of line 22 and the [await] of line 23), the request
    (line 54), the body of the response (line 60 or 64), and opening,
    writing and closing the output file (lines 76 and 77). A frame
    holds what the task needs to go on; the two frames at a closing
    hold what the block that is being left has produced, a value or an
    exception. Leaving the [async with] of the response only releases
    the connection; it is not a suspension point of the model. *)
Inductive frame : Type :=
  | AwaitOpen (file_path : string)
  | AwaitRead (file_path : string)
  | AwaitClose (file_path : string) (answer_text : outcome string)
  | AwaitPost (file_path : string) (p : payload)
  | AwaitBody (file_path : string) (resp : http_response)
  | AwaitOpenOutput (video_id answer output_path : string)
  | AwaitWrite (video_id answer output_path : string)
  | AwaitCloseOutput (video_id answer output_path : string)
      (written : outcome unit).

(** The awaits still to come on the longest path. *)
Definition awaits_left (f : frame) : nat :=
  match f with
  | AwaitOpen _ => 7
  | AwaitRead _ => 6
  | AwaitClose _ _ => 5
  | AwaitPost _ _ => 4
  | AwaitBody _ _ => 3
  | AwaitOpenOutput _ _ _ => 2
  | AwaitWrite _ _ _ => 1
  | AwaitCloseOutput _ _ _ _ => 0
  end.

Definition make_payload (answer_text : string) : payload :=
  {| model := "gpt-4o-mini";
     system_content := "Extract the letter choice (A, B, C, D, or E) that is indicated as the answer in the text. Output the answer in tags like this: <answer>B</answer>";
     user_content := answer_text;
     temperature := 0;
     max_tokens := 50 |}.

Definition output_dir : string := "gemini_pro_final_answers".

Section Files.
(** [aiofiles.open(path, mode)], entering its [async with]. *)
Variable open_file : string → string → outcome unit.
(** [await f.read()] on the file at a path. *)
Variable read : string → outcome string.
(** Leaving the [async with] of a file closes it. *)
Variable close : string → outcome unit.
(** [json.loads(content)] followed by [data.get('answer', '')]. *)
Variable answer_of : string → outcome string.
(** The endpoint, for the request of the task at position [i]. *)
Variable post : nat → payload → outcome http_response.
(** [os.path.splitext(os.path.basename(file_path))[0]]. *)
Variable video_id_of : string → string.
(** [os.makedirs(output_dir, exist_ok=True)]. *)
Variable makedirs : string → outcome unit.
(** [await f.write(json.dumps(data, indent=2))] on the file at a path. *)
Variable write : string → pydict → outcome unit.

Definition result : Type := option (string * string).

(** [process_single_file] up to its first [await]. *)
Definition start_file (i : nat) (file_path : string) (_ : unit)
    : unit * list io_event * Asyncio.status frame result :=
  (tt, [OpenFile file_path "r"], Suspended (AwaitOpen file_path)).

(** [process_single_file] from one [await] to the next; every
    exception ends in the handler, which returns [None]. An
    exception inside an [async with] block of a file first closes
    the file. *)
Definition resume_file (i : nat) (f : frame) (_ : unit)
    : unit * list io_event * Asyncio.status frame result :=
  match f with
  | AwaitOpen file_path =>
      match open_file file_path "r" with
      | Raises _ => (tt, [], Returned None)
      | Returns _ => (tt, [ReadFile file_path], Suspended (AwaitRead file_path))
      end
  | AwaitRead file_path =>
      (tt, [CloseFile file_path],
       Suspended (AwaitClose file_path (read file_path ≫= answer_of)))
  | AwaitClose file_path answer_text =>
      match close file_path, answer_text with
      | Returns _, Returns answer_text =>
          if bool_decide (answer_text = "") then (tt, [], Returned None)
          else
            let p := make_payload answer_text in
            (tt, [Post p], Suspended (AwaitPost file_path p))
      | _, _ => (tt, [], Returned None)
      end
  | AwaitPost file_path p =>
      match post i p with
      | Raises _ => (tt, [], Returned None)
      | Returns resp => (tt, [ReadBody], Suspended (AwaitBody file_path resp))
      end
  | AwaitBody file_path resp =>
      if bool_decide (status resp ≠ 200%Z) then (tt, [], Returned None)
      else
        match body_answer resp with
        | Raises _ => (tt, [], Returned None)
        | Returns answer =>
            let video_id := video_id_of file_path in
            match makedirs output_dir with
            | Raises _ => (tt, [MakeDirs output_dir], Returned None)
            | Returns _ =>
                let output_path := output_dir +:+ "/" +:+ video_id +:+ "_result.json" in
                (tt, [MakeDirs output_dir; OpenFile output_path "w"],
                 Suspended (AwaitOpenOutput video_id answer output_path))
            end
        end
  | AwaitOpenOutput video_id answer output_path =>
      match open_file output_path "w" with
      | Raises _ => (tt, [], Returned None)
      | Returns _ =>
          (tt, [WriteFile output_path {[ "answer" := answer ]}],
           Suspended (AwaitWrite video_id answer output_path))
      end
  | AwaitWrite video_id answer output_path =>
      (tt, [CloseFile output_path],
       Suspended (AwaitCloseOutput video_id answer output_path
                    (write output_path {[ "answer" := answer ]})))
  | AwaitCloseOutput video_id answer output_path written =>
      match close output_path, written with
      | Returns _, Returns _ => (tt, [], Returned (Some (video_id, answer)))
      | _, _ => (tt, [], Returned None)
      end
  end.

(** [process_with_semaphore]: the whole of [process_single_file] runs
    inside [async with semaphore:]. *)
Definition process_with_semaphore : async_fn string io_event result :=
  {| shared := unit; Asyncio.frame := frame; attrs0 := tt;
     start := start_file; resume := resume_file;
     Asyncio.awaits_left := awaits_left |}.

(** The semaphore of [process_all_files] has 10 permits. *)
Definition process_all_files (json_files : list string) (sched : list nat)
    : option (list result) :=
  st ← run process_with_semaphore sched (init process_with_semaphore 10 json_files);
  gather process_with_semaphore st.

(** The first stage as a whole: opening the input file, reading it,
    [json.loads], closing the file, and [data.get('answer', '')]. *)
Definition read_answer (file_path : string) : outcome string :=
  _ ← open_file file_path "r";
  let answer_text := read file_path ≫= answer_of in
  _ ← close file_path;
  answer_text.

(** The last stage as a whole: [os.makedirs], opening the output
    file, writing it and closing it. *)
Definition write_file (output_path : string) (data : pydict) : outcome unit :=
  _ ← makedirs output_dir;
  _ ← open_file output_path "w";
  let written := write output_path data in
  _ ← close output_path;
  written.

(** [process_single_file] from a suspension point to its [return],
    when nothing else runs in between: the effects performed and the
    value returned. [fuel] bounds the suspensions still to come. *)
Fixpoint finish_file (fuel : nat) (i : nat) (f : frame)
    : list io_event * result :=
  match resume_file i f tt with
  | (_, evs, Returned r) => (evs, r)
  | (_, evs, Suspended f') =>
      match fuel with
      | 0 => (evs, None)
      | S fuel' =>
          let '(evs', r) := finish_file fuel' i f' in (evs ++ evs', r)
      end
  end.

(** [process_single_file] run on its own for the task at position [i]. *)
Definition process_single_file (i : nat) (file_path : string)
    : list io_event * result :=
  let '(evs, r) := finish_file 7 i (AwaitOpen file_path) in
  (OpenFile file_path "r" :: evs, r).

(** [successful = len([r for r in results if r is not None])] *)
Definition successful (results : list result) : nat :=
  length (filter (λ r, r ≠ None) results).

(** The answer for which the output file of [file_path] is made: that
    of a response with status 200 to the request posted for the text
    read from the file. *)
Definition answer_received (i : nat) (file_path answer : string) : Prop :=
  ∃ answer_text resp,
    read_answer file_path = Returns answer_text ∧
    post i (make_payload answer_text) = Returns resp ∧
    status resp = 200%Z ∧ body_answer resp = Returns answer.

Definition output_path_of (file_path : string) : string :=
  "gemini_pro_final_answers/" +:+ video_id_of file_path +:+ "_result.json".

(** Where the effects of [process_single_file] come from: the input
    file is the one of the task, the request is posted for the text
    read from the file, and the output directory and file are made
    and written for the answer of a response with status 200. *)
Definition effect_allowed (i : nat) (file_path : string) (e : io_event) : Prop :=
  match e with
  | OpenFile p mode =>
      (p = file_path ∧ mode = "r") ∨
      (p = output_path_of file_path ∧ mode = "w" ∧
       ∃ answer, answer_received i file_path answer)
  | ReadFile p => p = file_path
  | CloseFile p =>
      p = file_path ∨
      (p = output_path_of file_path ∧ ∃ answer, answer_received i file_path answer)
  | Post p =>
      ∃ answer_text, read_answer file_path = Returns answer_text ∧
                     answer_text ≠ "" ∧ p = make_payload answer_text
  | ReadBody =>
      ∃ answer_text resp, read_answer file_path = Returns answer_text ∧
                          post i (make_payload answer_text) = Returns resp
  | MakeDirs d =>
      d = "gemini_pro_final_answers" ∧ ∃ answer, answer_received i file_path answer
  | WriteFile output_path data =>
      ∃ answer_text resp answer,
        read_answer file_path = Returns answer_text ∧
        post i (make_payload answer_text) = Returns resp ∧
        status resp = 200%Z ∧ body_answer resp = Returns answer ∧
        output_path = "gemini_pro_final_answers/" +:+ video_id_of file_path
                        +:+ "_result.json" ∧
        data = {[ "answer" := answer ]}
  end.

(** What a suspended frame of the task for [file_path] may be. *)
Definition frame_allowed (i : nat) (file_path : string) (f : frame) : Prop :=
  match f with
  | AwaitOpen p => p = file_path
  | AwaitRead p => p = file_path ∧ open_file file_path "r" = Returns tt
  | AwaitClose p answer_text =>
      p = file_path ∧ open_file file_path "r" = Returns tt ∧
      answer_text = read file_path ≫= answer_of
  | AwaitPost p pl =>
      p = file_path ∧
      ∃ answer_text, read_answer file_path = Returns answer_text ∧
                     answer_text ≠ "" ∧ pl = make_payload answer_text
  | AwaitBody p resp =>
      p = file_path ∧
      ∃ answer_text, read_answer file_path = Returns answer_text ∧
                     post i (make_payload answer_text) = Returns resp
  | AwaitOpenOutput video_id answer output_path =>
      answer_received i file_path answer ∧
      video_id = video_id_of file_path ∧
      output_path = output_path_of file_path ∧
      makedirs output_dir = Returns tt
  | AwaitWrite video_id answer output_path =>
      answer_received i file_path answer ∧
      video_id = video_id_of file_path ∧
      output_path = output_path_of file_path ∧
      makedirs output_dir = Returns tt ∧
      open_file output_path "w" = Returns tt
  | AwaitCloseOutput video_id answer output_path written =>
      answer_received i file_path answer ∧
      video_id = video_id_of file_path ∧
      output_path = output_path_of file_path ∧
      makedirs output_dir = Returns tt ∧
      open_file output_path "w" = Returns tt ∧
      written = write output_path {[ "answer" := answer ]}
  end.

End Files.
End ExtractLetter.

(** ** extract_answers.py *)

Module ExtractAnswers.

(** A Python [str] is a sequence of Unicode code points, here a list of
    numbers. [code_points] gives the code points of an ASCII literal. *)
Definition code_points (s : string) : list N :=
  N_of_ascii <$> String.list_ascii_of_string s.

Definition open_tag : list N := code_points "<answer>".
Definition close_tag : list N := code_points "</answer>".

(** [[A-E]] *)
Definition is_answer_letter (c : N) : bool :=
  ((65 <=? c) && (c <=? 69))%N.

(** [\s] in a [str] pattern: the code points for which [str.isspace]
    holds. *)
Definition is_space (c : N) : bool :=
  (((9 <=? c) && (c <=? 13)) || ((28 <=? c) && (c <=? 32))
   || (c =? 133) || (c =? 160) || (c =? 5760)
   || ((8192 <=? c) && (c <=? 8202))
   || (c =? 8232) || (c =? 8233) || (c =? 8239) || (c =? 8287) || (c =? 12288))%N.

(** [[.\s]] *)
Definition is_dot_or_space (c : N) : bool :=
  (c =? 46)%N || is_space c.

(** [.] without [re.DOTALL]: anything but a newline. *)
Definition is_any (c : N) : bool :=
  negb (c =? 10)%N.

(** Matching a literal at the start of [t]: the rest of [t] after it. *)
Fixpoint strip_prefix (p t : list N) : option (list N) :=
  match p, t with
  | [], _ => Some t
  | a :: p', b :: t' => if (a =? b)%N then strip_prefix p' t' else None
  | _ :: _, [] => None
  end.

(** [.*?</answer>] at the start of [t]: the lazy star first tries the
    closing tag, and otherwise takes one more character. *)
Fixpoint lazy_any_then_close (t : list N) : bool :=
  match strip_prefix close_tag t with
  | Some _ => true
  | None =>
      match t with
      | c :: t' => is_any c && lazy_any_then_close t'
      | [] => false
      end
  end.

(** [<answer>([A-E])[.\s].*?</answer>] at the start of [t]: group 1. *)
Definition match_with_content (t : list N) : option N :=
  match strip_prefix open_tag t with
  | Some (l :: d :: rest) =>
      if is_answer_letter l && is_dot_or_space d && lazy_any_then_close rest
      then Some l else None
  | _ => None
  end.

(** [<answer>([A-E])</answer>] at the start of [t]: group 1. *)
Definition match_letter_only (t : list N) : option N :=
  match strip_prefix open_tag t with
  | Some (l :: rest) =>
      if is_answer_letter l && bool_decide (is_Some (strip_prefix close_tag rest))
      then Some l else None
  | _ => None
  end.

(** [re.search]: the match at the leftmost position that has one. *)
Fixpoint search (m : list N → option N) (t : list N) : option N :=
  match m t with
  | Some l => Some l
  | None =>
      match t with
      | [] => None
      | _ :: t' => search m t'
      end
  end.

(** A value of the object that [json.load] returns. Only a string is
    looked into; of the other values the kind is enough. *)
Inductive json_value : Type :=
  | JString (s : list N)
  | JNull
  | JBool (b : bool)
  | JNumber
  | JArray
  | JObject.

(** [re.search(pattern, answer_text)] raises [TypeError] when
    [answer_text] is not a string. *)
Definition re_search (m : list N → option N) (answer_text : json_value)
    : outcome (option N) :=
  match answer_text with
  | JString t => Returns (search m t)
  | _ => Raises "expected string or bytes-like object"
  end.

Definition extract_answer_from_json (json_content : gmap string json_value)
    : outcome (option (list N)) :=
  let answer_text := default (JString []) (json_content !! "answer") in
  found ← re_search match_with_content answer_text;
  match found with
  | Some l => Returns (Some [l])
  | None =>
      found ← re_search match_letter_only answer_text;
      match found with
      | Some l => Returns (Some [l])
      | None => Returns None
      end
  end.

(** The answer tag the extraction expects, said without the matcher:
    somewhere in [t] an opening tag is followed by the letter [l] and
    then either by the closing tag, or by a dot or a white-space
    character, any characters of the same line, and the closing tag. *)
Definition letter_only_tag (t : list N) (l : N) : Prop :=
  ∃ pre post, t = pre ++ open_tag ++ l :: close_tag ++ post.

(** The white-space characters: those of Unicode, U+0009 to U+000D,
    the space, U+0085, U+00A0, U+1680, U+2000 to U+200A, U+2028, U+2029,
    U+202F, U+205F and U+3000, and the four separators U+001C to
    U+001F. *)
Definition white_space : list N :=
  [9; 10; 11; 12; 13; 28; 29; 30; 31; 32; 133; 160; 5760;
   8192; 8193; 8194; 8195; 8196; 8197; 8198; 8199; 8200; 8201; 8202;
   8232; 8233; 8239; 8287; 12288]%N.

Definition content_tag (t : list N) (l : N) : Prop :=
  ∃ pre d mid post,
    t = pre ++ open_tag ++ l :: d :: mid ++ close_tag ++ post ∧
    (d = 46%N ∨ d ∈ white_space) ∧ Forall (λ c, c ≠ 10%N) mid.

Definition expected_tag (t : list N) (l : N) : Prop :=
  (65 ≤ l ≤ 69)%N ∧ (content_tag t l ∨ letter_only_tag t l).

(** [name.split('_')[0]]: the part of [name] before its first
    underscore, all of it when it has none. *)
Fixpoint before_underscore (name : string) : string :=
  match name with
  | EmptyString => EmptyString
  | String c rest =>
      if Ascii.eqb c "_"%char then EmptyString
      else String c (before_underscore rest)
  end.

(** A row of the table: the identifier as it is written and the answer. *)
Abbreviation row := (string * list N)%type (only parsing).

(** [for id_num in range(1, 51): results.append([str(id_num).zfill(5), 'X'])] *)
Definition x_rows : list row :=
  (λ id_num : Z, (GeminiVideo.zfill 5 (pretty id_num), code_points "X"))
    <$> seqZ 1 50.

Section Files.
(** Python's [int] on a [str]: the number, or [ValueError]. *)
Variable int : string → outcome Z.

(** One turn of the loop over the files. A file is its name and what
    opening and parsing it gives: the object, or an exception (that of
    [get] on a document that is no object among them). The inner
    handler catches these and the [TypeError] of the extraction
    alike. [results] and [processed_ids] are the state of the loop. *)
Definition process_file (acc : list row * list Z)
    (json_file : string * outcome (gmap string json_value)) : list row * list Z :=
  let '(results, processed_ids) := acc in
  let file_id := before_underscore (fst json_file) in
  match int file_id with
  | Raises _ => acc
  | Returns id_num =>
      if bool_decide (51 ≤ id_num ≤ 251)%Z then
        match snd json_file with
        | Raises _ => acc
        | Returns json_content =>
            match extract_answer_from_json json_content with
            | Returns (Some answer) =>
                (results ++ [(file_id, answer)], processed_ids ++ [id_num])
            | Returns None | Raises _ => acc
            end
        end
      else acc
  end.

(** What a file adds to the table, said without the loop: its number
    and its row, when its name starts with a number from 51 to 251 and
    an answer can be extracted from it. *)
Definition row_of (json_file : string * outcome (gmap string json_value))
    : option (Z * row) :=
  let file_id := before_underscore (fst json_file) in
  match int file_id, snd json_file with
  | Returns id_num, Returns json_content =>
      if bool_decide (51 ≤ id_num ≤ 251)%Z then
        match extract_answer_from_json json_content with
        | Returns (Some answer) => Some (id_num, (file_id, answer))
        | Returns None | Raises _ => None
        end
      else None
  | _, _ => None
  end.

(** [results.sort(key=lambda x: int(x[0]))]: the keys are computed
    first, one per row, and an exception of [int] ends the sort; the
    sort is stable. *)
Fixpoint int_keys (results : list row) : outcome (list Z) :=
  match results with
  | [] => Returns []
  | r :: rest =>
      key ← int (fst r);
      keys ← int_keys rest;
      Returns (key :: keys)
  end.

Fixpoint insert_by_key (x : Z * row) (sorted : list (Z * row)) : list (Z * row) :=
  match sorted with
  | [] => [x]
  | y :: rest =>
      if decide (fst x ≤ fst y)%Z then x :: y :: rest
      else y :: insert_by_key x rest
  end.

Definition sort_by_int_id (results : list row) : outcome (list row) :=
  keys ← int_keys results;
  Returns (snd <$> foldr insert_by_key [] (zip keys results)).

(** [process_files]: the rows written to [all_answers.csv] under the
    header, and the identifiers of the warning about missing answers
    (none: no warning). *)
Definition process_files
    (json_files : list (string * outcome (gmap string json_value)))
    : outcome (list row * list Z) :=
  let '(results, processed_ids) := foldl process_file (x_rows, []) json_files in
  results ← sort_by_int_id results;
  let missing_ids := filter (λ id_num, id_num ∉ processed_ids) (seqZ 51 201) in
  Returns (results, missing_ids).

End Files.

End ExtractAnswers.

(** ** choose_majority.py *)

Module ChooseMajority.

(** A cell of the [answer] column as pandas gives it for a column of
    texts: a [str], or the float NaN for an empty cell. (A column
    with no text in it, which pandas reads as a column of numbers, is
    outside the model.) *)
Inductive cell : Type :=
  | Text (s : string)
  | NaN.

#[global] Instance cell_eq_dec : EqDecision cell.
Proof. solve_decision. Defined.

(** What reading one CSV file gives: an exception, a table without
    the two columns, or the [(id, answer)] pairs of its rows. The
    identifiers are the integers of the [id] column. *)
Inductive csv_file : Type :=
  | Unreadable
  | MissingColumns
  | Table (rows : list (Z * cell)).

(** A Python dict in insertion order. [upsert k f v0 d] is
    [d[k] = f(d[k]) if k in d else v0]: an existing key keeps its place,
    a new one goes to the end. *)
Fixpoint upsert {K V : Type} `{EqDecision K} (k : K) (f : V → V) (v0 : V)
    (d : list (K * V)) : list (K * V) :=
  match d with
  | [] => [(k, v0)]
  | (k', v) :: rest =>
      if decide (k' = k) then (k', f v) :: rest
      else (k', v) :: upsert k f v0 rest
  end.

(** [d.get(k)] *)
Fixpoint get {K V : Type} `{EqDecision K} (k : K) (d : list (K * V)) : option V :=
  match d with
  | [] => None
  | (k', v) :: rest => if decide (k' = k) then Some v else get k rest
  end.

(** [if id_num not in all_answers: all_answers[id_num] = []] followed by
    [all_answers[id_num].append(answer)]. *)
Definition add_answer (id_num : Z) (answer : cell)
    (all_answers : list (Z * list cell)) : list (Z * list cell) :=
  upsert id_num (λ answers, answers ++ [answer]) [answer] all_answers.

Definition read_file (all_answers : list (Z * list cell)) (file : csv_file)
    : list (Z * list cell) :=
  match file with
  | Table rows => foldl (λ d row, add_answer (fst row) (snd row) d) all_answers rows
  | Unreadable | MissingColumns => all_answers
  end.

(** [collections.Counter]: counts in order of first occurrence. The
    NaN of the empty cells is one object, so it is one key. *)
Definition count_one (answer : cell) (counter : list (cell * nat))
    : list (cell * nat) :=
  upsert answer (λ n, n + 1) 1 counter.

Definition Counter (answers : list cell) : list (cell * nat) :=
  foldl (λ c a, count_one a c) [] answers.

(** [max] and [min] of a sequence raise on an empty one. *)
Definition py_max (l : list nat) : outcome nat :=
  match l with
  | [] => Raises "max() arg is an empty sequence"
  | x :: l' => Returns (foldl (λ m y, if decide (m < y) then y else m) x l')
  end.

(** [y < m] on two cells: texts compare as strings, NaN is not less
    than NaN, and a text and NaN do not compare: [TypeError]. The
    message of that exception names the two types, [str] and [float],
    in the order of the operands; nothing catches or reads it, and the
    model keeps the class of the exception alone. *)
Definition not_comparable : string := "TypeError".

Definition lt (y m : cell) : outcome bool :=
  match y, m with
  | Text a, Text b => Returns (String.ltb a b)
  | NaN, NaN => Returns false
  | _, _ => Raises not_comparable
  end.

(** [min] keeps the first of the least items: each further item is
    compared with the least so far. *)
Fixpoint min_from (m : cell) (l : list cell) : outcome cell :=
  match l with
  | [] => Returns m
  | y :: l' =>
      less ← lt y m;
      min_from (if less : bool then y else m) l'
  end.

Definition py_min (l : list cell) : outcome cell :=
  match l with
  | [] => Raises "min() arg is an empty sequence"
  | x :: l' => min_from x l'
  end.

Definition majority_answer (answers : list cell) : outcome cell :=
  let counter := Counter answers in
  max_count ← py_max (snd <$> counter);
  let max_answers := fst <$> filter (λ p, snd p = max_count) counter in
  py_min max_answers.

(** The loop over [all_answers.items()]; an exception of [min] is not
    caught and ends the function. *)
Fixpoint majority_loop (all_answers : list (Z * list cell))
    : outcome (list (Z * cell)) :=
  match all_answers with
  | [] => Returns []
  | (id_num, answers) :: rest =>
      if bool_decide (answers = []) then majority_loop rest
      else
        majority_answer ← majority_answer answers;
        majority_results ← majority_loop rest;
        Returns ((id_num, majority_answer) :: majority_results)
  end.

Fixpoint insert_by_id (row : Z * cell) (sorted : list (Z * cell))
    : list (Z * cell) :=
  match sorted with
  | [] => [row]
  | r :: rest =>
      if decide (fst row ≤ fst r)%Z then row :: r :: rest
      else r :: insert_by_id row rest
  end.

(** [pd.DataFrame(majority_results).sort_values('id')]: a frame made
    from an empty list has no column [id]. The ids are the keys of a
    dict, so any sort gives the same table. *)
Definition sort_values_id (majority_results : list (Z * cell))
    : outcome (list (Z * cell)) :=
  match majority_results with
  | [] => Raises "'id'"
  | _ => Returns (foldr insert_by_id [] majority_results)
  end.

Definition find_majority_answers (csv_files : list csv_file)
    : outcome (list (Z * cell)) :=
  let all_answers := foldl read_file [] csv_files in
  majority_results ← majority_loop all_answers;
  sort_values_id majority_results.





(** The order of the answers: that of strings on the texts; NaN stands
    apart. *)
Definition le (a b : cell) : bool :=
  match a, b with
  | Text s, Text s' => String.leb s s'
  | NaN, NaN => true
  | _, _ => false
  end.



End ChooseMajority.

(** ** A small batch to run the scripts on *)

Module Demo.

Definition questions : list WorkItem :=
  [mkWorkItem "00001" "Q1"; mkWorkItem "00002" "Q2"].

(** Frames for ["00001"], none for ["00002"]. *)
Definition get_frame_paths (video_id : string) : list string :=
  if bool_decide (video_id = "00001")
  then ["extracted_frames/00001/frame_0001.jpg"; "extracted_frames/00001/frame_0002.jpg"]
  else [].

Definition encode_image (path : string) : outcome string :=
  Returns "/9j/4AAQSkZJRg==".

Definition create (i : nat) (req : OpenAI.request) : outcome OpenAI.completion :=
  Returns {| OpenAI.message_content := "The car turns left. <answer>B</answer>";
             OpenAI.finish_reason := "stop" |}.

(** A provider whose call for the first task fails. *)
Definition create_failing (i : nat) (req : OpenAI.request)
    : outcome OpenAI.completion :=
  if decide (i = 0) then Raises "Connection error." else create i req.

Definition generate_content (i : nat) (req : VertexAI.request)
    : outcome VertexAI.gen_response :=
  Returns {| VertexAI.text := Returns "<answer>C. Turn right</answer>" |}.

Definition generate_content_failing (i : nat) (req : VertexAI.request)
    : outcome VertexAI.gen_response :=
  if decide (i = 0) then Raises "503 Service Unavailable"
  else generate_content i req.

(** Six items, for the counter of [gemini_video.py]. *)
Definition six_questions : list WorkItem :=
  (λ n, mkWorkItem (pretty n) "Q") <$> seq 1 6.

(** Three answer tables and a file that cannot be read. Identifier 52
    comes first in the files; the answers for 53 tie. *)
Definition csv_files : list ChooseMajority.csv_file :=
  [ChooseMajority.Table [(52, ChooseMajority.Text "B"); (51, ChooseMajority.Text "A");
                         (53, ChooseMajority.Text "D")]%Z;
   ChooseMajority.Unreadable;
   ChooseMajority.Table [(51, ChooseMajority.Text "A"); (52, ChooseMajority.Text "C");
                         (53, ChooseMajority.Text "B")]%Z;
   ChooseMajority.Table [(52, ChooseMajority.Text "C"); (51, ChooseMajority.NaN)]%Z].


End Demo.

(** ** Sample files and tables for the further properties *)

Module DemoFiles.

(** Two model answers to extract a letter from; the second is empty. *)
Definition json_files : list string :=
  ["gemini_pro_answers/00051_result.json"; "gemini_pro_answers/00052_result.json"].

(** Every file can be opened and closed; the first holds an answer,
    the second an empty one. *)
Definition open_file (file_path mode : string) : outcome unit := Returns tt.

Definition read (file_path : string) : outcome string :=
  if bool_decide (file_path = "gemini_pro_answers/00051_result.json")
  then Returns "text of 00051" else Returns "text of 00052".

Definition close (file_path : string) : outcome unit := Returns tt.

Definition answer_of (content : string) : outcome string :=
  if bool_decide (content = "text of 00051")
  then Returns "The lane turns left, so the answer is B."
  else Returns "".

Definition post (i : nat) (p : ExtractLetter.payload)
    : outcome ExtractLetter.http_response :=
  Returns {| ExtractLetter.status := 200;
             ExtractLetter.body_text := Returns "{}";
             ExtractLetter.body_answer := Returns "<answer>B</answer>" |}.

Definition video_id_of (file_path : string) : string :=
  if bool_decide (file_path = "gemini_pro_answers/00051_result.json")
  then "00051_result" else "00052_result".

Definition makedirs (output_dir : string) : outcome unit := Returns tt.

Definition write (output_path : string) (data : pydict) : outcome unit :=
  Returns tt.

(** [int] on the plain decimal numerals, all that the samples need. *)
Fixpoint digits_value (s : string) (acc : Z) : option Z :=
  match s with
  | EmptyString => Some acc
  | String c rest =>
      let d := Z.of_N (N_of_ascii c) in
      if bool_decide (48 ≤ d ≤ 57)%Z then digits_value rest (10 * acc + (d - 48))
      else None
  end.

Definition int (s : string) : outcome Z :=
  match s with
  | EmptyString => Raises "invalid literal for int() with base 10"
  | _ =>
      match digits_value s 0 with
      | Some n => Returns n
      | None => Raises "invalid literal for int() with base 10"
      end
  end.

(** A folder of answers: one out of the range, one with a bare letter,
    one that cannot be parsed, one without a tag, one whose answer is
    [null], one with a letter and more, and one whose name has no
    number. *)
Definition answer_files
    : list (string * outcome (gmap string ExtractAnswers.json_value)) :=
  [("00007_result.json",
    Returns {[ "answer" := ExtractAnswers.JString
                             (ExtractAnswers.code_points "<answer>A</answer>") ]});
   ("00051_result.json",
    Returns {[ "answer" := ExtractAnswers.JString
                             (ExtractAnswers.code_points "<answer>B</answer>") ]});
   ("00052_result.json", Raises "Expecting value");
   ("00053_result.json",
    Returns {[ "answer" := ExtractAnswers.JString
                             (ExtractAnswers.code_points "no tag here") ]});
   ("00054_result.json", Returns {[ "answer" := ExtractAnswers.JNull ]});
   ("00060_result.json",
    Returns {[ "answer" := ExtractAnswers.JString
                             (ExtractAnswers.code_points
                                "so <answer>C. 27</answer>") ]});
   ("notes_result.json",
    Returns {[ "answer" := ExtractAnswers.JString
                             (ExtractAnswers.code_points "<answer>D</answer>") ]})].

End DemoFiles.


(* ===================================================================== *)
(** * Part II: properties                                                 *)
(* ===================================================================== *)

(** Closes [is_Some (f x)] and other decidable facts about closed terms by
    evaluation. *)
Ltac evaluates :=
  match goal with |- ?P => apply (@bool_decide_unpack P _) end;
  vm_compute; exact I.

(** ** Lists updated in place *)

Lemma insert_split {A} (l : list A) (i : nat) (x y : A) :
  l !! i = Some x →
  ∃ l1 l2, l = l1 ++ x :: l2 ∧ <[i := y]> l = l1 ++ y :: l2 ∧ length l1 = i.
Proof.
  intros Hi. exists (take i l), (drop (S i) l).
  pose proof (lookup_lt_Some _ _ _ Hi) as Hlt.
  split_and!.
  - by rewrite take_drop_middle.
  - by apply insert_take_drop.
  - rewrite length_take. lia.
Qed.

(** ** The event loop *)

Module AsyncioFacts.
Import Asyncio.

Section Loop.
Context {Item Ev Res : Type} (fn : async_fn Item Ev Res).
Implicit Types (st : loop fn) (t : task fn) (i n : nat).

Lemma run_app sched1 sched2 st :
  run fn (sched1 ++ sched2) st = st' ← run fn sched1 st; run fn sched2 st'.
Proof.
  revert st. induction sched1 as [|i sched1 IH]; intros st; simpl; [done|].
  destruct (step_task fn i st); simpl; auto.
Qed.

(** Induction principle for everything the loop can reach. *)
Lemma run_invariant (P : loop fn → Prop) st0 :
  P st0 →
  (∀ i st st', P st → step_task fn i st = Some st' → P st') →
  ∀ sched st, run fn sched st0 = Some st → P st.
Proof.
  intros H0 Hstep sched. revert st0 H0.
  induction sched as [|i sched IH]; intros st0 H0 st Hrun; simpl in Hrun.
  - by simplify_eq.
  - destruct (step_task fn i st0) as [st1|] eqn:E; simpl in Hrun; [|done].
    eapply IH; [|done]. eauto.
Qed.

(** Case analysis of one turn of the loop. *)
Lemma step_task_cases i st st' :
  step_task fn i st = Some st' →
  (∃ q a evs s, tasks st !! i = Some (Waiting q) ∧ 0 < sem_value st ∧
      start fn i q (attrs st) = (a, evs, s) ∧
      st' = settle fn i (sem_value st - 1) st (a, (i, Acquired) :: tag i evs, s)) ∨
  (∃ f a evs s, tasks st !! i = Some (Holding f) ∧
      resume fn i f (attrs st) = (a, evs, s) ∧
      st' = settle fn i (sem_value st) st (a, tag i evs, s)).
Proof.
  unfold step_task. intros H.
  destruct (tasks st !! i) as [[q|f|r]|] eqn:Hi; try done.
  - case_decide; [|done].
    destruct (start fn i q (attrs st)) as [[a evs] s] eqn:Hs.
    left. exists q, a, evs, s. by simplify_eq.
  - destruct (resume fn i f (attrs st)) as [[a evs] s] eqn:Hs.
    right. exists f, a, evs, s. by simplify_eq.
Qed.

Lemma settle_tasks_length i v st out :
  length (tasks (settle fn i v st out)) = length (tasks st).
Proof. destruct out as [[a evs] [f|r]]; simpl; by rewrite length_insert. Qed.

Lemma step_task_length i st st' :
  step_task fn i st = Some st' → length (tasks st') = length (tasks st).
Proof.
  intros [(?&?&?&?&?&?&?&->)|(?&?&?&?&?&?&->)]%step_task_cases;
    apply settle_tasks_length.
Qed.

Lemma run_length n qs sched st :
  run fn sched (init fn n qs) = Some st → length (tasks st) = length qs.
Proof.
  intros Hrun.
  eapply (run_invariant (λ st, length (tasks st) = length qs)); [| |exact Hrun].
  - simpl. by rewrite length_fmap.
  - intros i st1 st2 <- Hs. by eapply step_task_length.
Qed.

(** *** The semaphore counts the tasks inside the block *)

Lemma holding_insert (l : list (task fn)) i t t' :
  l !! i = Some t →
  length (filter (λ t, is_holding fn t = true) (<[i := t']> l))
    + (if is_holding fn t then 1 else 0)
  = length (filter (λ t, is_holding fn t = true) l)
    + (if is_holding fn t' then 1 else 0).
Proof.
  intros (l1 & l2 & -> & -> & _)%(insert_split _ _ _ t').
  rewrite !filter_app, !filter_cons, !length_app.
  destruct t, t'; simpl; repeat case_decide; simpl; try done; lia.
Qed.

Lemma settle_permits i v st out t :
  tasks st !! i = Some t →
  sem_value (settle fn i v st out) + in_flight fn (settle fn i v st out)
    + (if is_holding fn t then 1 else 0)
  = v + 1 + in_flight fn st.
Proof.
  intros Hi. unfold in_flight.
  destruct out as [[a evs] [f|r]]; simpl.
  - pose proof (holding_insert _ _ _ (Holding f) Hi) as H. simpl in H. lia.
  - pose proof (holding_insert _ _ _ (Done r) Hi) as H. simpl in H. lia.
Qed.

Lemma step_task_permits i st st' :
  step_task fn i st = Some st' →
  sem_value st' + in_flight fn st' = sem_value st + in_flight fn st.
Proof.
  intros [(q&a&evs&s&Hi&Hpos&_&->)|(f&a&evs&s&Hi&_&->)]%step_task_cases.
  - pose proof (settle_permits i (sem_value st - 1) st
      (a, (i, Acquired) :: tag i evs, s) _ Hi) as H.
    cbn [is_holding] in H. lia.
  - pose proof (settle_permits i (sem_value st) st (a, tag i evs, s) _ Hi) as H.
    cbn [is_holding] in H. lia.
Qed.

Lemma in_flight_init n qs : in_flight fn (init fn n qs) = 0.
Proof.
  unfold in_flight. simpl. induction qs as [|q qs IH]; [done|].
  rewrite fmap_cons, filter_cons. by case_decide.
Qed.

Lemma run_permits n qs sched st :
  run fn sched (init fn n qs) = Some st →
  sem_value st + in_flight fn st = n.
Proof.
  intros Hrun.
  eapply (run_invariant (λ st, sem_value st + in_flight fn st = n)); [| |exact Hrun].
  - rewrite in_flight_init. simpl. lia.
  - intros i st1 st2 <- Hs. by eapply step_task_permits.
Qed.

Lemma holding_in_flight st i f :
  tasks st !! i = Some (Holding f) → 0 < in_flight fn st.
Proof.
  intros Hi. unfold in_flight.
  assert (Holding f ∈ filter (λ t, is_holding fn t = true) (tasks st)) as Hin.
  { apply list_elem_of_filter. split; [done|]. by eapply list_elem_of_lookup_2. }
  destruct (filter _ (tasks st)); [by apply elem_of_nil in Hin|simpl; lia].
Qed.

(** *** Results in the order of the arguments *)

Lemma mapM_None_lookup {A B} (f : A → option B) (l : list A) :
  mapM f l = None → ∃ i x, l !! i = Some x ∧ f x = None.
Proof.
  induction l as [|x l IH]; simpl; [done|].
  destruct (f x) as [y|] eqn:Hx; simpl.
  - destruct (mapM f l) as [k|] eqn:Hl; simpl; [done|].
    intros _. destruct IH as (i & x' & ? & ?); [done|].
    by exists (S i), x'.
  - intros _. by exists 0, x.
Qed.

Lemma gather_Some st rs :
  gather fn st = Some rs ↔ tasks st = Done <$> rs.
Proof.
  unfold gather. rewrite mapM_Some. generalize (tasks st). intros l. split.
  - induction 1 as [|t r l k Ht _ IH]; [done|].
    destruct t; simplify_eq/=. done.
  - intros ->. induction rs; constructor; done.
Qed.

Lemma gather_length n qs sched st rs :
  run fn sched (init fn n qs) = Some st →
  gather fn st = Some rs → length rs = length qs.
Proof.
  intros Hrun Hg%gather_Some.
  apply run_length in Hrun. rewrite Hg, length_fmap in Hrun. done.
Qed.

(** *** No deadlock *)

Lemma step_task_enabled n st :
  0 < n → sem_value st + in_flight fn st = n →
  gather fn st = None → ∃ i st', step_task fn i st = Some st'.
Proof.
  intros Hn Hinv Hg.
  destruct (decide (in_flight fn st = 0)) as [Hz|Hnz].
  - apply mapM_None_lookup in Hg as (i & t & Hi & Ht).
    exists i. unfold step_task. rewrite Hi.
    destruct t as [q|f|r]; [| |done].
    + rewrite decide_True by lia.
      destruct (start fn i q (attrs st)) as [[a evs] s]. eauto.
    + apply holding_in_flight in Hi. lia.
  - unfold in_flight in Hnz.
    destruct (filter _ (tasks st)) as [|t l] eqn:Hf; [done|].
    assert (t ∈ filter (λ t, is_holding fn t = true) (tasks st)) as Hin
      by (rewrite Hf; left).
    apply list_elem_of_filter in Hin as [Hh Hin].
    apply list_elem_of_lookup in Hin as [i Hi].
    exists i. unfold step_task. rewrite Hi.
    destruct t as [q|f|r]; try done.
    destruct (resume fn i f (attrs st)) as [[a evs] s]. eauto.
Qed.

(** *** Every run is finite *)

Section Termination.
Variable b : nat.
Hypothesis start_bound : ∀ i q a a' evs f,
  start fn i q a = (a', evs, Suspended f) → awaits_left fn f ≤ b.
Hypothesis resume_bound : ∀ i f a a' evs f',
  resume fn i f a = (a', evs, Suspended f') →
  awaits_left fn f' < awaits_left fn f.

Lemma weight_insert (l : list (task fn)) i t t' :
  l !! i = Some t →
  sum_list_with (weight fn b) (<[i := t']> l) + weight fn b t
  = sum_list_with (weight fn b) l + weight fn b t'.
Proof.
  intros (l1 & l2 & -> & -> & _)%(insert_split _ _ _ t').
  rewrite !sum_list_with_app. simpl. lia.
Qed.

Lemma step_task_remaining i st st' :
  step_task fn i st = Some st' → remaining fn b st' < remaining fn b st.
Proof using start_bound resume_bound.
  unfold remaining.
  intros [(q&a&evs&[f'|r]&Hi&_&Hs&->)|(f&a&evs&[f'|r]&Hi&Hs&->)]%step_task_cases;
    simpl.
  - pose proof (weight_insert _ _ _ (Holding f') Hi) as H.
    apply start_bound in Hs. simpl in H. lia.
  - pose proof (weight_insert _ _ _ (Done r) Hi) as H. simpl in H. lia.
  - pose proof (weight_insert _ _ _ (Holding f') Hi) as H.
    apply resume_bound in Hs. simpl in H. lia.
  - pose proof (weight_insert _ _ _ (Done r) Hi) as H. simpl in H. lia.
Qed.

Lemma run_remaining sched st st' :
  run fn sched st = Some st' →
  length sched + remaining fn b st' ≤ remaining fn b st.
Proof using start_bound resume_bound.
  revert st. induction sched as [|i sched IH]; intros st Hrun; simpl in *.
  - simplify_eq. lia.
  - destruct (step_task fn i st) as [st1|] eqn:E; simpl in Hrun; [|done].
    apply step_task_remaining in E. apply IH in Hrun. lia.
Qed.

Lemma remaining_init n qs :
  remaining fn b (init fn n qs) = (b + 2) * length qs.
Proof.
  unfold remaining. simpl. induction qs as [|q qs IH]; [simpl; lia|].
  rewrite fmap_cons. cbn [sum_list_with weight length]. rewrite IH. lia.
Qed.

(** A run from the start of the batch takes at most [b + 2] turns
    per item. *)
Lemma run_bounded n qs sched st :
  run fn sched (init fn n qs) = Some st →
  length sched ≤ (b + 2) * length qs.
Proof using start_bound resume_bound.
  intros H%run_remaining. rewrite remaining_init in H. lia.
Qed.

(** With at least one permit the batch can always be driven to the
    point where [gather] resolves. *)
Lemma run_completes n st :
  0 < n → sem_value st + in_flight fn st = n →
  ∃ sched st' rs, run fn sched st = Some st' ∧ gather fn st' = Some rs.
Proof using start_bound resume_bound.
  intros Hn. remember (remaining fn b st) as m eqn:Hm.
  revert st Hm. induction (lt_wf m) as [m _ IH]. intros st -> Hinv.
  destruct (gather fn st) as [rs|] eqn:Hg.
  - by exists [], st, rs.
  - destruct (step_task_enabled n st Hn Hinv Hg) as (i & st1 & Hs).
    destruct (IH (remaining fn b st1)) with (st := st1)
      as (sched & st' & rs & Hrun & Hrs).
    + by eapply step_task_remaining.
    + done.
    + apply step_task_permits in Hs. lia.
    + exists (i :: sched), st', rs. simpl. rewrite Hs. done.
Qed.

End Termination.

(** *** The trace of one turn *)

Lemma lookup_slice_elem_of k i j (acq : bool) (evs : list Ev) (rel : bool) e :
  slice i acq evs rel !! k = Some (j, Did e) → j = i ∧ e ∈ evs.
Proof.
  unfold slice. intros H.
  apply lookup_app_Some in H as [H|[Hk H]].
  { destruct acq; [|by rewrite lookup_nil in H].
    destruct k; simplify_eq/=. }
  apply lookup_app_Some in H as [H|[Hk' H]].
  - unfold tag in H. rewrite list_lookup_fmap in H.
    destruct (evs !! (k - _)) as [e'|] eqn:He; simplify_eq/=.
    split; [done|]. by eapply list_elem_of_lookup_2.
  - destruct rel; [|by rewrite lookup_nil in H].
    destruct (k - _ - _); simplify_eq/=.
Qed.

(** What one turn of task [i] appends to the trace. *)
Lemma step_task_trace i st st' :
  step_task fn i st = Some st' →
  ∃ acq evs rel, trace st' = trace st ++ slice i acq evs rel ∧
    ((∃ q a' s, tasks st !! i = Some (Waiting q) ∧
                start fn i q (attrs st) = (a', evs, s)) ∨
     (∃ f a' s, tasks st !! i = Some (Holding f) ∧
                resume fn i f (attrs st) = (a', evs, s))).
Proof.
  intros [(q&a&evs&[f'|r]&Hi&_&Hs&->)|(f&a&evs&[f'|r]&Hi&Hs&->)]%step_task_cases;
    simpl.
  - exists true, evs, false. split; [|left; eauto].
    unfold slice. simpl. by rewrite app_nil_r.
  - exists true, evs, true. split; [done|left; eauto].
  - exists false, evs, false. split; [|right; eauto].
    unfold slice. simpl. by rewrite app_nil_r.
  - exists false, evs, true. split; [done|right; eauto].
Qed.

(** *** Each task computes the result of its own item *)

Section Results.
Variable expected : nat → Item → Res.
Variable frame_ok : nat → Item → frame fn → Prop.
Hypothesis start_returned : ∀ i q a a' evs r,
  start fn i q a = (a', evs, Returned r) → r = expected i q.
Hypothesis start_suspended : ∀ i q a a' evs f,
  start fn i q a = (a', evs, Suspended f) → frame_ok i q f.
Hypothesis resume_returned : ∀ i q f a a' evs r,
  frame_ok i q f → resume fn i f a = (a', evs, Returned r) → r = expected i q.
Hypothesis resume_suspended : ∀ i q f a a' evs f',
  frame_ok i q f → resume fn i f a = (a', evs, Suspended f') → frame_ok i q f'.

Local Abbreviation task_ok := (Asyncio.task_ok fn expected frame_ok).
Local Abbreviation tasks_ok := (Asyncio.tasks_ok fn expected frame_ok).

Lemma tasks_ok_init n qs : tasks_ok qs (init fn n qs).
Proof.
  intros i q Hq. exists (Waiting q). simpl.
  by rewrite list_lookup_fmap, Hq.
Qed.

Lemma tasks_ok_insert qs st i t' l' v a tr :
  tasks_ok qs st →
  (∀ q, qs !! i = Some q → task_ok i q t') →
  l' = <[i := t']> (tasks st) →
  tasks_ok qs {| sem_value := v; attrs := a; tasks := l'; trace := tr |}.
Proof.
  intros Hok Ht -> j q Hq. simpl.
  destruct (Hok j q Hq) as (t & Hj & Htj).
  destruct (decide (i = j)) as [->|Hne].
  - exists t'. split; [|by apply Ht].
    apply list_lookup_insert_eq. by eapply lookup_lt_Some.
  - exists t. by rewrite list_lookup_insert_ne.
Qed.

Lemma tasks_ok_step qs i st st' :
  tasks_ok qs st → step_task fn i st = Some st' → tasks_ok qs st'.
Proof using start_returned start_suspended resume_returned resume_suspended.
  intros Hok
    [(q&a&evs&[f'|r]&Hi&_&Hs&->)|(f&a&evs&[f'|r]&Hi&Hs&->)]%step_task_cases;
    simpl; (eapply tasks_ok_insert; [exact Hok| |reflexivity]);
    intros q' Hq'; destruct (Hok i q' Hq') as (t & Hi' & Ht);
    rewrite Hi in Hi'; simplify_eq; simpl in *; subst; eauto.
Qed.

Lemma run_tasks_ok n qs sched st :
  run fn sched (init fn n qs) = Some st → tasks_ok qs st.
Proof using start_returned start_suspended resume_returned resume_suspended.
  intros Hrun. eapply (run_invariant (tasks_ok qs)); [| |exact Hrun].
  - apply tasks_ok_init.
  - intros. by eapply tasks_ok_step.
Qed.

(** When [gather] resolves, its value is the list of the expected
    results, item by item, in the order of the batch. *)
Lemma gather_expected n qs sched st rs :
  run fn sched (init fn n qs) = Some st →
  gather fn st = Some rs → rs = imap expected qs.
Proof using start_returned start_suspended resume_returned resume_suspended.
  intros Hrun Hg.
  pose proof (gather_length _ _ _ _ _ Hrun Hg) as Hlen.
  pose proof (run_tasks_ok _ _ _ _ Hrun) as Hok.
  apply gather_Some in Hg.
  apply list_eq. intros i. rewrite list_lookup_imap.
  destruct (qs !! i) as [q|] eqn:Hq; simpl.
  - destruct (Hok i q Hq) as (t & Hi & Ht).
    rewrite Hg, list_lookup_fmap in Hi.
    destruct (rs !! i) as [r|]; simplify_eq/=. done.
  - apply lookup_ge_None. apply lookup_ge_None in Hq. lia.
Qed.

(** Every effect in the trace was performed for the item of its
    task, and is one that item allows. *)
Section Events.
Variable ev_ok : nat → Item → Ev → Prop.
Hypothesis start_events : ∀ i q a a' evs s,
  start fn i q a = (a', evs, s) → Forall (ev_ok i q) evs.
Hypothesis resume_events : ∀ i q f a a' evs s,
  frame_ok i q f → resume fn i f a = (a', evs, s) → Forall (ev_ok i q) evs.

Lemma run_events_ok n qs sched st :
  run fn sched (init fn n qs) = Some st →
  ∀ k i e, trace st !! k = Some (i, Did e) →
           ∃ q, qs !! i = Some q ∧ ev_ok i q e.
Proof using start_returned start_suspended resume_returned
  resume_suspended start_events resume_events.
  intros Hrun.
  eapply (run_invariant (λ st,
            length (tasks st) = length qs ∧ tasks_ok qs st ∧
            ∀ k i e, trace st !! k = Some (i, Did e) →
                     ∃ q, qs !! i = Some q ∧ ev_ok i q e));
    [| |exact Hrun].
  - split_and!.
    + simpl. by rewrite length_fmap.
    + apply tasks_ok_init.
    + intros k i e. simpl. by rewrite lookup_nil.
  - intros i st1 st2 (Hlen & Hok & Hev) Hs. split_and!.
    + erewrite step_task_length by done. done.
    + by eapply tasks_ok_step.
    + intros k j e Hk.
      destruct (step_task_trace _ _ _ Hs) as (acq & evs & rel & Htr & Hwho).
      rewrite Htr in Hk.
      apply lookup_app_Some in Hk as [Hk|[_ Hk]]; [by eapply Hev|].
      apply lookup_slice_elem_of in Hk as [-> He].
      assert (is_Some (qs !! i)) as [q Hq].
      { apply lookup_lt_is_Some. rewrite <- Hlen.
        destruct Hwho as [(?&?&?&Hi&_)|(?&?&?&Hi&_)];
          by eapply lookup_lt_Some. }
      exists q. split; [done|].
      destruct (Hok i q Hq) as (t & Hi & Ht).
      destruct Hwho as [(q'&a'&s&Hi'&Hstart)|(f&a'&s&Hi'&Hres)];
        rewrite Hi in Hi'; simplify_eq; simpl in Ht.
      * subst. apply start_events in Hstart.
        rewrite Forall_forall in Hstart. by apply Hstart.
      * eapply resume_events in Hres; [|done].
        rewrite Forall_forall in Hres. by apply Hres.
Qed.

End Events.

End Results.

(** *** Permits along the trace *)

Lemma permits_app i (tr1 tr2 : list (nat * sched_event Ev)) :
  permits i (tr1 ++ tr2) = (permits i tr1 + permits i tr2)%Z.
Proof.
  induction tr1 as [|[j e] tr1 IH]; simpl; [done|]. rewrite IH. lia.
Qed.

Lemma permits_tag i j (evs : list Ev) : permits i (tag j evs) = 0%Z.
Proof.
  induction evs as [|e evs IH]; simpl; [done|].
  rewrite IH. by case_decide.
Qed.

Lemma lookup_tag_did k i j (evs : list Ev) e :
  tag i evs !! k = Some (j, e) → j = i ∧ permits j (take k (tag i evs)) = 0%Z.
Proof.
  unfold tag. rewrite list_lookup_fmap. intros H.
  destruct (evs !! k); simplify_eq/=. split; [done|].
  rewrite <- fmap_take. apply permits_tag.
Qed.

Lemma trace_ok_init n qs : trace_ok (init fn n qs).
Proof.
  split.
  - intros i. unfold holds. simpl. rewrite list_lookup_fmap.
    by destruct (qs !! i).
  - intros k i e. simpl. by rewrite lookup_nil.
Qed.

Lemma holds_insert st i j t t' v a tr :
  tasks st !! i = Some t →
  holds {| sem_value := v; attrs := a; tasks := <[i := t']> (tasks st); trace := tr |} j
  = if decide (i = j) then (if is_holding fn t' then 1 else 0)%Z else holds st j.
Proof.
  intros Hi. unfold holds. simpl. case_decide as Hij.
  - subst j. rewrite list_lookup_insert_eq by (by eapply lookup_lt_Some).
    by destruct t'.
  - by rewrite list_lookup_insert_ne.
Qed.

Lemma permits_slice i j (acq : bool) (evs : list Ev) (rel : bool) :
  permits j (slice i acq evs rel)
  = if decide (j = i)
    then ((if acq then 1 else 0) - (if rel then 1 else 0))%Z
    else 0%Z.
Proof.
  unfold slice. rewrite !permits_app, permits_tag.
  destruct acq, rel; simpl; case_decide; lia.
Qed.

Lemma lookup_slice_did k i j (acq : bool) (evs : list Ev) (rel : bool) e :
  slice i acq evs rel !! k = Some (j, Did e) →
  j = i ∧ permits j (take k (slice i acq evs rel)) = (if acq then 1 else 0)%Z.
Proof.
  unfold slice. intros H.
  apply lookup_app_Some in H as [H|[Hk H]].
  { destruct acq; [|by rewrite lookup_nil in H].
    destruct k; simplify_eq/=. }
  apply lookup_app_Some in H as [H|[Hk' H]].
  - pose proof (lookup_lt_Some _ _ _ H) as Hlt.
    apply lookup_tag_did in H as [-> H].
    split; [done|].
    rewrite take_app_ge by done. rewrite permits_app.
    rewrite take_app_le by lia.
    rewrite H. destruct acq; simpl; [|done]. by rewrite decide_True.
  - destruct rel; [|by rewrite lookup_nil in H].
    destruct (k - _ - _); simplify_eq/=.
Qed.

Lemma trace_ok_slice st i t t' v a (acq : bool) (evs : list Ev) (rel : bool) :
  trace_ok st →
  tasks st !! i = Some t →
  ((if is_holding fn t then 1 else 0) + (if acq then 1 else 0)
     - (if rel then 1 else 0) = if is_holding fn t' then 1 else 0)%Z →
  ((if is_holding fn t then 1 else 0) + (if acq then 1 else 0) = 1)%Z →
  trace_ok {| sem_value := v; attrs := a; tasks := <[i := t']> (tasks st);
              trace := trace st ++ slice i acq evs rel |}.
Proof.
  intros [Hp Hc] Hi Hbal Hacq.
  assert (holds st i = if is_holding fn t then 1 else 0)%Z as Hhi.
  { unfold holds. rewrite Hi. by destruct t. }
  split.
  - intros j. rewrite (holds_insert _ _ _ t) by done. simpl.
    rewrite permits_app, permits_slice, Hp.
    destruct (decide (i = j)) as [->|Hne].
    + rewrite decide_True by done. lia.
    + rewrite decide_False by done. lia.
  - intros k j e. simpl. intros H.
    apply lookup_app_Some in H as [H|[Hk H]].
    + rewrite take_app_le by (apply lookup_lt_Some in H; lia). by eapply Hc.
    + apply lookup_slice_did in H as [-> H].
      rewrite take_app_ge by done. rewrite permits_app, H, Hp. lia.
Qed.

Lemma trace_ok_step i st st' :
  trace_ok st → step_task fn i st = Some st' → trace_ok st'.
Proof.
  intros Hok
    [(q&a&evs&[f'|r]&Hi&_&Hs&->)|(f&a&evs&[f'|r]&Hi&Hs&->)]%step_task_cases;
    simpl.
  - replace ((i, Acquired) :: tag i evs) with (slice i true evs false)
      by (unfold slice; simpl; by rewrite app_nil_r).
    by eapply trace_ok_slice.
  - by eapply (trace_ok_slice _ _ _ _ _ _ true evs true).
  - replace (tag i evs) with (slice i false evs false)
      by (unfold slice; simpl; by rewrite app_nil_r).
    by eapply trace_ok_slice.
  - by eapply (trace_ok_slice _ _ _ _ _ _ false evs true).
Qed.

Lemma run_trace_ok n qs sched st :
  run fn sched (init fn n qs) = Some st → trace_ok st.
Proof.
  intros Hrun. eapply (run_invariant trace_ok); [| |exact Hrun].
  - apply trace_ok_init.
  - intros. by eapply trace_ok_step.
Qed.

(** Once [gather] has resolved no permit is out. *)
Lemma gather_in_flight st rs : gather fn st = Some rs → in_flight fn st = 0.
Proof.
  intros Hg%gather_Some. unfold in_flight. rewrite Hg. clear Hg.
  induction rs as [|r rs IH]; [done|].
  rewrite fmap_cons, filter_cons. by case_decide.
Qed.

(** *** The two properties of a dispatcher *)

Lemma permit_discipline_holds n qs : permit_discipline fn n qs.
Proof.
  intros sched st Hrun.
  destruct (run_trace_ok _ _ _ _ Hrun) as [Hp Hc].
  pose proof (run_permits _ _ _ _ Hrun) as Hsem.
  split_and!; [done..|].
  intros rs Hg. pose proof (gather_in_flight _ _ Hg) as Hz.
  split; [lia|]. intros i. rewrite Hp. unfold holds.
  apply gather_Some in Hg. rewrite Hg, list_lookup_fmap.
  by destruct (rs !! i).
Qed.

Lemma returns_one_result_per_item_holds
    (belongs : Item → Res → Prop) (b : nat)
    (expected : nat → Item → Res) (frame_ok : nat → Item → frame fn → Prop)
    n qs :
  (∀ i q a a' evs f, start fn i q a = (a', evs, Suspended f) →
                     awaits_left fn f ≤ b) →
  (∀ i f a a' evs f', resume fn i f a = (a', evs, Suspended f') →
                      awaits_left fn f' < awaits_left fn f) →
  (∀ i q a a' evs r, start fn i q a = (a', evs, Returned r) → r = expected i q) →
  (∀ i q a a' evs f, start fn i q a = (a', evs, Suspended f) → frame_ok i q f) →
  (∀ i q f a a' evs r, frame_ok i q f →
      resume fn i f a = (a', evs, Returned r) → r = expected i q) →
  (∀ i q f a a' evs f', frame_ok i q f →
      resume fn i f a = (a', evs, Suspended f') → frame_ok i q f') →
  (∀ i q, belongs q (expected i q)) →
  0 < n →
  returns_one_result_per_item fn belongs (b + 2) n qs.
Proof.
  intros Hsb Hrb Hsr Hss Hrr Hrs Hbel Hn. split.
  - intros sched st Hrun. split.
    + by eapply run_bounded.
    + eapply (run_completes b Hsb Hrb n); [done|]. by eapply run_permits.
  - intros sched st rs Hrun Hg. split; [by eapply gather_length|].
    intros i q Hq.
    rewrite (gather_expected expected frame_ok Hsr Hss Hrr Hrs _ _ _ _ _ Hrun Hg).
    exists (expected i q). rewrite list_lookup_imap, Hq. done.
Qed.

(** The same, said of the value of a batch, [run] followed by
    [gather]: every run can be carried on until the batch returns,
    and what the batch returns has one result per item. *)
Lemma returns_one_result_per_item_batch
    (belongs : Item → Res → Prop) turns n qs :
  returns_one_result_per_item fn belongs turns n qs →
  (∀ sched st, run fn sched (init fn n qs) = Some st →
     length sched ≤ turns * length qs ∧
     ∃ sched' rs,
       (st' ← run fn (sched ++ sched') (init fn n qs); gather fn st') = Some rs) ∧
  (∀ sched rs,
     (st ← run fn sched (init fn n qs); gather fn st) = Some rs →
     length rs = length qs ∧
     ∀ i q, qs !! i = Some q → ∃ r, rs !! i = Some r ∧ belongs q r).
Proof.
  intros [Hgo Hres]. split.
  - intros sched st Hrun. destruct (Hgo sched st Hrun) as [Hlen Hmore].
    split; [done|]. destruct Hmore as (sched' & st' & rs & Hrun' & Hg).
    exists sched', rs. rewrite run_app, Hrun. simpl. by rewrite Hrun'.
  - intros sched rs Hb.
    destruct (run fn sched (init fn n qs)) as [st|] eqn:Hrun; [|done].
    simpl in Hb. by eapply Hres.
Qed.

End Loop.
End AsyncioFacts.

(** ** 8_frames_testing/inference4o_8frames.py *)

Module Inference4o8FramesFacts.
Import Asyncio AsyncioFacts OpenAI Inference4o8Frames.

Section Processor.
Variable get_frame_paths : string → list string.
Variable encode_image : string → outcome string.
Variable create : nat → request → outcome completion.

Local Abbreviation fn := (process_question_fn get_frame_paths encode_image create).
Local Abbreviation build := (build_request get_frame_paths encode_image).
(** The result the task at position [i] computes for its item. *)
Local Abbreviation expected := (λ (i : nat) (q : WorkItem),
  snd (process_question get_frame_paths encode_image create i (id q) (question q))).
Local Abbreviation frame_ok := (λ (i : nat) (q : WorkItem) (f : string * request),
  build (id q) (question q) = Returns (snd f) ∧ fst f = id q).

Lemma frames8_start_returned i q a a' evs r :
  start fn i q a = (a', evs, Returned r) → r = expected i q.
Proof.
  unfold process_question. simpl. unfold start_question. simpl.
  destruct (build (id q) (question q)); intros; by simplify_eq.
Qed.

Lemma frames8_start_suspended i q a a' evs f :
  start fn i q a = (a', evs, Suspended f) → frame_ok i q f.
Proof.
  simpl. unfold start_question.
  destruct (build (id q) (question q)) eqn:E; intros; by simplify_eq.
Qed.

Lemma frames8_resume_returned i q f a a' evs r :
  frame_ok i q f → resume fn i f a = (a', evs, Returned r) → r = expected i q.
Proof.
  intros [Hb Hid]. simpl. unfold resume_question. intros ?; simplify_eq.
  unfold process_question, start_question. simpl. rewrite Hb.
  simpl. destruct f as [v req]; simpl in *. by subst.
Qed.

Lemma frames8_resume_never_suspends i f a a' evs f' :
  resume fn i f a = (a', evs, Suspended f') → False.
Proof. simpl. unfold resume_question. intros; simplify_eq. Qed.

Lemma frames8_result_video_id i video_id question :
  snd (process_question get_frame_paths encode_image create i video_id question)
    !! "video_id" = Some video_id.
Proof.
  unfold process_question, start_question. simpl.
  destruct (build video_id question); simpl.
  - unfold finish_question. simpl. destruct (create i a); done.
  - done.
Qed.

Lemma frames8_returns_all n qs :
  0 < n →
  returns_one_result_per_item fn (λ q r, r !! "video_id" = Some (id q)) 2 n qs.
Proof.
  intros Hn.
  apply (returns_one_result_per_item_holds fn _ 0 expected frame_ok).
  - intros. simpl. lia.
  - intros * H. by apply frames8_resume_never_suspends in H.
  - apply frames8_start_returned.
  - apply frames8_start_suspended.
  - apply frames8_resume_returned.
  - intros * _ H. by apply frames8_resume_never_suspends in H.
  - intros i q. apply frames8_result_video_id.
  - done.
Qed.

(** A remote call in the trace of a batch was made for an item whose
    request could be built, and with that request. *)
Lemma frames8_calls_in_trace n qs sched st k i e :
  run fn sched (init fn n qs) = Some st →
  trace st !! k = Some (i, Did e) →
  ∃ q req, qs !! i = Some q ∧ e = RemoteCall req ∧
           build (id q) (question q) = Returns req.
Proof.
  intros Hrun Hk.
  pose (ev_ok := λ (i : nat) (q : WorkItem) (e : io_event),
          ∃ req, e = RemoteCall req ∧ build (id q) (question q) = Returns req).
  assert (∀ j q a a' evs s, start fn j q a = (a', evs, s) →
                            Forall (ev_ok j q) evs) as Hstart.
  { intros j q a a' evs s. simpl. unfold start_question.
    destruct (build (id q) (question q)) as [req|msg] eqn:Hb;
      intros ?; simplify_eq; repeat constructor. by exists req. }
  assert (∀ j q f a a' evs s, frame_ok j q f →
            resume fn j f a = (a', evs, s) → Forall (ev_ok j q) evs) as Hresume.
  { intros j q f a a' evs s _. simpl. unfold resume_question.
    intros ?; simplify_eq. constructor. }
  destruct (run_events_ok fn expected frame_ok
              frames8_start_returned frames8_start_suspended
              frames8_resume_returned
              (λ i q f a a' evs f' _ H,
                 False_ind _ (frames8_resume_never_suspends i f a a' evs f' H))
              ev_ok Hstart Hresume n qs sched st Hrun k i e Hk)
    as (q & Hq & req & -> & Hreq).
  by exists q, req.
Qed.

(** The value of [process_batch], whatever the order of completion. *)
Lemma frames8_process_batch_results n qs sched rs :
  process_batch get_frame_paths encode_image create n qs sched = Some rs →
  rs = imap expected qs.
Proof.
  unfold process_batch. intros H.
  destruct (run fn sched (init fn n qs)) as [st|] eqn:Hrun; [|done].
  simpl in H.
  eapply (gather_expected fn expected frame_ok);
    [apply frames8_start_returned | apply frames8_start_suspended | apply frames8_resume_returned
    | intros * _ H'; by apply frames8_resume_never_suspends in H'
    | exact Hrun | exact H].
Qed.

End Processor.
End Inference4o8FramesFacts.

(** ** gemini_pro.py *)

Module GeminiProFacts.
Import Asyncio AsyncioFacts VertexAI GeminiPro.

Section Processor.
Variable get_frame_paths : string → list string.
Variable load_image_bytes : string → outcome string.
Variable generate_content : nat → request → outcome gen_response.

Local Abbreviation fn :=
  (process_question_fn get_frame_paths load_image_bytes generate_content).
Local Abbreviation expected := (λ (i : nat) (q : WorkItem),
  snd (process_question get_frame_paths load_image_bytes generate_content
         i (id q) (question q))).

Lemma gemini_pro_start_returned i q a a' evs r :
  start fn i q a = (a', evs, Returned r) → r = expected i q.
Proof.
  simpl. unfold start_question.
  destruct (process_question _ _ _ i (id q) (question q)); intros; by simplify_eq.
Qed.

Lemma gemini_pro_start_never_suspends i q a a' evs f :
  start fn i q a = (a', evs, Suspended f) → False.
Proof. destruct f. Qed.

Lemma gemini_pro_result_video_id i video_id question :
  snd (process_question get_frame_paths load_image_bytes generate_content
         i video_id question) !! "video_id" = Some video_id.
Proof.
  unfold process_question.
  destruct (build_request _ _ video_id question); simpl; [|done].
  destruct (generate_content i a ≫= text); done.
Qed.

Lemma gemini_pro_returns_all n qs :
  0 < n →
  returns_one_result_per_item fn (λ q r, r !! "video_id" = Some (id q)) 2 n qs.
Proof.
  intros Hn.
  apply (returns_one_result_per_item_holds fn _ 0 expected (λ _ _ _, True)).
  - intros * H. by apply gemini_pro_start_never_suspends in H.
  - intros i f. destruct f.
  - apply gemini_pro_start_returned.
  - done.
  - intros i q f. destruct f.
  - intros i q f. destruct f.
  - intros i q. apply gemini_pro_result_video_id.
  - done.
Qed.

Lemma gemini_pro_calls_in_trace n qs sched st k i e :
  run fn sched (init fn n qs) = Some st →
  trace st !! k = Some (i, Did e) →
  ∃ q req, qs !! i = Some q ∧ e = RemoteCall req ∧
           build_request get_frame_paths load_image_bytes (id q) (question q)
           = Returns req.
Proof.
  intros Hrun Hk.
  pose (ev_ok := λ (i : nat) (q : WorkItem) (e : io_event),
          ∃ req, e = RemoteCall req ∧
                 build_request get_frame_paths load_image_bytes
                   (id q) (question q) = Returns req).
  assert (∀ j q a a' evs s, start fn j q a = (a', evs, s) →
                            Forall (ev_ok j q) evs) as Hstart.
  { intros j q a a' evs s. simpl. unfold start_question, process_question.
    destruct (build_request _ _ (id q) (question q)) as [req|msg] eqn:Hb;
      intros ?; simplify_eq; repeat constructor. by exists req. }
  destruct (run_events_ok fn expected (λ _ _ _, True)
              gemini_pro_start_returned (λ _ _ _ _ _ _ _, I)
              (λ i q (f : Empty_set), match f with end)
              (λ i q (f : Empty_set), match f with end)
              ev_ok Hstart
              (λ i q (f : Empty_set), match f with end)
              n qs sched st Hrun k i e Hk)
    as (q & Hq & req & -> & Hreq).
  by exists q, req.
Qed.

Lemma gemini_pro_process_batch_results n qs sched rs :
  process_batch get_frame_paths load_image_bytes generate_content n qs sched
    = Some rs →
  rs = imap expected qs.
Proof.
  unfold process_batch. intros H.
  destruct (run fn sched (init fn n qs)) as [st|] eqn:Hrun; [|done].
  simpl in H.
  eapply (gather_expected fn expected (λ _ _ _, True));
    [apply gemini_pro_start_returned | done | intros i q f; destruct f
    | intros i q f; destruct f | exact Hrun | exact H].
Qed.

End Processor.
End GeminiProFacts.

(** ** inference_4o_reasoning.py *)

Module Inference4oReasoningFacts.
Import Asyncio AsyncioFacts OpenAI Inference4oReasoning.

Section Processor.
Variable get_frame_paths : string → list string.
Variable encode_image : string → outcome string.
Variable create : nat → request → outcome completion.

Local Abbreviation fn := (process_question_fn get_frame_paths encode_image create).
Local Abbreviation build := (build_request get_frame_paths encode_image).
Local Abbreviation expected := (λ (i : nat) (q : WorkItem),
  snd (process_question get_frame_paths encode_image create i (id q) (question q))).
Local Abbreviation frame_ok := (λ (i : nat) (q : WorkItem) (f : request),
  build (id q) (question q) = Returns f).

Lemma reasoning_start_returned i q a a' evs r :
  start fn i q a = (a', evs, Returned r) → r = expected i q.
Proof.
  unfold process_question. simpl. unfold start_question. simpl.
  destruct (build (id q) (question q)); intros; by simplify_eq.
Qed.

Lemma reasoning_start_suspended i q a a' evs f :
  start fn i q a = (a', evs, Suspended f) → frame_ok i q f.
Proof.
  simpl. unfold start_question.
  destruct (build (id q) (question q)) eqn:E; intros; by simplify_eq.
Qed.

Lemma reasoning_resume_returned i q f a a' evs r :
  frame_ok i q f → resume fn i f a = (a', evs, Returned r) → r = expected i q.
Proof.
  intros Hb. simpl. unfold resume_question. intros ?; simplify_eq.
  unfold process_question, start_question. simpl. by rewrite Hb.
Qed.

Lemma reasoning_resume_never_suspends i f a a' evs f' :
  resume fn i f a = (a', evs, Suspended f') → False.
Proof. simpl. unfold resume_question. intros; simplify_eq. Qed.

Lemma reasoning_process_batch_results n qs sched rs :
  process_batch get_frame_paths encode_image create n qs sched = Some rs →
  rs = imap expected qs.
Proof.
  unfold process_batch. intros H.
  destruct (run fn sched (init fn n qs)) as [st|] eqn:Hrun; [|done].
  simpl in H.
  eapply (gather_expected fn expected frame_ok);
    [apply reasoning_start_returned | apply reasoning_start_suspended | apply reasoning_resume_returned
    | intros * _ H'; by apply reasoning_resume_never_suspends in H'
    | exact Hrun | exact H].
Qed.

(** The records of this script: an answer or an error, no identifier. *)
Lemma reasoning_result_fields i video_id question :
  let r := snd (process_question get_frame_paths encode_image create
                  i video_id question) in
  r !! "video_id" = None ∧
  ((∃ a, r !! "answer" = Some a ∧ r !! "error" = None) ∨
   (∃ e, r !! "error" = Some e ∧ r !! "answer" = None)).
Proof.
  unfold process_question, start_question. simpl.
  destruct (build video_id question) as [req|msg]; simpl.
  - unfold finish_question. destruct (create i req) as [c|msg]; simpl.
    + split; [done|]. left. by exists (message_content c).
    + split; [done|]. right. by exists msg.
  - split; [done|]. right. by exists msg.
Qed.

End Processor.
End Inference4oReasoningFacts.


(** ** gemini_video.py *)

Module GeminiVideoFacts.
Import Asyncio AsyncioFacts VertexAI GeminiVideo.

Lemma div_batch_size_succ c :
  (c + 1) / batch_size
  = c / batch_size + (if decide ((c + 1) mod batch_size = 0) then 1 else 0).
Proof.
  unfold batch_size.
  pose proof (Nat.div_mod_eq c 5) as H1.
  pose proof (Nat.div_mod_eq (c + 1) 5) as H2.
  pose proof (Nat.mod_upper_bound c 5) as H3.
  pose proof (Nat.mod_upper_bound (c + 1) 5) as H4.
  case_decide; nia.
Qed.

Lemma sleeps_app tr1 tr2 : sleeps (tr1 ++ tr2) = sleeps tr1 + sleeps tr2.
Proof. unfold sleeps. by rewrite filter_app, length_app. Qed.

Lemma sleeps_cons ev tr :
  sleeps (ev :: tr) = (if is_sleep ev then 1 else 0) + sleeps tr.
Proof.
  unfold sleeps. rewrite filter_cons. destruct (is_sleep ev); by case_decide.
Qed.

Section Processor.
Variable generate_content : nat → request → outcome gen_response.

Local Abbreviation fn := (process_question_fn generate_content).
Local Abbreviation returned := (calls_returned generate_content).

Lemma calls_returned_app tr1 tr2 :
  returned (tr1 ++ tr2) = returned tr1 + returned tr2.
Proof. unfold calls_returned. by rewrite filter_app, length_app. Qed.

Lemma calls_returned_cons ev tr :
  returned (ev :: tr)
  = (if is_returned_call generate_content ev then 1 else 0) + returned tr.
Proof.
  unfold calls_returned. rewrite filter_cons.
  destruct (is_returned_call generate_content ev); by case_decide.
Qed.

Lemma returned_slice i req (last : nat * sched_event io_event) :
  is_returned_call generate_content last = false →
  returned [(i, Acquired); (i, Did (RemoteCall req)); last]
  = match generate_content i req with Returns _ => 1 | Raises _ => 0 end.
Proof.
  intros Hlast. rewrite !calls_returned_cons, Hlast. simpl.
  destruct (generate_content i req); done.
Qed.

(** One turn of a task, by what it appends to the trace and does to
    the counter. *)
Lemma video_step_cases i (st st' : loop fn) :
  step_task fn i st = Some st' →
  length (tasks st') = length (tasks st) ∧
  ((∃ req msg, generate_content i req = Raises msg ∧
       attrs st' = attrs st ∧
       trace st' = trace st ++ [(i, Acquired); (i, Did (RemoteCall req)); (i, Released)]) ∨
   (∃ req resp, generate_content i req = Returns resp ∧
       attrs st' = attrs st + 1 ∧ (attrs st + 1) mod batch_size ≠ 0 ∧
       trace st' = trace st ++ [(i, Acquired); (i, Did (RemoteCall req)); (i, Released)]) ∨
   (∃ req resp, generate_content i req = Returns resp ∧
       attrs st' = attrs st + 1 ∧ (attrs st + 1) mod batch_size = 0 ∧
       trace st' = trace st ++ [(i, Acquired); (i, Did (RemoteCall req));
                                (i, Did (Sleep sleep_duration))]) ∨
   (attrs st' = attrs st ∧ trace st' = trace st ++ [(i, Released)])).
Proof.
  intros Hs. split; [by eapply step_task_length|].
  apply step_task_cases in Hs
    as [(q&a&evs&s&Hi&_&Hstart&->)|(f&a&evs&s&Hi&Hres&->)].
  - simpl in Hstart. unfold start_question in Hstart.
    destruct (generate_content i (build_request (id q) (question q)))
      as [resp|msg] eqn:Hg.
    + case_decide as Hmod; simplify_eq; simpl.
      * right. right. left. eauto 10.
      * right. left. eauto 10.
    + simplify_eq. simpl. left. eauto 10.
  - simpl in Hres. unfold resume_question in Hres. simplify_eq. simpl.
    right. right. right. done.
Qed.

Lemma cooldown_ok_init n qs : cooldown_ok generate_content (init fn n qs).
Proof.
  split_and!; [done..|]. intros k i d. simpl. by rewrite lookup_nil.
Qed.

(** Looking up the trace after a turn: old positions keep their
    events and their prefixes. *)
Lemma lookup_old_or_new {A} (tr new : list A) k x :
  (tr ++ new) !! k = Some x →
  (tr !! k = Some x ∧ take k (tr ++ new) = take k tr ∧ k < length tr) ∨
  (length tr ≤ k ∧ new !! (k - length tr) = Some x ∧
   take k (tr ++ new) = tr ++ take (k - length tr) new).
Proof.
  intros [H|[Hk H]]%lookup_app_Some.
  - left. pose proof (lookup_lt_Some _ _ _ H).
    split_and!; [done| |done]. apply take_app_le. lia.
  - right. split_and!; [done..|]. by apply take_app_ge.
Qed.

Lemma cooldown_ok_old (st st' : loop fn) new :
  cooldown_ok generate_content st →
  trace st' = trace st ++ new →
  ∀ k i d, k < length (trace st) →
    trace st !! k = Some (i, Did (Sleep d)) →
    d = sleep_duration ∧
    (∃ req resp, 0 < k ∧ trace st' !! (k - 1) = Some (i, Did (RemoteCall req)) ∧
                 generate_content i req = Returns resp) ∧
    0 < returned (take k (trace st')) ∧
    returned (take k (trace st')) mod batch_size = 0 ∧
    permits i (take k (trace st')) = 1%Z.
Proof.
  intros (_ & _ & Hold) Htr k i d Hk Hev.
  destruct (Hold k i d Hev) as (Hd & (req & resp & Hpos & Hprev & Hret) & H1 & H2 & H3).
  rewrite Htr, take_app_le by lia.
  split_and!; try done.
  exists req, resp. split_and!; try done.
  by apply lookup_app_l_Some.
Qed.

Lemma cooldown_ok_step i (st st' : loop fn) :
  trace_ok st →
  cooldown_ok generate_content st →
  step_task fn i st = Some st' →
  cooldown_ok generate_content st'.
Proof.
  intros Htrace Hok Hs.
  pose proof (trace_ok_step fn _ _ _ Htrace Hs) as [_ Hheld].
  pose proof Hok as (Hcount & Hsleeps & _).
  destruct (video_step_cases _ _ _ Hs)
    as [_ [(req&msg&Hg&Ha&Htr)|[(req&resp&Hg&Ha&Hmod&Htr)|
           [(req&resp&Hg&Ha&Hmod&Htr)|(Ha&Htr)]]]].
  - (* the call raised *)
    split_and!.
    + rewrite Ha, Htr, calls_returned_app, Hcount, returned_slice, Hg by done.
      lia.
    + rewrite Ha, Htr, sleeps_app, Hsleeps. rewrite !sleeps_cons. simpl. unfold sleeps. simpl. lia.
    + intros k j d Hev. pose proof Hev as Hev'. rewrite Htr in Hev.
      apply lookup_old_or_new in Hev as [(Hev & _ & Hk)|(Hk & Hev & _)].
      * by eapply cooldown_ok_old.
      * destruct (k - length (trace st)) as [|[|[|]]]; simplify_eq/=.
  - (* the call returned, no cooldown *)
    split_and!.
    + rewrite Ha, Htr, calls_returned_app, Hcount, returned_slice, Hg by done.
      lia.
    + rewrite Ha, Htr, sleeps_app, Hsleeps, div_batch_size_succ.
      rewrite decide_False by done. rewrite !sleeps_cons. simpl. unfold sleeps. simpl. lia.
    + intros k j d Hev. pose proof Hev as Hev'. rewrite Htr in Hev.
      apply lookup_old_or_new in Hev as [(Hev & _ & Hk)|(Hk & Hev & _)].
      * by eapply cooldown_ok_old.
      * destruct (k - length (trace st)) as [|[|[|]]]; simplify_eq/=.
  - (* the call returned and the task goes to sleep *)
    assert (returned [(i, Acquired); (i, Did (RemoteCall req))] = 1) as Hone.
    { rewrite !calls_returned_cons. simpl. by rewrite Hg. }
    split_and!.
    + rewrite Ha, Htr, calls_returned_app, Hcount, returned_slice, Hg by done.
      lia.
    + rewrite Ha, Htr, sleeps_app, Hsleeps, div_batch_size_succ.
      rewrite decide_True by done. rewrite !sleeps_cons. simpl. unfold sleeps. simpl. lia.
    + intros k j d Hev. pose proof Hev as Hev'. rewrite Htr in Hev.
      apply lookup_old_or_new in Hev as [(Hev & _ & Hk)|(Hk & Hev & Htake)].
      * by eapply cooldown_ok_old.
      * destruct (k - length (trace st)) as [|[|[|]]] eqn:Hoff; simplify_eq/=.
        assert (k = length (trace st) + 2) as -> by lia.
        split_and!.
        -- done.
        -- exists req, resp. split_and!; [lia| |done].
           rewrite Htr. rewrite lookup_app_r by lia.
           by replace (length (trace st) + 2 - 1 - length (trace st)) with 1 by lia.
        -- rewrite Htr, Htake, calls_returned_app, Hone. lia.
        -- rewrite Htr, Htake, calls_returned_app, Hone, <- Hcount. done.
        -- by eapply Hheld.
  - (* waking up *)
    split_and!.
    + rewrite Ha, Htr, calls_returned_app, Hcount, calls_returned_cons.
      simpl. unfold calls_returned. simpl. lia.
    + rewrite Ha, Htr, sleeps_app, Hsleeps. rewrite !sleeps_cons. simpl. unfold sleeps. simpl. lia.
    + intros k j d Hev. pose proof Hev as Hev'. rewrite Htr in Hev.
      apply lookup_old_or_new in Hev as [(Hev & _ & Hk)|(Hk & Hev & _)].
      * by eapply cooldown_ok_old.
      * destruct (k - length (trace st)) as [|]; simplify_eq/=.
Qed.

Lemma run_cooldown_ok n qs sched st :
  run fn sched (init fn n qs) = Some st → cooldown_ok generate_content st.
Proof.
  intros Hrun.
  eapply (run_invariant fn (λ st, trace_ok st ∧ cooldown_ok generate_content st));
    [| |exact Hrun].
  - split; [apply trace_ok_init | apply cooldown_ok_init].
  - intros i st1 st2 [H1 H2] Hs. split.
    + by eapply trace_ok_step.
    + by eapply cooldown_ok_step.
Qed.

End Processor.
End GeminiVideoFacts.

(** ** extract_answers.py *)

Module ExtractAnswersFacts.
Import ExtractAnswers.

Lemma strip_prefix_Some p t r : strip_prefix p t = Some r ↔ t = p ++ r.
Proof.
  revert t. induction p as [|a p IH]; intros t; simpl.
  - split; intros; by simplify_eq.
  - destruct t as [|b t]; [done|].
    destruct (N.eqb_spec a b) as [->|Hne].
    + rewrite IH. split; intros; by simplify_eq.
    + split; intros; by simplify_eq.
Qed.

Lemma strip_prefix_app p r : strip_prefix p (p ++ r) = Some r.
Proof. by apply strip_prefix_Some. Qed.

Lemma is_any_true c : is_any c = true ↔ c ≠ 10%N.
Proof. unfold is_any. destruct (N.eqb_spec c 10); naive_solver. Qed.

Lemma is_answer_letter_true l : is_answer_letter l = true ↔ (65 ≤ l ≤ 69)%N.
Proof. unfold is_answer_letter. rewrite andb_true_iff, !N.leb_le. done. Qed.

Lemma lazy_any_then_close_eq t :
  lazy_any_then_close t
  = match strip_prefix close_tag t with
    | Some _ => true
    | None =>
        match t with
        | c :: t' => is_any c && lazy_any_then_close t'
        | [] => false
        end
    end.
Proof. by destruct t. Qed.

(** The lazy star followed by the closing tag matches exactly when a
    closing tag follows on the same line. *)
Lemma lazy_any_then_close_true t :
  lazy_any_then_close t = true ↔
  ∃ mid post, t = mid ++ close_tag ++ post ∧ Forall (λ c, c ≠ 10%N) mid.
Proof.
  split.
  - induction t as [|c t IH]; rewrite lazy_any_then_close_eq.
    + destruct (strip_prefix close_tag []) eqn:E; [|done].
      apply strip_prefix_Some in E. intros _. by exists [], l.
    + destruct (strip_prefix close_tag (c :: t)) eqn:E.
      * apply strip_prefix_Some in E. intros _. by exists [], l.
      * intros [Hc Ht]%andb_true_iff.
        destruct (IH Ht) as (mid & post & -> & Hmid).
        exists (c :: mid), post. split; [done|].
        constructor; [by apply is_any_true|done].
  - intros (mid & post & -> & Hmid).
    induction Hmid as [|c mid Hc _ IH]; rewrite lazy_any_then_close_eq.
    + change ([] ++ close_tag ++ post) with (close_tag ++ post).
      by rewrite strip_prefix_app.
    + change ((c :: mid) ++ close_tag ++ post)
        with (c :: (mid ++ close_tag ++ post)).
      destruct (strip_prefix close_tag (c :: mid ++ close_tag ++ post)); [done|].
      rewrite IH. by apply is_any_true in Hc as ->.
Qed.

Lemma match_with_content_Some t l :
  match_with_content t = Some l ↔
  (65 ≤ l ≤ 69)%N ∧
  ∃ d mid post, t = open_tag ++ l :: d :: mid ++ close_tag ++ post ∧
                is_dot_or_space d = true ∧ Forall (λ c, c ≠ 10%N) mid.
Proof.
  unfold match_with_content. split.
  - destruct (strip_prefix open_tag t) as [[|l' [|d rest]]|] eqn:E; try done.
    apply strip_prefix_Some in E.
    destruct (is_answer_letter l') eqn:Hl; [|done].
    destruct (is_dot_or_space d) eqn:Hd; [|done].
    destruct (lazy_any_then_close rest) eqn:Hrest; [|done].
    cbn [andb]. intros [= <-].
    apply is_answer_letter_true in Hl.
    apply lazy_any_then_close_true in Hrest as (mid & post & -> & Hmid).
    split; [done|]. by exists d, mid, post.
  - intros [Hl (d & mid & post & -> & Hd & Hmid)].
    rewrite strip_prefix_app.
    rewrite (proj2 (is_answer_letter_true l) Hl), Hd.
    rewrite (proj2 (lazy_any_then_close_true _)); [done|].
    by exists mid, post.
Qed.

Lemma match_letter_only_Some t l :
  match_letter_only t = Some l ↔
  (65 ≤ l ≤ 69)%N ∧ ∃ post, t = open_tag ++ l :: close_tag ++ post.
Proof.
  unfold match_letter_only. split.
  - destruct (strip_prefix open_tag t) as [[|l' rest]|] eqn:E; try done.
    apply strip_prefix_Some in E.
    destruct (is_answer_letter l') eqn:Hl; [|done].
    case_bool_decide as Hclose; [|done].
    cbn [andb]. intros [= <-].
    destruct Hclose as [post Hpost]. apply strip_prefix_Some in Hpost.
    apply is_answer_letter_true in Hl.
    split; [done|]. exists post. by subst.
  - intros [Hl (post & ->)].
    rewrite strip_prefix_app.
    rewrite (proj2 (is_answer_letter_true l) Hl).
    rewrite bool_decide_true; [done|].
    exists post. apply strip_prefix_app.
Qed.

(** [search] finds a match exactly when some suffix has one. *)
Lemma search_Some m t l :
  search m t = Some l → ∃ pre suf, t = pre ++ suf ∧ m suf = Some l.
Proof.
  induction t as [|c t IH]; simpl.
  - destruct (m []) eqn:E; [|done]. intros [= <-]. by exists [], [].
  - destruct (m (c :: t)) eqn:E.
    + intros [= <-]. by exists [], (c :: t).
    + intros (pre & suf & -> & Hm)%IH. by exists (c :: pre), suf.
Qed.

Lemma search_None m t :
  search m t = None ↔ ∀ pre suf, t = pre ++ suf → m suf = None.
Proof.
  induction t as [|c t IH]; simpl.
  - destruct (m []) eqn:E.
    + split; [done|]. intros H. rewrite (H [] []) in E; done.
    + split; [|done]. intros _ pre suf Heq.
      symmetry in Heq. apply app_eq_nil in Heq as [_ ->]. done.
  - destruct (m (c :: t)) eqn:E.
    + split; [done|]. intros H. rewrite (H [] (c :: t)) in E; done.
    + rewrite IH. split.
      * intros H [|c' pre] suf Heq; simplify_eq/=; [done|]. by eapply H.
      * intros H pre suf ->. by apply (H (c :: pre)).
Qed.

(** [[.\s]] accepts the dot and the white-space characters, and
    nothing else. *)
Lemma is_space_true c : is_space c = true ↔ c ∈ white_space.
Proof.
  unfold is_space, white_space.
  rewrite !orb_true_iff, !andb_true_iff, !N.leb_le, !N.eqb_eq.
  rewrite !elem_of_cons, elem_of_nil. lia.
Qed.

Lemma is_dot_or_space_true d :
  is_dot_or_space d = true ↔ d = 46%N ∨ d ∈ white_space.
Proof.
  unfold is_dot_or_space. by rewrite orb_true_iff, N.eqb_eq, is_space_true.
Qed.

Lemma search_content_tag t l :
  search match_with_content t = Some l → (65 ≤ l ≤ 69)%N ∧ content_tag t l.
Proof.
  intros (pre & suf & -> & [Hl (d & mid & post & -> & Hd & Hmid)]%match_with_content_Some)%search_Some.
  split; [done|]. exists pre, d, mid, post.
  split; [done|]. split; [by apply is_dot_or_space_true|done].
Qed.

Lemma search_letter_only_tag t l :
  search match_letter_only t = Some l → (65 ≤ l ≤ 69)%N ∧ letter_only_tag t l.
Proof.
  intros (pre & suf & -> & [Hl (post & ->)]%match_letter_only_Some)%search_Some.
  split; [done|]. by exists pre, post.
Qed.

Lemma search_no_content_tag t :
  search match_with_content t = None →
  ∀ l, (65 ≤ l ≤ 69)%N → ¬ content_tag t l.
Proof.
  intros Hnone l Hl (pre & d & mid & post & -> & Hd%is_dot_or_space_true & Hmid).
  rewrite search_None in Hnone.
  specialize (Hnone pre _ eq_refl).
  assert (match_with_content (open_tag ++ l :: d :: mid ++ close_tag ++ post) = Some l)
    as Hsome by (apply match_with_content_Some; eauto 10).
  congruence.
Qed.

Lemma search_no_letter_only_tag t :
  search match_letter_only t = None →
  ∀ l, (65 ≤ l ≤ 69)%N → ¬ letter_only_tag t l.
Proof.
  intros Hnone l Hl (pre & post & ->).
  rewrite search_None in Hnone.
  specialize (Hnone pre _ eq_refl).
  assert (match_letter_only (open_tag ++ l :: close_tag ++ post) = Some l)
    as Hsome by (apply match_letter_only_Some; eauto).
  congruence.
Qed.

End ExtractAnswersFacts.

(** ** choose_majority.py *)

Module ChooseMajorityFacts.
Import ChooseMajority.

(** *** Dicts in insertion order *)

Section Dict.
Context {K V : Type} `{EqDecision K}.
Implicit Types (d : list (K * V)) (k : K) (v : V).


Lemma get_None k d : get k d = None ↔ k ∉ d.*1.
Proof.
  induction d as [|[k0 v] d IH]; simpl.
  - split; [intros _; apply not_elem_of_nil|done].
  - rewrite not_elem_of_cons. case_decide.
    + split; [done|]. intros [? _]. by subst.
    + rewrite IH. split; [|by intros [_ ?]].
      intros ?. split; [congruence|done].
Qed.







End Dict.

(** *** The order of strings *)







(** *** [max] and [min] *)









(** *** Collecting and counting *)







(** *** The vote for one identifier *)



(** *** Sorting by identifier *)

Local Abbreviation lt_id := (λ r r' : Z * cell, (r.1 < r'.1)%Z).





(** *** The table as a whole *)













End ChooseMajorityFacts.

(** ** inferenceo1.py *)

Module InferenceO1Facts.
Import Asyncio AsyncioFacts OpenAI InferenceO1.

Section Processor.
Variable get_frame_paths : string → list string.
Variable encode_image : string → outcome string.
Variable create : nat → request → outcome completion.

Local Abbreviation fn := (process_question_fn get_frame_paths encode_image create).
Local Abbreviation build := (build_request get_frame_paths encode_image).
(** The result the task at position [i] computes for its item. *)
Local Abbreviation expected := (λ (i : nat) (q : WorkItem),
  snd (process_question get_frame_paths encode_image create i (id q) (question q))).
Local Abbreviation frame_ok := (λ (i : nat) (q : WorkItem) (f : string * request),
  build (id q) (question q) = Returns (snd f) ∧ fst f = id q).

Lemma o1_start_returned i q a a' evs r :
  start fn i q a = (a', evs, Returned r) → r = expected i q.
Proof.
  unfold process_question. simpl. unfold start_question. simpl.
  destruct (build (id q) (question q)); intros; by simplify_eq.
Qed.

Lemma o1_start_suspended i q a a' evs f :
  start fn i q a = (a', evs, Suspended f) → frame_ok i q f.
Proof.
  simpl. unfold start_question.
  destruct (build (id q) (question q)) eqn:E; intros; by simplify_eq.
Qed.

Lemma o1_resume_returned i q f a a' evs r :
  frame_ok i q f → resume fn i f a = (a', evs, Returned r) → r = expected i q.
Proof.
  intros [Hb Hid]. simpl. unfold resume_question. intros ?; simplify_eq.
  unfold process_question, start_question. simpl. rewrite Hb.
  simpl. destruct f as [v req]; simpl in *. by subst.
Qed.

Lemma o1_resume_never_suspends i f a a' evs f' :
  resume fn i f a = (a', evs, Suspended f') → False.
Proof. simpl. unfold resume_question. intros; simplify_eq. Qed.

Lemma o1_result_video_id i video_id question :
  snd (process_question get_frame_paths encode_image create i video_id question)
    !! "video_id" = Some video_id.
Proof.
  unfold process_question, start_question. simpl.
  destruct (build video_id question); simpl.
  - unfold finish_question. simpl. destruct (create i a); done.
  - done.
Qed.

Lemma o1_returns_all n qs :
  0 < n →
  returns_one_result_per_item fn (λ q r, r !! "video_id" = Some (id q)) 2 n qs.
Proof.
  intros Hn.
  apply (returns_one_result_per_item_holds fn _ 0 expected frame_ok).
  - intros. simpl. lia.
  - intros * H. by apply o1_resume_never_suspends in H.
  - apply o1_start_returned.
  - apply o1_start_suspended.
  - apply o1_resume_returned.
  - intros * _ H. by apply o1_resume_never_suspends in H.
  - intros i q. apply o1_result_video_id.
  - done.
Qed.

(** A remote call in the trace of a batch was made for an item whose
    request could be built, and with that request. *)
Lemma o1_calls_in_trace n qs sched st k i e :
  run fn sched (init fn n qs) = Some st →
  trace st !! k = Some (i, Did e) →
  ∃ q req, qs !! i = Some q ∧ e = RemoteCall req ∧
           build (id q) (question q) = Returns req.
Proof.
  intros Hrun Hk.
  pose (ev_ok := λ (i : nat) (q : WorkItem) (e : io_event),
          ∃ req, e = RemoteCall req ∧ build (id q) (question q) = Returns req).
  assert (∀ j q a a' evs s, start fn j q a = (a', evs, s) →
                            Forall (ev_ok j q) evs) as Hstart.
  { intros j q a a' evs s. simpl. unfold start_question.
    destruct (build (id q) (question q)) as [req|msg] eqn:Hb;
      intros ?; simplify_eq; repeat constructor. by exists req. }
  assert (∀ j q f a a' evs s, frame_ok j q f →
            resume fn j f a = (a', evs, s) → Forall (ev_ok j q) evs) as Hresume.
  { intros j q f a a' evs s _. simpl. unfold resume_question.
    intros ?; simplify_eq. constructor. }
  destruct (run_events_ok fn expected frame_ok
              o1_start_returned o1_start_suspended
              o1_resume_returned
              (λ i q f a a' evs f' _ H,
                 False_ind _ (o1_resume_never_suspends i f a a' evs f' H))
              ev_ok Hstart Hresume n qs sched st Hrun k i e Hk)
    as (q & Hq & req & -> & Hreq).
  by exists q, req.
Qed.

(** The value of [process_batch], whatever the order of completion. *)
Lemma o1_process_batch_results n qs sched rs :
  process_batch get_frame_paths encode_image create n qs sched = Some rs →
  rs = imap expected qs.
Proof.
  unfold process_batch. intros H.
  destruct (run fn sched (init fn n qs)) as [st|] eqn:Hrun; [|done].
  simpl in H.
  eapply (gather_expected fn expected frame_ok);
    [apply o1_start_returned | apply o1_start_suspended | apply o1_resume_returned
    | intros * _ H'; by apply o1_resume_never_suspends in H'
    | exact Hrun | exact H].
Qed.

End Processor.
End InferenceO1Facts.

(** ** gemini_video.py: the records and the counter of a batch *)

Module GeminiVideoResults.
Import Asyncio AsyncioFacts VertexAI GeminiVideo.

Section Processor.
Variable generate_content : nat → request → outcome gen_response.

Local Abbreviation fn := (process_question_fn generate_content).
Local Abbreviation expected := (question_result generate_content).
Local Abbreviation frame_ok := (λ (i : nat) (q : WorkItem) (f : string * gen_response),
  fst f = id q ∧
  generate_content i (build_request (id q) (question q)) = Returns (snd f)).
Local Abbreviation counted := (calls_counted generate_content).
Local Abbreviation counter_ok := (GeminiVideo.counter_ok generate_content).

Lemma video_start_returned i q a a' evs r :
  start fn i q a = (a', evs, Returned r) → r = expected i q.
Proof.
  intros H. simpl in H. unfold start_question in H. unfold question_result.
  destruct (generate_content i (build_request (id q) (question q)));
    [case_decide|]; by simplify_eq.
Qed.

Lemma video_start_suspended i q a a' evs f :
  start fn i q a = (a', evs, Suspended f) → frame_ok i q f.
Proof.
  intros H. simpl in H. unfold start_question in H.
  destruct (generate_content i (build_request (id q) (question q))) eqn:Hg;
    [case_decide|]; by simplify_eq.
Qed.

Lemma video_resume_returned i q f a a' evs r :
  frame_ok i q f → resume fn i f a = (a', evs, Returned r) → r = expected i q.
Proof.
  intros [Hid Hg] H. simpl in H. unfold resume_question in H. simplify_eq.
  unfold question_result. by rewrite Hg, Hid.
Qed.

Lemma video_resume_never_suspends i f a a' evs f' :
  resume fn i f a = (a', evs, Suspended f') → False.
Proof. intros H. simpl in H. unfold resume_question in H. simplify_eq. Qed.

Lemma video_result_video_id i q : expected i q !! "video_id" = Some (id q).
Proof.
  unfold question_result, finish_question.
  destruct (generate_content i _) as [resp|msg]; [|done].
  by destruct (text resp).
Qed.

Lemma video_returns_all n qs :
  0 < n →
  returns_one_result_per_item fn (λ q r, r !! "video_id" = Some (id q)) 2 n qs.
Proof.
  intros Hn.
  apply (returns_one_result_per_item_holds fn _ 0 expected frame_ok).
  - intros. simpl. lia.
  - intros * H. by apply video_resume_never_suspends in H.
  - apply video_start_returned.
  - apply video_start_suspended.
  - apply video_resume_returned.
  - intros * _ H. by apply video_resume_never_suspends in H.
  - apply video_result_video_id.
  - done.
Qed.

Lemma video_gather_expected n qs sched st rs :
  run fn sched (init fn n qs) = Some st →
  gather fn st = Some rs → rs = imap expected qs.
Proof.
  eapply (gather_expected fn expected frame_ok);
    [apply video_start_returned | apply video_start_suspended
    | apply video_resume_returned
    | intros * _ H'; by apply video_resume_never_suspends in H'].
Qed.

(** *** The counter at the end of a batch *)

Lemma calls_counted_insert i qs (ts : list (task fn)) j q t t' :
  qs !! j = Some q → ts !! j = Some t →
  counted i qs (<[j := t']> ts) + counted_for generate_content (i + j) q t
  = counted i qs ts + counted_for generate_content (i + j) q t'.
Proof.
  revert i j ts. induction qs as [|q0 qs IH]; intros i j ts Hq Ht; [done|].
  destruct ts as [|t0 ts]; [done|].
  destruct j as [|j]; simplify_eq/=.
  - rewrite Nat.add_0_r. lia.
  - specialize (IH (S i) j ts Hq Ht).
    replace (i + S j) with (S i + j) by lia. lia.
Qed.

Lemma calls_counted_init i qs : counted i qs (Waiting <$> qs) = 0.
Proof. revert i. induction qs as [|q qs IH]; intros i; simpl; [done|]. by rewrite IH. Qed.

Lemma calls_counted_done i qs rs :
  length rs = length qs →
  counted i qs (Done <$> rs) = successes generate_content i qs.
Proof.
  revert i rs. induction qs as [|q qs IH]; intros i [|r rs] Hlen;
    simplify_eq/=; [done|].
  by rewrite IH.
Qed.

Lemma counter_ok_step qs i st st' :
  counter_ok qs st → step_task fn i st = Some st' → counter_ok qs st'.
Proof.
  intros (Hlen & Hwait & Hcount) Hs.
  pose proof (step_task_length _ _ _ _ Hs) as Hlen'.
  apply step_task_cases in Hs
    as [(q&a&evs&s&Hi&_&Hstart&->)|(f&a&evs&s&Hi&Hres&->)].
  - pose proof (Hwait _ _ Hi) as Hq.
    simpl in Hstart. unfold start_question in Hstart.
    assert (∃ t', tasks (settle fn i (sem_value st - 1) st
                           (a, (i, Acquired) :: tag i evs, s))
                  = <[i := t']> (tasks st) ∧
                  (∀ q', t' ≠ Waiting q') ∧
                  a = attrs st + (if call_returns generate_content i q then 1 else 0))
      as (t' & Htasks & Hnw & Ha).
    { unfold call_returns.
      destruct (generate_content i (build_request (id q) (question q)));
        [case_decide|]; simplify_eq; simpl; eexists; split_and!; try done; lia. }
    split_and!.
    + congruence.
    + intros j q'. rewrite Htasks. intros Hj.
      destruct (decide (i = j)) as [->|Hne].
      * rewrite list_lookup_insert_eq in Hj by (by eapply lookup_lt_Some).
        simplify_eq. by destruct (Hnw q').
      * rewrite list_lookup_insert_ne in Hj by done. by apply Hwait.
    + rewrite Htasks.
      pose proof (calls_counted_insert 0 qs (tasks st) i q _ t' Hq Hi) as Hins.
      simpl in Hins.
      assert (counted_for generate_content i q t'
              = if call_returns generate_content i q then 1 else 0) as Ht'.
      { destruct t' as [q'|f|r]; [by destruct (Hnw q')|done|done]. }
      destruct s; simpl; lia.
  - simpl in Hres. unfold resume_question in Hres. simplify_eq.
    unfold GeminiVideo.counter_ok. cbn [settle tasks attrs].
    assert (is_Some (qs !! i)) as [q Hq].
    { apply lookup_lt_is_Some. rewrite <- Hlen. by eapply lookup_lt_Some. }
    split_and!.
    + rewrite <- Hlen. apply length_insert.
    + intros j q'. intros Hj.
      destruct (decide (i = j)) as [->|Hne].
      * rewrite list_lookup_insert_eq in Hj by (by eapply lookup_lt_Some). done.
      * rewrite list_lookup_insert_ne in Hj by done. by apply Hwait.
    + pose proof (calls_counted_insert 0 qs (tasks st) i q _
                    (Done (finish_question f.1 f.2)) Hq Hi) as Hins.
      simpl in Hins. lia.
Qed.

Lemma run_counter_ok n qs sched st :
  run fn sched (init fn n qs) = Some st → counter_ok qs st.
Proof.
  intros Hrun. eapply (run_invariant fn (counter_ok qs)); [| |exact Hrun].
  - split_and!.
    + simpl. by rewrite length_fmap.
    + intros j q. simpl. rewrite list_lookup_fmap.
      destruct (qs !! j); intros; by simplify_eq/=.
    + simpl. by rewrite calls_counted_init.
  - intros. by eapply counter_ok_step.
Qed.

End Processor.
End GeminiVideoResults.

(* ===================================================================== *)
(** * The claims                                                          *)
(* ===================================================================== *)

Import Asyncio.



(** The batch of two items on one permit: frames for ["00001"], none for
    ["00002"]. The first record has an answer, the second an error about
    the missing frames, and both tasks complete. *)
Example process_batch_two_items :
  (λ rs : list pydict,
     (λ r : pydict, (r !! "video_id", r !! "answer", r !! "error")) <$> rs)
    <$> Inference4o8Frames.process_batch
          Demo.get_frame_paths Demo.encode_image Demo.create
          1 Demo.questions [0; 0; 1]
  = Some [(Some "00001", Some "The car turns left. <answer>B</answer>", None);
          (Some "00002", None, Some "No frames found for video ID 00002")] ∧
  Inference4o8Frames.process_batch
    Demo.get_frame_paths Demo.encode_image Demo.create
    1 Demo.questions [0; 1; 0] = None.
Proof. vm_compute. done. Qed.

(** C2. At every point of a batch run of [inference4o_8frames.py], the
    number of tasks suspended in the awaited provider call, that is the
    number of remote calls in flight, is at most the initial value of the
    semaphore, for every batch and every order of completion. *)
Theorem in_flight_never_exceeds_permits
    (get_frame_paths : string → list string)
    (encode_image : string → outcome string)
    (create : nat → OpenAI.request → outcome OpenAI.completion)
    (max_concurrent_requests : nat) (questions : list WorkItem)
    (sched : list nat) st :
  run (Inference4o8Frames.process_question_fn get_frame_paths encode_image create)
      sched (init _ max_concurrent_requests questions) = Some st →
  in_flight _ st ≤ max_concurrent_requests.
Proof.
  intros Hrun. apply AsyncioFacts.run_permits in Hrun. lia.
Qed.

Lemma in_flight_never_exceeds_permits_witness :
  ∃ st,
    run (Inference4o8Frames.process_question_fn
           Demo.get_frame_paths Demo.encode_image Demo.create)
        [0] (init _ 1 Demo.questions) = Some st ∧
    in_flight _ st ≤ 1.
Proof.
  assert (is_Some (run (Inference4o8Frames.process_question_fn
                          Demo.get_frame_paths Demo.encode_image Demo.create)
                     [0] (init _ 1 Demo.questions))) as [st Hst] by evaluates.
  exists st. split; [exact Hst|].
  exact (in_flight_never_exceeds_permits _ _ _ _ _ _ _ Hst).
Defined.

(** C3. When the frame store has no file for an identifier
    ([get_frame_paths] returns the empty list), [process_question] issues no
    remote call and returns an error record whose [error] field says that
    no frames were found for that identifier; and in a batch, the trace
    of the run has no effect at all, so no remote call, of a task whose
    item has that identifier. Stated for [inference4o_8frames.py] and
    [gemini_pro.py]. *)
Theorem missing_frames_error_without_call
    (get_frame_paths : string → list string)
    (encode_image load_image_bytes : string → outcome string)
    (create : nat → OpenAI.request → outcome OpenAI.completion)
    (generate_content : nat → VertexAI.request → outcome VertexAI.gen_response)
    (i : nat) (video_id question : string) :
  get_frame_paths video_id = [] →
  let missing := "No frames found for video ID " +:+ video_id in
  let r8 := Inference4o8Frames.process_question
              get_frame_paths encode_image create i video_id question in
  let rp := GeminiPro.process_question
              get_frame_paths load_image_bytes generate_content i video_id question in
  (fst r8 = [] ∧ snd r8 !! "error" = Some missing ∧
   snd r8 !! "video_id" = Some video_id ∧ snd r8 !! "answer" = None) ∧
  (fst rp = [] ∧ snd rp !! "error" = Some missing ∧
   snd rp !! "video_id" = Some video_id ∧ snd rp !! "answer" = None) ∧
  (∀ n questions sched st j q k e,
     run (Inference4o8Frames.process_question_fn get_frame_paths encode_image create)
         sched (init _ n questions) = Some st →
     questions !! j = Some q → id q = video_id →
     trace st !! k ≠ Some (j, Did e)) ∧
  (∀ n questions sched st j q k e,
     run (GeminiPro.process_question_fn get_frame_paths load_image_bytes
            generate_content)
         sched (init _ n questions) = Some st →
     questions !! j = Some q → id q = video_id →
     trace st !! k ≠ Some (j, Did e)).
Proof.
  intros Hnone. simpl. split_and!.
  - unfold Inference4o8Frames.process_question, Inference4o8Frames.start_question,
      Inference4o8Frames.build_request. simpl. by rewrite Hnone.
  - unfold Inference4o8Frames.process_question, Inference4o8Frames.start_question,
      Inference4o8Frames.build_request. simpl. by rewrite Hnone.
  - apply Inference4o8FramesFacts.frames8_result_video_id.
  - unfold Inference4o8Frames.process_question, Inference4o8Frames.start_question,
      Inference4o8Frames.build_request. simpl. by rewrite Hnone.
  - unfold GeminiPro.process_question, GeminiPro.build_request. by rewrite Hnone.
  - unfold GeminiPro.process_question, GeminiPro.build_request. by rewrite Hnone.
  - apply GeminiProFacts.gemini_pro_result_video_id.
  - unfold GeminiPro.process_question, GeminiPro.build_request. by rewrite Hnone.
  - intros n questions sched st j q k e Hrun Hq Hid Hk.
    destruct (Inference4o8FramesFacts.frames8_calls_in_trace _ _ _ _ _ _ _ _ _ _
                Hrun Hk) as (q' & req & Hq' & _ & Hreq).
    rewrite Hq in Hq'. simplify_eq.
    unfold Inference4o8Frames.build_request in Hreq.
    rewrite Hnone in Hreq. simpl in Hreq. discriminate Hreq.
  - intros n questions sched st j q k e Hrun Hq Hid Hk.
    destruct (GeminiProFacts.gemini_pro_calls_in_trace _ _ _ _ _ _ _ _ _ _
                Hrun Hk) as (q' & req & Hq' & _ & Hreq).
    rewrite Hq in Hq'. simplify_eq.
    unfold GeminiPro.build_request in Hreq.
    rewrite Hnone in Hreq. simpl in Hreq. discriminate Hreq.
Qed.

Lemma missing_frames_error_without_call_witness :
  Demo.get_frame_paths "00002" = [] ∧
  fst (Inference4o8Frames.process_question
         Demo.get_frame_paths Demo.encode_image Demo.create 1 "00002" "Q2") = [] ∧
  snd (Inference4o8Frames.process_question
         Demo.get_frame_paths Demo.encode_image Demo.create 1 "00002" "Q2")
    !! "error" = Some "No frames found for video ID 00002" ∧
  ∃ st,
    run (Inference4o8Frames.process_question_fn
           Demo.get_frame_paths Demo.encode_image Demo.create)
        [0; 0; 1] (init _ 1 Demo.questions) = Some st ∧
    ∀ k e, trace st !! k ≠ Some (1, Did e).
Proof.
  split; [reflexivity|].
  destruct (missing_frames_error_without_call
              Demo.get_frame_paths Demo.encode_image Demo.encode_image
              Demo.create Demo.generate_content 1 "00002" "Q2" eq_refl)
    as ((H1 & H2 & _) & _ & Hbatch & _).
  split; [exact H1|]. split; [exact H2|].
  assert (is_Some (run (Inference4o8Frames.process_question_fn
                          Demo.get_frame_paths Demo.encode_image Demo.create)
                     [0; 0; 1] (init _ 1 Demo.questions))) as [st Hst] by evaluates.
  exists st. split; [exact Hst|].
  intros k e.
  exact (Hbatch 1 Demo.questions [0; 0; 1] st 1 (mkWorkItem "00002" "Q2") k e
           Hst eq_refl eq_refl).
Defined.

(** C4. When the call made for one item raises (a network error, a missing
    resource, a provider error), the exception is caught inside that item's
    [process_question] and becomes its error record. The batch is not
    aborted: with at least one permit every run of it can be carried on
    until [process_batch] returns, and it returns one result per item. The
    results of the other items are what their own calls determine: they
    are the same as in a batch where the call of item [j] behaves
    differently, whatever the two orders of completion. Stated for
    [inference4o_8frames.py] and [gemini_pro.py]. *)
Theorem failure_confined_to_its_item
    (get_frame_paths : string → list string)
    (encode_image load_image_bytes : string → outcome string)
    (max_concurrent_requests : nat) (questions : list WorkItem) (j : nat) :
  0 < max_concurrent_requests →
  (∀ (create create' : nat → OpenAI.request → outcome OpenAI.completion),
     (∀ i req, i ≠ j → create' i req = create i req) →
     (∃ sched' rs',
        Inference4o8Frames.process_batch get_frame_paths encode_image create'
          max_concurrent_requests questions sched' = Some rs') ∧
     (∀ sched' st',
        run (Inference4o8Frames.process_question_fn get_frame_paths encode_image create')
            sched' (init _ max_concurrent_requests questions) = Some st' →
        ∃ more rs',
          Inference4o8Frames.process_batch get_frame_paths encode_image create'
            max_concurrent_requests questions (sched' ++ more) = Some rs') ∧
     (∀ sched' rs',
        Inference4o8Frames.process_batch get_frame_paths encode_image create'
          max_concurrent_requests questions sched' = Some rs' →
        length rs' = length questions ∧
        (∀ i q, questions !! i = Some q →
           rs' !! i = Some (snd (Inference4o8Frames.process_question
                                   get_frame_paths encode_image create'
                                   i (id q) (question q)))) ∧
        (∀ sched rs i,
           Inference4o8Frames.process_batch get_frame_paths encode_image create
             max_concurrent_requests questions sched = Some rs →
           i ≠ j → rs' !! i = rs !! i) ∧
        (∀ q req msg,
           questions !! j = Some q →
           Inference4o8Frames.build_request get_frame_paths encode_image
             (id q) (question q) = Returns req →
           create' j req = Raises msg →
           rs' !! j = Some {[ "video_id" := id q; "error" := msg ]}))) ∧
  (∀ (generate_content generate_content'
        : nat → VertexAI.request → outcome VertexAI.gen_response),
     (∀ i req, i ≠ j → generate_content' i req = generate_content i req) →
     (∃ sched' rs',
        GeminiPro.process_batch get_frame_paths load_image_bytes generate_content'
          max_concurrent_requests questions sched' = Some rs') ∧
     (∀ sched' st',
        run (GeminiPro.process_question_fn get_frame_paths load_image_bytes
               generate_content')
            sched' (init _ max_concurrent_requests questions) = Some st' →
        ∃ more rs',
          GeminiPro.process_batch get_frame_paths load_image_bytes generate_content'
            max_concurrent_requests questions (sched' ++ more) = Some rs') ∧
     (∀ sched' rs',
        GeminiPro.process_batch get_frame_paths load_image_bytes generate_content'
          max_concurrent_requests questions sched' = Some rs' →
        length rs' = length questions ∧
        (∀ i q, questions !! i = Some q →
           rs' !! i = Some (snd (GeminiPro.process_question
                                   get_frame_paths load_image_bytes generate_content'
                                   i (id q) (question q)))) ∧
        (∀ sched rs i,
           GeminiPro.process_batch get_frame_paths load_image_bytes generate_content
             max_concurrent_requests questions sched = Some rs →
           i ≠ j → rs' !! i = rs !! i) ∧
        (∀ q req msg,
           questions !! j = Some q →
           GeminiPro.build_request get_frame_paths load_image_bytes
             (id q) (question q) = Returns req →
           generate_content' j req ≫= VertexAI.text = Raises msg →
           rs' !! j = Some {[ "video_id" := id q; "error" := msg ]}))).
Proof.
  intros Hn. split.
  - intros create create' Hagree.
    destruct (AsyncioFacts.returns_one_result_per_item_batch _ _ _ _ _
                (Inference4o8FramesFacts.frames8_returns_all
                   get_frame_paths encode_image create'
                   max_concurrent_requests questions Hn)) as [Hgo _].
    split_and!.
    + destruct (Hgo [] _ eq_refl) as (_ & sched & rs & Hrs). by exists sched, rs.
    + intros sched' st' Hrun. by destruct (Hgo _ _ Hrun) as [_ ?].
    + intros sched' rs'
        Hrs'%Inference4o8FramesFacts.frames8_process_batch_results.
      subst rs'. split_and!.
      * by rewrite length_imap.
      * intros i q Hq. by rewrite list_lookup_imap, Hq.
      * intros sched rs i
          Hrs%Inference4o8FramesFacts.frames8_process_batch_results Hi.
        subst rs. rewrite !list_lookup_imap.
        destruct (questions !! i) as [q|]; simpl; [|done].
        unfold Inference4o8Frames.process_question,
          Inference4o8Frames.start_question, Inference4o8Frames.finish_question.
        simpl. destruct (Inference4o8Frames.build_request _ _ _ _); simpl; [|done].
        by rewrite Hagree.
      * intros q req msg Hq Hreq Hraise. rewrite list_lookup_imap, Hq. simpl.
        unfold Inference4o8Frames.process_question,
          Inference4o8Frames.start_question, Inference4o8Frames.finish_question.
        simpl. rewrite Hreq. simpl. by rewrite Hraise.
  - intros gen gen' Hagree.
    destruct (AsyncioFacts.returns_one_result_per_item_batch _ _ _ _ _
                (GeminiProFacts.gemini_pro_returns_all
                   get_frame_paths load_image_bytes gen'
                   max_concurrent_requests questions Hn)) as [Hgo _].
    split_and!.
    + destruct (Hgo [] _ eq_refl) as (_ & sched & rs & Hrs). by exists sched, rs.
    + intros sched' st' Hrun. by destruct (Hgo _ _ Hrun) as [_ ?].
    + intros sched' rs' Hrs'%GeminiProFacts.gemini_pro_process_batch_results.
      subst rs'. split_and!.
      * by rewrite length_imap.
      * intros i q Hq. by rewrite list_lookup_imap, Hq.
      * intros sched rs i Hrs%GeminiProFacts.gemini_pro_process_batch_results Hi.
        subst rs. rewrite !list_lookup_imap.
        destruct (questions !! i) as [q|]; simpl; [|done].
        unfold GeminiPro.process_question.
        destruct (GeminiPro.build_request _ _ _ _); simpl; [|done].
        by rewrite Hagree.
      * intros q req msg Hq Hreq Hraise. rewrite list_lookup_imap, Hq. simpl.
        unfold GeminiPro.process_question. rewrite Hreq. simpl. by rewrite Hraise.
Qed.

Lemma failure_confined_to_its_item_witness :
  0 < 5 ∧
  (∃ rs rs',
     Inference4o8Frames.process_batch Demo.get_frame_paths Demo.encode_image
       Demo.create 5 Demo.questions [0; 1; 0] = Some rs ∧
     Inference4o8Frames.process_batch Demo.get_frame_paths Demo.encode_image
       Demo.create_failing 5 Demo.questions [1; 0; 0] = Some rs' ∧
     length rs' = 2 ∧ rs' !! 1 = rs !! 1 ∧
     rs' !! 0 = Some {[ "video_id" := "00001"; "error" := "Connection error." ]}) ∧
  (∃ rs rs',
     GeminiPro.process_batch Demo.get_frame_paths Demo.encode_image
       Demo.generate_content 5 Demo.questions [0; 1] = Some rs ∧
     GeminiPro.process_batch Demo.get_frame_paths Demo.encode_image
       Demo.generate_content_failing 5 Demo.questions [1; 0] = Some rs' ∧
     length rs' = 2 ∧ rs' !! 1 = rs !! 1 ∧
     rs' !! 0 = Some {[ "video_id" := "00001";
                        "error" := "503 Service Unavailable" ]}).
Proof.
  split; [lia|].
  destruct (failure_confined_to_its_item Demo.get_frame_paths Demo.encode_image
              Demo.encode_image 5 Demo.questions 0) as [H8 Hp]; [lia|].
  split.
  - assert (is_Some (Inference4o8Frames.process_batch Demo.get_frame_paths
                       Demo.encode_image Demo.create 5 Demo.questions [0; 1; 0]))
      as [rs Hrs] by evaluates.
    assert (is_Some (Inference4o8Frames.process_batch Demo.get_frame_paths
                       Demo.encode_image Demo.create_failing 5 Demo.questions [1; 0; 0]))
      as [rs' Hrs'] by evaluates.
    exists rs, rs'. split; [exact Hrs|]. split; [exact Hrs'|].
    destruct (H8 Demo.create Demo.create_failing) as (_ & _ & H).
    { intros i req Hi. unfold Demo.create_failing. by rewrite decide_False. }
    destruct (H _ _ Hrs') as (Hlen & _ & Hother & Hfail).
    split; [exact Hlen|]. split; [by apply (Hother _ _ 1 Hrs)|].
    destruct (Inference4o8Frames.build_request Demo.get_frame_paths
                Demo.encode_image "00001" "Q1") as [req|msg] eqn:Hb.
    + by apply (Hfail (mkWorkItem "00001" "Q1") req).
    + exfalso. vm_compute in Hb. discriminate Hb.
  - assert (is_Some (GeminiPro.process_batch Demo.get_frame_paths
                       Demo.encode_image Demo.generate_content 5 Demo.questions [0; 1]))
      as [rs Hrs] by evaluates.
    assert (is_Some (GeminiPro.process_batch Demo.get_frame_paths
                       Demo.encode_image Demo.generate_content_failing 5
                       Demo.questions [1; 0]))
      as [rs' Hrs'] by evaluates.
    exists rs, rs'. split; [exact Hrs|]. split; [exact Hrs'|].
    destruct (Hp Demo.generate_content Demo.generate_content_failing) as (_ & _ & H).
    { intros i req Hi. unfold Demo.generate_content_failing. by rewrite decide_False. }
    destruct (H _ _ Hrs') as (Hlen & _ & Hother & Hfail).
    split; [exact Hlen|]. split; [by apply (Hother _ _ 1 Hrs)|].
    destruct (GeminiPro.build_request Demo.get_frame_paths
                Demo.encode_image "00001" "Q1") as [req|msg] eqn:Hb.
    + by apply (Hfail (mkWorkItem "00001" "Q1") req).
    + exfalso. vm_compute in Hb. discriminate Hb.
Defined.

(** C5 (as the code has it). In four of the five dispatcher scripts,
    [inference4o_8frames.py], [inferenceo1.py], [gemini_pro.py] and
    [gemini_video.py], the record that [process_batch] returns for an item
    carries the identifier of the item under [video_id]: when the call
    of the item returns, next to the answer (and, in the two OpenAI
    scripts, the finish reason), and when the request cannot be built or
    the call raises, next to the error string. The records of
    [inference_4o_reasoning.py] carry no identifier, only the answer and
    the finish reason, or the error string; its [main] names each output
    file after the item at the same position of the batch. *)
Theorem result_identifier_by_script
    (get_frame_paths : string → list string)
    (encode_image load_image_bytes : string → outcome string)
    (create : nat → OpenAI.request → outcome OpenAI.completion)
    (generate_content : nat → VertexAI.request → outcome VertexAI.gen_response)
    (max_concurrent_requests : nat) (questions : list WorkItem)
    (i : nat) (q : WorkItem) :
  questions !! i = Some q →
  (∀ sched rs,
     Inference4o8Frames.process_batch get_frame_paths encode_image create
       max_concurrent_requests questions sched = Some rs →
     (∀ req c,
        Inference4o8Frames.build_request get_frame_paths encode_image
          (id q) (question q) = Returns req →
        create i req = Returns c →
        rs !! i = Some {[ "video_id" := id q;
                          "answer" := OpenAI.message_content c;
                          "finish_reason" := OpenAI.finish_reason c ]}) ∧
     (∀ req msg,
        Inference4o8Frames.build_request get_frame_paths encode_image
          (id q) (question q) = Returns req →
        create i req = Raises msg →
        rs !! i = Some {[ "video_id" := id q; "error" := msg ]}) ∧
     (∀ msg,
        Inference4o8Frames.build_request get_frame_paths encode_image
          (id q) (question q) = Raises msg →
        rs !! i = Some {[ "video_id" := id q; "error" := msg ]})) ∧
  (∀ sched rs,
     InferenceO1.process_batch get_frame_paths encode_image create
       max_concurrent_requests questions sched = Some rs →
     (∀ req c,
        InferenceO1.build_request get_frame_paths encode_image
          (id q) (question q) = Returns req →
        create i req = Returns c →
        rs !! i = Some {[ "video_id" := id q;
                          "answer" := OpenAI.message_content c;
                          "finish_reason" := OpenAI.finish_reason c ]}) ∧
     (∀ req msg,
        InferenceO1.build_request get_frame_paths encode_image
          (id q) (question q) = Returns req →
        create i req = Raises msg →
        rs !! i = Some {[ "video_id" := id q; "error" := msg ]}) ∧
     (∀ msg,
        InferenceO1.build_request get_frame_paths encode_image
          (id q) (question q) = Raises msg →
        rs !! i = Some {[ "video_id" := id q; "error" := msg ]})) ∧
  (∀ sched rs,
     GeminiPro.process_batch get_frame_paths load_image_bytes generate_content
       max_concurrent_requests questions sched = Some rs →
     (∀ req answer,
        GeminiPro.build_request get_frame_paths load_image_bytes
          (id q) (question q) = Returns req →
        generate_content i req ≫= VertexAI.text = Returns answer →
        rs !! i = Some {[ "video_id" := id q; "answer" := answer ]}) ∧
     (∀ req msg,
        GeminiPro.build_request get_frame_paths load_image_bytes
          (id q) (question q) = Returns req →
        generate_content i req ≫= VertexAI.text = Raises msg →
        rs !! i = Some {[ "video_id" := id q; "error" := msg ]}) ∧
     (∀ msg,
        GeminiPro.build_request get_frame_paths load_image_bytes
          (id q) (question q) = Raises msg →
        rs !! i = Some {[ "video_id" := id q; "error" := msg ]})) ∧
  (∀ sched rs,
     GeminiVideo.process_batch generate_content
       max_concurrent_requests questions sched = Some rs →
     (∀ answer,
        generate_content i (GeminiVideo.build_request (id q) (question q))
          ≫= VertexAI.text = Returns answer →
        rs !! i = Some {[ "video_id" := id q; "answer" := answer ]}) ∧
     (∀ msg,
        generate_content i (GeminiVideo.build_request (id q) (question q))
          ≫= VertexAI.text = Raises msg →
        rs !! i = Some {[ "video_id" := id q; "error" := msg ]})) ∧
  (∀ sched rs,
     Inference4oReasoning.process_batch get_frame_paths encode_image create
       max_concurrent_requests questions sched = Some rs →
     (∃ r, rs !! i = Some r ∧ r !! "video_id" = None) ∧
     (∀ req c,
        Inference4oReasoning.build_request get_frame_paths encode_image
          (id q) (question q) = Returns req →
        create i req = Returns c →
        rs !! i = Some {[ "answer" := OpenAI.message_content c;
                          "finish_reason" := OpenAI.finish_reason c ]}) ∧
     (∀ req msg,
        Inference4oReasoning.build_request get_frame_paths encode_image
          (id q) (question q) = Returns req →
        create i req = Raises msg →
        rs !! i = Some {[ "error" := msg ]}) ∧
     (∀ msg,
        Inference4oReasoning.build_request get_frame_paths encode_image
          (id q) (question q) = Raises msg →
        rs !! i = Some {[ "error" := msg ]})) ∧
  (∀ results,
     length results = length questions →
     fst <$> Inference4oReasoning.save_results questions results
     = (λ q, "o1_preview_results0/" +:+ id q +:+ "_result.json") <$> questions ∧
     snd <$> Inference4oReasoning.save_results questions results = results).
Proof.
  intros Hq. split_and!.
  - intros sched rs ->%Inference4o8FramesFacts.frames8_process_batch_results.
    rewrite list_lookup_imap, Hq. simpl.
    unfold Inference4o8Frames.process_question, Inference4o8Frames.start_question,
      Inference4o8Frames.finish_question. simpl.
    split_and!.
    + intros req c -> Hc. simpl. by rewrite Hc.
    + intros req msg -> Hc. simpl. by rewrite Hc.
    + by intros msg ->.
  - intros sched rs ->%InferenceO1Facts.o1_process_batch_results.
    rewrite list_lookup_imap, Hq. simpl.
    unfold InferenceO1.process_question, InferenceO1.start_question,
      InferenceO1.finish_question. simpl.
    split_and!.
    + intros req c -> Hc. simpl. by rewrite Hc.
    + intros req msg -> Hc. simpl. by rewrite Hc.
    + by intros msg ->.
  - intros sched rs ->%GeminiProFacts.gemini_pro_process_batch_results.
    rewrite list_lookup_imap, Hq. simpl.
    unfold GeminiPro.process_question.
    split_and!.
    + intros req answer -> Hc. simpl. by rewrite Hc.
    + intros req msg -> Hc. simpl. by rewrite Hc.
    + by intros msg ->.
  - intros sched rs Hrs. unfold GeminiVideo.process_batch in Hrs.
    destruct (run _ sched _) as [st|] eqn:Hrun; [|done]. simpl in Hrs.
    rewrite (GeminiVideoResults.video_gather_expected generate_content
               _ _ _ _ _ Hrun Hrs).
    rewrite list_lookup_imap, Hq. simpl.
    unfold GeminiVideo.question_result, GeminiVideo.finish_question.
    destruct (generate_content i _) as [resp|msg0]; simpl.
    + split.
      * by intros answer ->.
      * by intros msg ->.
    + split; [done|]. by intros msg [= ->].
  - intros sched rs ->%Inference4oReasoningFacts.reasoning_process_batch_results.
    rewrite list_lookup_imap, Hq. simpl.
    split_and!.
    + eexists. split; [done|].
      apply Inference4oReasoningFacts.reasoning_result_fields.
    + unfold Inference4oReasoning.process_question,
        Inference4oReasoning.start_question, Inference4oReasoning.finish_question.
      simpl. intros req c -> Hc. simpl. by rewrite Hc.
    + unfold Inference4oReasoning.process_question,
        Inference4oReasoning.start_question, Inference4oReasoning.finish_question.
      simpl. intros req msg -> Hc. simpl. by rewrite Hc.
    + unfold Inference4oReasoning.process_question,
        Inference4oReasoning.start_question. simpl. by intros msg ->.
  - intros results Hlen. unfold Inference4oReasoning.save_results.
    rewrite <- !list_fmap_compose. split.
    + rewrite <- (fst_zip questions results) at 2 by lia.
      by rewrite <- list_fmap_compose.
    + rewrite <- (snd_zip questions results) at 2 by lia. done.
Qed.

Lemma result_identifier_by_script_witness :
  Demo.questions !! 0 = Some (mkWorkItem "00001" "Q1") ∧
  (∃ rs, Inference4o8Frames.process_batch
           Demo.get_frame_paths Demo.encode_image Demo.create_failing
           5 Demo.questions [0; 1; 0] = Some rs ∧
         rs !! 0 = Some {[ "video_id" := "00001"; "error" := "Connection error." ]}) ∧
  (∃ rs, GeminiVideo.process_batch Demo.generate_content
           5 Demo.questions [0; 1] = Some rs ∧
         rs !! 0 = Some {[ "video_id" := "00001";
                           "answer" := "<answer>C. Turn right</answer>" ]}) ∧
  (∃ rs, Inference4oReasoning.process_batch
           Demo.get_frame_paths Demo.encode_image Demo.create_failing
           5 Demo.questions [0; 1; 0] = Some rs ∧
         rs !! 0 = Some {[ "error" := "Connection error." ]}) ∧
  fst <$> Inference4oReasoning.save_results Demo.questions
            [Inference4oReasoning.error_result "Connection error.";
             Inference4oReasoning.error_result "No frames found for video ID 00002"]
  = ["o1_preview_results0/00001_result.json"; "o1_preview_results0/00002_result.json"].
Proof.
  assert (Demo.questions !! 0 = Some (mkWorkItem "00001" "Q1")) as Hq
    by reflexivity.
  split; [exact Hq|].
  destruct (result_identifier_by_script
              Demo.get_frame_paths Demo.encode_image Demo.encode_image
              Demo.create_failing Demo.generate_content 5 Demo.questions
              0 (mkWorkItem "00001" "Q1") Hq)
    as (H8 & _ & _ & Hv & Hr & Hsave).
  split_and!.
  - assert (is_Some (Inference4o8Frames.process_batch
              Demo.get_frame_paths Demo.encode_image Demo.create_failing
              5 Demo.questions [0; 1; 0])) as [rs Hrs] by evaluates.
    exists rs. split; [exact Hrs|].
    destruct (H8 _ _ Hrs) as (_ & Hfail & _).
    destruct (Inference4o8Frames.build_request Demo.get_frame_paths
                Demo.encode_image "00001" "Q1") as [req|msg] eqn:Hb.
    + by apply (Hfail req).
    + exfalso. vm_compute in Hb. discriminate Hb.
  - assert (is_Some (GeminiVideo.process_batch Demo.generate_content
              5 Demo.questions [0; 1])) as [rs Hrs] by evaluates.
    exists rs. split; [exact Hrs|].
    destruct (Hv _ _ Hrs) as (Hok & _). by apply Hok.
  - assert (is_Some (Inference4oReasoning.process_batch
              Demo.get_frame_paths Demo.encode_image Demo.create_failing
              5 Demo.questions [0; 1; 0])) as [rs Hrs] by evaluates.
    exists rs. split; [exact Hrs|].
    destruct (Hr _ _ Hrs) as (_ & _ & Hfail & _).
    destruct (Inference4oReasoning.build_request Demo.get_frame_paths
                Demo.encode_image "00001" "Q1") as [req|msg] eqn:Hb.
    + by apply (Hfail req).
    + exfalso. vm_compute in Hb. discriminate Hb.
  - exact (proj1 (Hsave
                  [Inference4oReasoning.error_result "Connection error.";
                   Inference4oReasoning.error_result "No frames found for video ID 00002"]
                  eq_refl)).
Defined.

(** C5 as it is written fails on [inference_4o_reasoning.py]: neither the
    record of a successful item nor the record of a failed one has the
    identifier. *)
Lemma result_without_identifier :
  let ok := snd (Inference4oReasoning.process_question
                   Demo.get_frame_paths Demo.encode_image Demo.create
                   0 "00001" "Q1") in
  let failed := snd (Inference4oReasoning.process_question
                       Demo.get_frame_paths Demo.encode_image Demo.create
                       1 "00002" "Q2") in
  (ok !! "answer" = Some "The car turns left. <answer>B</answer>" ∧
   ok !! "video_id" ≠ Some "00001") ∧
  (failed !! "error" = Some "No frames found for video ID 00002" ∧
   failed !! "video_id" ≠ Some "00002").
Proof. vm_compute. split_and!; (reflexivity || discriminate). Qed.

(** C6. In every run of the batch of [inference4o_8frames.py], and of
    [process_all_files] of [extract_letter.py] with its semaphore of 10
    permits, a task performs the effects of its body, the inference call
    among them, only while it holds the permit it acquired before; it
    holds a permit exactly while it is inside the [async with] block, so
    the permit is given back however the body ends; and when the batch
    completes the semaphore is back at its initial value. *)
Theorem permit_acquired_before_call_and_released
    (get_frame_paths : string → list string)
    (encode_image : string → outcome string)
    (create : nat → OpenAI.request → outcome OpenAI.completion)
    (open_file : string → string → outcome unit)
    (read : string → outcome string)
    (close : string → outcome unit)
    (answer_of : string → outcome string)
    (post : nat → ExtractLetter.payload → outcome ExtractLetter.http_response)
    (video_id_of : string → string)
    (makedirs : string → outcome unit)
    (write : string → pydict → outcome unit)
    (max_concurrent_requests : nat) (questions : list WorkItem)
    (json_files : list string) :
  permit_discipline
    (Inference4o8Frames.process_question_fn get_frame_paths encode_image create)
    max_concurrent_requests questions ∧
  permit_discipline
    (ExtractLetter.process_with_semaphore open_file read close answer_of post
       video_id_of makedirs write)
    10 json_files.
Proof. split; apply AsyncioFacts.permit_discipline_holds. Qed.

Lemma permit_acquired_before_call_and_released_witness :
  ∃ st rs,
    run (Inference4o8Frames.process_question_fn
           Demo.get_frame_paths Demo.encode_image Demo.create_failing)
        [0; 1; 0] (init _ 5 Demo.questions) = Some st ∧
    gather _ st = Some rs ∧
    sem_value st = 5 ∧ permits 0 (trace st) = 0%Z.
Proof.
  assert (is_Some (run (Inference4o8Frames.process_question_fn
                          Demo.get_frame_paths Demo.encode_image Demo.create_failing)
                     [0; 1; 0] (init _ 5 Demo.questions))) as [st Hst] by evaluates.
  assert (is_Some (st ← run (Inference4o8Frames.process_question_fn
                          Demo.get_frame_paths Demo.encode_image Demo.create_failing)
                     [0; 1; 0] (init _ 5 Demo.questions); gather _ st))
    as [rs Hrs] by evaluates.
  rewrite Hst in Hrs. simpl in Hrs.
  exists st, rs. split; [exact Hst|]. split; [exact Hrs|].
  destruct (permit_acquired_before_call_and_released
              Demo.get_frame_paths Demo.encode_image Demo.create_failing
              (λ _ _, Raises "") (λ _, Raises "") (λ _, Raises "")
              (λ _, Raises "") (λ _ _, Raises "") (λ s, s)
              (λ _, Raises "") (λ _ _, Raises "")
              5 Demo.questions []) as [H _].
  destruct (H _ _ Hst) as (_ & _ & _ & Hfinal).
  destruct (Hfinal rs Hrs) as [Hsem Hzero].
  split; [exact Hsem | exact (Hzero 0)].
Defined.

(** C7. The list [process_batch] returns is in the order of its input: the
    i-th result is the one computed for the i-th work item, whatever the
    order in which the calls complete; and [main] of
    [inference_4o_reasoning.py], which pairs questions and results by
    position, writes for each item the file named after its identifier
    with the result of that item. *)
Theorem results_in_input_order
    (get_frame_paths : string → list string)
    (encode_image : string → outcome string)
    (create : nat → OpenAI.request → outcome OpenAI.completion)
    (max_concurrent_requests : nat) (questions : list WorkItem)
    (sched : list nat) (rs : list pydict) :
  Inference4oReasoning.process_batch get_frame_paths encode_image create
    max_concurrent_requests questions sched = Some rs →
  let result_for (i : nat) (q : WorkItem) :=
    snd (Inference4oReasoning.process_question
           get_frame_paths encode_image create i (id q) (question q)) in
  length rs = length questions ∧
  (∀ i q, questions !! i = Some q → rs !! i = Some (result_for i q)) ∧
  Inference4oReasoning.save_results questions rs
  = imap (λ i q, ("o1_preview_results0/" +:+ id q +:+ "_result.json",
                  result_for i q)) questions.
Proof.
  intros ->%Inference4oReasoningFacts.reasoning_process_batch_results. simpl.
  split_and!.
  - by rewrite length_imap.
  - intros i q Hq. by rewrite list_lookup_imap, Hq.
  - unfold Inference4oReasoning.save_results.
    apply list_eq. intros i.
    rewrite list_lookup_fmap, list_lookup_imap.
    destruct (questions !! i) as [q|] eqn:Hq; simpl.
      assert (zip questions
                (imap (λ i q, snd (Inference4oReasoning.process_question
                         get_frame_paths encode_image create i (id q) (question q)))
                   questions) !! i
              = Some (q, snd (Inference4oReasoning.process_question
                         get_frame_paths encode_image create i (id q) (question q))))
        as ->; [|done].
      apply lookup_zip_with_Some. eexists _, _. split; [done|].
      split; [done|]. by rewrite list_lookup_imap, Hq.
    + rewrite (proj2 (lookup_ge_None _ _)); [done|].
      rewrite length_zip_with, length_imap.
      apply lookup_ge_None in Hq. lia.
Qed.

Lemma results_in_input_order_witness :
  ∃ rs,
    Inference4oReasoning.process_batch Demo.get_frame_paths Demo.encode_image
      Demo.create 5 Demo.questions [1; 0; 0] = Some rs ∧
    length rs = 2 ∧
    rs !! 1 = Some (Inference4oReasoning.error_result
                      "No frames found for video ID 00002").
Proof.
  assert (is_Some (Inference4oReasoning.process_batch Demo.get_frame_paths
                     Demo.encode_image Demo.create 5 Demo.questions [1; 0; 0]))
    as [rs Hrs] by evaluates.
  exists rs. split; [exact Hrs|].
  destruct (results_in_input_order _ _ _ _ _ _ _ Hrs) as (Hlen & Hith & _).
  split; [exact Hlen|].
  exact (Hith 1 (mkWorkItem "00002" "Q2") eq_refl).
Defined.

(** C8 (as the code has it). In [gemini_video.py] the counter
    [request_count] is the number of calls of [generate_content] that
    returned (a call that raises is not counted); the number of sleeps
    started is the counter divided by [batch_size] = 5; and a sleep, of
    [sleep_duration] = 0 seconds, is started by the task whose call has
    just returned and made the counter a positive multiple of 5, while that
    task holds its permit. Only that task is suspended. *)
Theorem cooldown_suspends_the_counting_task
    (generate_content : nat → VertexAI.request → outcome VertexAI.gen_response)
    (max_concurrent_requests : nat) (questions : list WorkItem)
    (sched : list nat) st :
  run (GeminiVideo.process_question_fn generate_content)
      sched (init _ max_concurrent_requests questions) = Some st →
  GeminiVideo.cooldown_ok generate_content st.
Proof. apply GeminiVideoFacts.run_cooldown_ok. Qed.

Lemma cooldown_suspends_the_counting_task_witness :
  ∃ st,
    run (GeminiVideo.process_question_fn Demo.generate_content)
        [0; 1; 2; 3; 4; 5] (init _ 5 Demo.six_questions) = Some st ∧
    GeminiVideo.cooldown_ok Demo.generate_content st.
Proof.
  assert (is_Some (run (GeminiVideo.process_question_fn Demo.generate_content)
                     [0; 1; 2; 3; 4; 5] (init _ 5 Demo.six_questions)))
    as [st Hst] by evaluates.
  exists st. split; [exact Hst|].
  exact (cooldown_suspends_the_counting_task _ _ _ _ _ Hst).
Defined.

(** C8 as it is written fails: with five permits and six items whose calls
    all return, the fifth task starts the cooldown sleep, and the sixth
    task makes its call while the fifth is still asleep, holding its
    permit. *)
Lemma cooldown_does_not_pause_other_tasks :
  ¬ (∀ (generate_content : nat → VertexAI.request → outcome VertexAI.gen_response)
       (max_concurrent_requests : nat) (questions : list WorkItem)
       (sched : list nat) st,
       run (GeminiVideo.process_question_fn generate_content)
           sched (init _ max_concurrent_requests questions) = Some st →
       GeminiVideo.cooldown_pauses_dispatcher generate_content st).
Proof.
  intros H.
  pose (r := run (GeminiVideo.process_question_fn Demo.generate_content)
               [0; 1; 2; 3; 4; 5] (init _ 5 Demo.six_questions)).
  assert (is_Some r) as [st Hst] by evaluates.
  assert (match r with
          | Some s =>
              match trace s !! 14, trace s !! 16 with
              | Some (i, Did (VertexAI.Sleep _)), Some (j, Did (VertexAI.RemoteCall _)) =>
                  i = 4 ∧ j = 5 ∧ permits 4 (take 16 (trace s)) = 1%Z
              | _, _ => False
              end
          | None => False
          end) as Hfacts by (vm_compute; done).
  rewrite Hst in Hfacts.
  destruct (trace st !! 14) as [[i [|[req|d]|]]|] eqn:Hsleep; try done.
  destruct (trace st !! 16) as [[j [|[req|d']|]]|] eqn:Hcall; try done.
  destruct Hfacts as (-> & -> & Hheld).
  specialize (H _ _ _ _ _ Hst 14 16 4 5 d req Hsleep ltac:(lia) Hcall).
  rewrite H in Hheld. discriminate Hheld.
Qed.

(** C9 (as the code has it). When the value under [answer] is a text (the
    empty text when the field is absent), [extract_answer_from_json]
    returns, and it returns [None] exactly when the text has no answer tag
    of the expected form: an opening [<answer>], a letter from A to E, and
    then the closing [</answer>] either at once or after a dot or a
    white-space character and further characters of the same line.
    Whenever it returns a value, it is a single letter from A to E that
    stands in such a tag of the text. When the value under [answer] is
    not a text ([null], a number, ...), the function does not return:
    [re.search] raises [TypeError]. *)
Theorem extract_answer_from_json_expected_tag
    (json_content : gmap string ExtractAnswers.json_value) :
  (∀ answer_text,
     default (ExtractAnswers.JString []) (json_content !! "answer")
       = ExtractAnswers.JString answer_text →
     (ExtractAnswers.extract_answer_from_json json_content = Returns None ↔
      ¬ ∃ l, ExtractAnswers.expected_tag answer_text l) ∧
     (∀ v, ExtractAnswers.extract_answer_from_json json_content = Returns (Some v) →
           ∃ l, v = [l] ∧ (65 ≤ l ≤ 69)%N ∧
                ExtractAnswers.expected_tag answer_text l) ∧
     (∃ r, ExtractAnswers.extract_answer_from_json json_content = Returns r)) ∧
  ((∀ answer_text,
      default (ExtractAnswers.JString []) (json_content !! "answer")
        ≠ ExtractAnswers.JString answer_text) →
   ExtractAnswers.extract_answer_from_json json_content
   = Raises "expected string or bytes-like object").
Proof.
  unfold ExtractAnswers.extract_answer_from_json. split.
  - intros t ->. cbn [ExtractAnswers.re_search mbind outcome_bind].
    destruct (ExtractAnswers.search ExtractAnswers.match_with_content t)
      as [l|] eqn:E1.
    + apply ExtractAnswersFacts.search_content_tag in E1 as [Hl Htag].
      split_and!.
      * split; [done|]. intros []. exists l. split; [done|]. by left.
      * intros v [= <-]. exists l. split; [done|]. split; [done|].
        split; [done|]. by left.
      * by eexists.
    + destruct (ExtractAnswers.search ExtractAnswers.match_letter_only t)
        as [l|] eqn:E2.
      * apply ExtractAnswersFacts.search_letter_only_tag in E2 as [Hl Htag].
        split_and!.
        -- split; [done|]. intros []. exists l. split; [done|]. by right.
        -- intros v [= <-]. exists l. split; [done|]. split; [done|].
           split; [done|]. by right.
        -- by eexists.
      * split_and!; [|done|by eexists]. split; [|done].
        intros _ (l & Hl & [Htag|Htag]).
        -- by eapply ExtractAnswersFacts.search_no_content_tag.
        -- by eapply ExtractAnswersFacts.search_no_letter_only_tag.
  - intros Hnot.
    destruct (default (ExtractAnswers.JString []) (json_content !! "answer"))
      as [t| | | | |]; [by destruct (Hnot t)|done..].
Qed.

Lemma extract_answer_from_json_expected_tag_witness :
  let text := ExtractAnswers.code_points "Frame 3 shows the sign. <answer>B. Yield</answer>" in
  ExtractAnswers.extract_answer_from_json {[ "answer" := ExtractAnswers.JString text ]}
    = Returns (Some (ExtractAnswers.code_points "B")) ∧
  ExtractAnswers.expected_tag text 66.
Proof.
  simpl.
  set (text := ExtractAnswers.code_points
                 "Frame 3 shows the sign. <answer>B. Yield</answer>").
  set (json := {[ "answer" := ExtractAnswers.JString text ]}
               : gmap string ExtractAnswers.json_value).
  assert (ExtractAnswers.extract_answer_from_json json
          = Returns (Some (ExtractAnswers.code_points "B"))) as Hex
    by (vm_compute; reflexivity).
  split; [exact Hex|].
  destruct (extract_answer_from_json_expected_tag json) as [Htext _].
  destruct (Htext text) as (_ & Hsome & _); [vm_compute; reflexivity|].
  destruct (Hsome _ Hex) as (l & [= <-] & _ & Htag).
  exact Htag.
Defined.

(** C9 as it is written fails on a record whose [answer] is [null], which
    the inference scripts write when the model returns no content: no
    answer tag is found, there being no text, and yet the function does
    not return [None]; it raises. *)
Lemma extract_answer_from_json_null_answer :
  let json_content : gmap string ExtractAnswers.json_value :=
    {[ "answer" := ExtractAnswers.JNull ]} in
  ExtractAnswers.extract_answer_from_json json_content
    = Raises "expected string or bytes-like object" ∧
  ExtractAnswers.extract_answer_from_json json_content ≠ Returns None ∧
  (∀ answer_text, json_content !! "answer" ≠ Some (ExtractAnswers.JString answer_text)).
Proof.
  vm_compute. split; [reflexivity|]. split; [discriminate|].
  intros ?. discriminate.
Qed.

(** The extraction on some model texts. *)
Example extract_answer_from_json_examples :
  let extract (s : string) :=
    ExtractAnswers.extract_answer_from_json
      {[ "answer" := ExtractAnswers.JString (ExtractAnswers.code_points s) ]} in
  extract "I pick B. <answer>B</answer>" = Returns (Some (ExtractAnswers.code_points "B")) ∧
  extract "<answer>C. 27</answer>" = Returns (Some (ExtractAnswers.code_points "C")) ∧
  extract "<answer>A. x <answer>B</answer>" = Returns (Some (ExtractAnswers.code_points "A")) ∧
  extract "<answer>F</answer>" = Returns None ∧
  extract "<answer> B</answer>" = Returns None ∧
  extract "The answer is B" = Returns None ∧
  ExtractAnswers.extract_answer_from_json ∅ = Returns None.
Proof. vm_compute. done. Qed.




(** The vote on the three tables: 51 has a clear majority, 52 too, and the
    tie for 53 goes to the smaller letter. *)
Example find_majority_answers_example :
  ChooseMajority.find_majority_answers Demo.csv_files
  = Returns [(51, ChooseMajority.Text "A"); (52, ChooseMajority.Text "C");
             (53, ChooseMajority.Text "B")]%Z ∧
  ChooseMajority.find_majority_answers [ChooseMajority.Unreadable] = Raises "'id'".
Proof. vm_compute. done. Qed.

(* ===================================================================== *)
(** * Part III: further properties of the scripts                         *)
(* ===================================================================== *)

(** ** extract_letter.py: [process_single_file] and [process_all_files] *)

Module ExtractLetterFacts.
Import Asyncio AsyncioFacts ExtractLetter.

Section Files.
Variable open_file : string → string → outcome unit.
Variable read : string → outcome string.
Variable close : string → outcome unit.
Variable answer_of : string → outcome string.
Variable post : nat → payload → outcome http_response.
Variable video_id_of : string → string.
Variable makedirs : string → outcome unit.
Variable write : string → pydict → outcome unit.

Local Abbreviation fn :=
  (process_with_semaphore open_file read close answer_of post video_id_of
     makedirs write).
Local Abbreviation resume_f :=
  (resume_file open_file read close answer_of post video_id_of makedirs write).
Local Abbreviation finish :=
  (finish_file open_file read close answer_of post video_id_of makedirs write).
Local Abbreviation alone :=
  (process_single_file open_file read close answer_of post video_id_of
     makedirs write).
Local Abbreviation allowed :=
  (frame_allowed open_file read close answer_of post video_id_of makedirs write).
Local Abbreviation effect_ok :=
  (effect_allowed open_file read close answer_of post video_id_of).
Local Abbreviation received :=
  (answer_received open_file read close answer_of post).
Local Abbreviation expected := (λ (i : nat) (file_path : string),
  snd (alone i file_path)).
Local Abbreviation frame_ok := (λ (i : nat) (file_path : string) (f : frame),
  allowed i file_path f ∧
  snd (finish (awaits_left f) i f) = expected i file_path).

Local Ltac each_effect :=
  repeat first [apply Forall_nil_2 | apply Forall_cons_2]; cbn [effect_allowed].

Lemma finish_file_returned fuel i f a evs r :
  resume_f i f tt = (a, evs, Returned r) → finish fuel i f = (evs, r).
Proof. intros H. destruct fuel; simpl; by rewrite H. Qed.

Lemma finish_file_suspended fuel i f a evs f' :
  resume_f i f tt = (a, evs, Suspended f') →
  snd (finish (S fuel) i f) = snd (finish fuel i f').
Proof.
  intros H. cbn [finish_file]. rewrite H.
  by destruct (finish fuel i f').
Qed.

Lemma read_answer_Returns file_path answer_text :
  read_answer open_file read close answer_of file_path = Returns answer_text ↔
  open_file file_path "r" = Returns tt ∧ close file_path = Returns tt ∧
  read file_path ≫= answer_of = Returns answer_text.
Proof.
  clear post video_id_of makedirs write. unfold read_answer.
  destruct (open_file file_path "r") as [[]|]; simpl; [|intuition congruence].
  destruct (close file_path) as [[]|]; simpl; intuition congruence.
Qed.

Lemma write_file_Returns output_path data :
  write_file open_file close makedirs write output_path data = Returns tt ↔
  makedirs output_dir = Returns tt ∧ open_file output_path "w" = Returns tt ∧
  close output_path = Returns tt ∧ write output_path data = Returns tt.
Proof.
  clear read answer_of post video_id_of. unfold write_file.
  destruct (makedirs output_dir) as [[]|]; simpl; [|intuition congruence].
  destruct (open_file output_path "w") as [[]|]; simpl; [|intuition congruence].
  destruct (close output_path) as [[]|]; simpl; intuition congruence.
Qed.

(** One step of a suspended frame: its effects are allowed, and when
    the task is suspended again, one await less is left and the next
    frame is an allowed one. *)
Lemma resume_file_step i file_path f a evs s :
  allowed i file_path f →
  resume_f i f tt = (a, evs, s) →
  Forall (effect_ok i file_path) evs ∧
  match s with
  | Suspended f' => awaits_left f = S (awaits_left f') ∧ allowed i file_path f'
  | Returned _ => True
  end.
Proof.
  destruct f as [p|p|p r|p pl|p resp|vid ans out|vid ans out|vid ans out w];
    unfold resume_file; cbn [frame_allowed].
  - intros ->. destruct (open_file file_path "r") as [[]|msg] eqn:Ho;
      intros ?; simplify_eq; (split; [each_effect|done]).
    reflexivity.
  - intros [-> Ho] ?; simplify_eq.
    split; [each_effect; by left|done].
  - intros (-> & Ho & ->).
    destruct (close file_path) as [[]|msg] eqn:Hc;
      [|intros ?; simplify_eq; split; [each_effect|done]].
    destruct (read file_path ≫= answer_of) as [text|msg] eqn:Hr;
      [|intros ?; simplify_eq; split; [each_effect|done]].
    assert (read_answer open_file read close answer_of file_path
            = Returns text) as Hra by (by apply read_answer_Returns).
    case_bool_decide as Hempty; intros ?; simplify_eq;
      (split; [each_effect|try done]).
    + by exists text.
    + split; [done|]. split; [done|]. by exists text.
  - intros (-> & text & Hr & Hne & ->).
    destruct (post i (make_payload text)) as [resp|msg] eqn:Hp;
      intros ?; simplify_eq; (split; [each_effect|try done]).
    + by exists text, resp.
    + split; [done|]. split; [done|]. by exists text.
  - intros (-> & text & Hr & Hp).
    case_bool_decide as Hstatus;
      [intros ?; simplify_eq; split; [each_effect|done]|].
    destruct (body_answer resp) as [answer|msg] eqn:Hb;
      [|intros ?; simplify_eq; split; [each_effect|done]].
    assert (status resp = 200%Z) as H200.
    { destruct (decide (status resp = 200%Z)); [done|]. by destruct Hstatus. }
    assert (received i file_path answer) as Hrecv by (by exists text, resp).
    destruct (makedirs output_dir) as [[]|msg] eqn:Hm;
      intros ?; simplify_eq; (split; [each_effect|try done]).
    + split; [done|]. by exists answer.
    + right. split; [done|]. split; [done|]. by exists answer.
    + split; [done|]. by exists answer.
  - intros (Hrecv & -> & -> & Hm).
    destruct (open_file _ "w") as [[]|msg] eqn:Ho;
      intros ?; simplify_eq; (split; [each_effect|try done]).
    destruct Hrecv as (text & resp & ? & ? & ? & ?).
    by exists text, resp, ans.
  - intros (Hrecv & -> & -> & Hm & Ho) ?; simplify_eq.
    split; [each_effect|done]. right. split; [done|]. by exists ans.
  - intros _.
    destruct (close out) as [[]|]; [destruct w as [[]|]|];
      intros ?; simplify_eq; (split; [each_effect|done]).
Qed.

Lemma letter_start_suspended i file_path a a' evs f :
  start fn i file_path a = (a', evs, Suspended f) → frame_ok i file_path f.
Proof.
  intros H. simpl in H. unfold start_file in H. simplify_eq.
  split; [done|]. unfold process_single_file.
  change (awaits_left (AwaitOpen file_path)) with 7.
  by destruct (finish 7 i (AwaitOpen file_path)).
Qed.

Lemma letter_resume_returned i file_path f a a' evs r :
  frame_ok i file_path f →
  resume fn i f a = (a', evs, Returned r) → r = expected i file_path.
Proof.
  intros [_ <-]. simpl. destruct a. intros H.
  by rewrite (finish_file_returned _ _ _ _ _ _ H).
Qed.

Lemma letter_resume_suspended i file_path f a a' evs f' :
  frame_ok i file_path f →
  resume fn i f a = (a', evs, Suspended f') → frame_ok i file_path f'.
Proof.
  intros [Hal <-]. simpl. destruct a. intros H.
  destruct (resume_file_step _ _ _ _ _ _ Hal H) as (_ & Hleft & Hal').
  split; [done|]. rewrite Hleft.
  symmetry. by eapply finish_file_suspended.
Qed.

Lemma letter_resume_bound i f a a' evs f' :
  resume fn i f a = (a', evs, Suspended f') →
  Asyncio.awaits_left fn f' < Asyncio.awaits_left fn f.
Proof.
  simpl. destruct a.
  destruct f as [p|p|p r|p pl|p resp|vid ans out|vid ans out|vid ans out w];
    unfold resume_file.
  - destruct (open_file p "r"); intros; simplify_eq; simpl; lia.
  - intros; simplify_eq; simpl; lia.
  - destruct (close p); [destruct r; [case_bool_decide|]|];
      intros; simplify_eq; simpl; lia.
  - destruct (post i pl); intros; simplify_eq; simpl; lia.
  - case_bool_decide; [|destruct (body_answer resp);
                         [destruct (makedirs output_dir)|]];
      intros; simplify_eq; simpl; lia.
  - destruct (open_file out "w"); intros; simplify_eq; simpl; lia.
  - intros; simplify_eq; simpl; lia.
  - destruct (close out); [destruct w|]; intros; simplify_eq.
Qed.

Lemma letter_start_returned i file_path a a' evs r :
  start fn i file_path a = (a', evs, Returned r) → r = expected i file_path.
Proof. intros H. simpl in H. unfold start_file in H. simplify_eq. Qed.

Lemma letter_start_bound i file_path a a' evs f :
  start fn i file_path a = (a', evs, Suspended f) →
  Asyncio.awaits_left fn f ≤ 7.
Proof. simpl. unfold start_file. intros ?; simplify_eq. simpl. lia. Qed.

Lemma letter_gather_expected n files sched st rs :
  run fn sched (init fn n files) = Some st →
  gather fn st = Some rs → rs = imap expected files.
Proof.
  eapply (gather_expected fn expected frame_ok).
  - apply letter_start_returned.
  - apply letter_start_suspended.
  - apply letter_resume_returned.
  - apply letter_resume_suspended.
Qed.

(** Every effect in the trace of a batch is one its file allows. *)
Lemma letter_effects_allowed n files sched st k i e :
  run fn sched (init fn n files) = Some st →
  trace st !! k = Some (i, Did e) →
  ∃ file_path, files !! i = Some file_path ∧ effect_ok i file_path e.
Proof.
  intros Hrun Hk.
  refine (run_events_ok fn expected frame_ok
            letter_start_returned letter_start_suspended
            letter_resume_returned letter_resume_suspended
            effect_ok _ _
            n files sched st Hrun k i e Hk).
  - intros j p a a' evs s H. simpl in H. unfold start_file in H. simplify_eq.
    apply Forall_cons_2; [by left|apply Forall_nil_2].
  - intros j p f a a' evs s [Hal _]. simpl. destruct a. intros H.
    by destruct (resume_file_step _ _ _ _ _ _ Hal H) as [? _].
Qed.

(** [process_single_file] run on its own succeeds exactly when every
    step does. *)
Lemma process_single_file_Some i file_path video_id answer :
  snd (alone i file_path) = Some (video_id, answer) ↔
  ∃ answer_text resp,
    read_answer open_file read close answer_of file_path = Returns answer_text ∧
    answer_text ≠ "" ∧
    post i (make_payload answer_text) = Returns resp ∧
    status resp = 200%Z ∧
    body_answer resp = Returns answer ∧
    video_id = video_id_of file_path ∧
    write_file open_file close makedirs write
      ("gemini_pro_final_answers/" +:+ video_id +:+ "_result.json")
      {[ "answer" := answer ]} = Returns tt.
Proof.
  unfold process_single_file. cbn [finish_file]. unfold resume_file.
  setoid_rewrite read_answer_Returns. setoid_rewrite write_file_Returns.
  split.
  - destruct (open_file file_path "r") as [[]|msg] eqn:Ho; [|done].
    destruct (close file_path) as [[]|msg] eqn:Hc; [|done].
    destruct (read file_path ≫= answer_of) as [text|msg] eqn:Hr; [|done].
    case_bool_decide as Hne; [done|].
    destruct (post i (make_payload text)) as [resp|msg] eqn:Hp; [|done].
    case_bool_decide as Hst; [done|].
    destruct (body_answer resp) as [ans|msg] eqn:Hb; [|done].
    destruct (makedirs output_dir) as [[]|msg] eqn:Hm; [|done].
    destruct (open_file (output_dir +:+ _) "w") as [[]|msg] eqn:Hw; [|done].
    destruct (close (output_dir +:+ _)) as [[]|msg] eqn:Hc'; [|done].
    destruct (write (output_dir +:+ _) _) as [[]|msg] eqn:Hwr; [|done].
    cbn [snd]. intros [= <- <-].
    exists text, resp. by split_and!.
  - intros (text & resp & (Ho & Hc & Hr) & Hne & Hp & Hst & Hb & ->
            & Hm & Hw & Hc' & Hwr).
    change ("gemini_pro_final_answers/" +:+ video_id_of file_path
              +:+ "_result.json")
      with (output_dir +:+ "/" +:+ video_id_of file_path +:+ "_result.json")
      in Hw, Hc', Hwr.
    rewrite Ho, Hc, Hr. rewrite bool_decide_false by done. rewrite Hp.
    rewrite bool_decide_false by (by intros ?).
    rewrite Hb, Hm, Hw, Hc', Hwr. done.
Qed.

End Files.
End ExtractLetterFacts.

(** X1. [process_all_files] of [extract_letter.py], with its 10 permits,
    always comes to an end: a task passes at most eight awaits (opening,
    reading and closing the input file, the request, the body of the
    response, opening, writing and closing the output file), so that a
    run of the batch has at most nine steps per file, and every run can
    be carried on until all tasks are done. The list gathered holds,
    file by file and in the order of the files, what
    [process_single_file] returns when it runs alone: the interleaving of
    the tasks changes no result. *)
Theorem process_all_files_order_independent
    (open_file : string → string → outcome unit)
    (read : string → outcome string)
    (close : string → outcome unit)
    (answer_of : string → outcome string)
    (post : nat → ExtractLetter.payload → outcome ExtractLetter.http_response)
    (video_id_of : string → string)
    (makedirs : string → outcome unit)
    (write : string → pydict → outcome unit)
    (json_files : list string) (sched : list nat) st :
  run (ExtractLetter.process_with_semaphore open_file read close answer_of post
         video_id_of makedirs write)
      sched (init _ 10 json_files) = Some st →
  length sched ≤ 9 * length json_files ∧
  (∃ sched' rs,
     ExtractLetter.process_all_files open_file read close answer_of post
       video_id_of makedirs write json_files (sched ++ sched') = Some rs) ∧
  (∀ rs, gather _ st = Some rs →
     rs = imap (λ i file_path,
                 snd (ExtractLetter.process_single_file
                        open_file read close answer_of post video_id_of
                        makedirs write i file_path))
               json_files).
Proof.
  intros Hrun. split_and!.
  - eapply (AsyncioFacts.run_bounded _ 7); [| |exact Hrun].
    + apply ExtractLetterFacts.letter_start_bound.
    + apply ExtractLetterFacts.letter_resume_bound.
  - destruct (AsyncioFacts.run_completes _ 7
                (ExtractLetterFacts.letter_start_bound _ _ _ _ _ _ _ _)
                (ExtractLetterFacts.letter_resume_bound _ _ _ _ _ _ _ _) 10 st)
      as (sched' & st' & rs & Hrun' & Hg); [lia| |].
    + by eapply AsyncioFacts.run_permits.
    + exists sched', rs. unfold ExtractLetter.process_all_files.
      rewrite AsyncioFacts.run_app, Hrun. simpl. by rewrite Hrun'.
  - intros rs Hg. by eapply ExtractLetterFacts.letter_gather_expected.
Qed.

Lemma process_all_files_order_independent_witness :
  ∃ st rs,
    run (ExtractLetter.process_with_semaphore DemoFiles.open_file DemoFiles.read
           DemoFiles.close DemoFiles.answer_of DemoFiles.post
           DemoFiles.video_id_of DemoFiles.makedirs DemoFiles.write)
        [1; 0; 1; 0; 1; 0; 1; 0; 0; 0; 0; 0; 0]
        (init _ 10 DemoFiles.json_files) = Some st ∧
    gather _ st = Some rs ∧
    rs = [Some ("00051_result", "<answer>B</answer>"); None].
Proof.
  assert (is_Some (run (ExtractLetter.process_with_semaphore DemoFiles.open_file
                          DemoFiles.read DemoFiles.close DemoFiles.answer_of
                          DemoFiles.post DemoFiles.video_id_of DemoFiles.makedirs
                          DemoFiles.write)
                     [1; 0; 1; 0; 1; 0; 1; 0; 0; 0; 0; 0; 0]
                     (init _ 10 DemoFiles.json_files)))
    as [st Hst] by evaluates.
  assert (is_Some (ExtractLetter.process_all_files DemoFiles.open_file
                     DemoFiles.read DemoFiles.close DemoFiles.answer_of
                     DemoFiles.post DemoFiles.video_id_of DemoFiles.makedirs
                     DemoFiles.write
                     DemoFiles.json_files [1; 0; 1; 0; 1; 0; 1; 0; 0; 0; 0; 0; 0]))
    as [rs Hrs] by evaluates.
  unfold ExtractLetter.process_all_files in Hrs. rewrite Hst in Hrs. simpl in Hrs.
  exists st, rs. split; [exact Hst|]. split; [exact Hrs|].
  destruct (process_all_files_order_independent _ _ _ _ _ _ _ _ _ _ _ Hst)
    as (_ & _ & H).
  rewrite (H rs Hrs). vm_compute. reflexivity.
Defined.

(** X2. [process_single_file] returns a pair, the video id and the answer,
    exactly when every stage succeeds: the file gives a non-empty answer
    text, the request posted for that text is answered with status 200 and
    a body from which the answer can be read, and the output file named
    after the input file is written. In every other case it returns
    [None]. *)
Theorem process_single_file_succeeds_iff
    (open_file : string → string → outcome unit)
    (read : string → outcome string)
    (close : string → outcome unit)
    (answer_of : string → outcome string)
    (post : nat → ExtractLetter.payload → outcome ExtractLetter.http_response)
    (video_id_of : string → string)
    (makedirs : string → outcome unit)
    (write : string → pydict → outcome unit)
    (i : nat) (file_path video_id answer : string) :
  snd (ExtractLetter.process_single_file open_file read close answer_of post
         video_id_of makedirs write i file_path) = Some (video_id, answer) ↔
  ∃ answer_text resp,
    ExtractLetter.read_answer open_file read close answer_of file_path
      = Returns answer_text ∧ answer_text ≠ "" ∧
    post i (ExtractLetter.make_payload answer_text) = Returns resp ∧
    ExtractLetter.status resp = 200%Z ∧
    ExtractLetter.body_answer resp = Returns answer ∧
    video_id = video_id_of file_path ∧
    ExtractLetter.write_file open_file close makedirs write
      ("gemini_pro_final_answers/" +:+ video_id +:+ "_result.json")
      {[ "answer" := answer ]} = Returns tt.
Proof. apply ExtractLetterFacts.process_single_file_Some. Qed.

(** X3. In every run of [process_all_files], each effect of a task
    belongs to its own file and has its cause: a request is posted only
    for the non-empty answer text read from the file, and an output file
    is written only for the answer of a response with status 200, under
    the name made from the input file. *)
Theorem process_all_files_effects_have_causes
    (open_file : string → string → outcome unit)
    (read : string → outcome string)
    (close : string → outcome unit)
    (answer_of : string → outcome string)
    (post : nat → ExtractLetter.payload → outcome ExtractLetter.http_response)
    (video_id_of : string → string)
    (makedirs : string → outcome unit)
    (write : string → pydict → outcome unit)
    (json_files : list string) (sched : list nat) st (k i : nat)
    (e : ExtractLetter.io_event) :
  run (ExtractLetter.process_with_semaphore open_file read close answer_of post
         video_id_of makedirs write)
      sched (init _ 10 json_files) = Some st →
  trace st !! k = Some (i, Did e) →
  ∃ file_path, json_files !! i = Some file_path ∧
               ExtractLetter.effect_allowed open_file read close answer_of post
                 video_id_of i file_path e.
Proof. apply ExtractLetterFacts.letter_effects_allowed. Qed.

Lemma process_all_files_effects_have_causes_witness :
  ∃ st,
    run (ExtractLetter.process_with_semaphore DemoFiles.open_file DemoFiles.read
           DemoFiles.close DemoFiles.answer_of DemoFiles.post
           DemoFiles.video_id_of DemoFiles.makedirs DemoFiles.write)
        [1; 0; 1; 0; 1; 0; 1; 0; 0] (init _ 10 DemoFiles.json_files) = Some st ∧
    trace st !! 9 = Some (0, Did (ExtractLetter.Post (ExtractLetter.make_payload
                            "The lane turns left, so the answer is B."))) ∧
    ∃ file_path, DemoFiles.json_files !! 0 = Some file_path ∧
      ExtractLetter.effect_allowed DemoFiles.open_file DemoFiles.read
        DemoFiles.close DemoFiles.answer_of DemoFiles.post
        DemoFiles.video_id_of 0 file_path
        (ExtractLetter.Post (ExtractLetter.make_payload
           "The lane turns left, so the answer is B.")).
Proof.
  pose (r := run (ExtractLetter.process_with_semaphore DemoFiles.open_file
                    DemoFiles.read DemoFiles.close DemoFiles.answer_of
                    DemoFiles.post DemoFiles.video_id_of DemoFiles.makedirs
                    DemoFiles.write)
               [1; 0; 1; 0; 1; 0; 1; 0; 0] (init _ 10 DemoFiles.json_files)).
  assert (is_Some r) as [st Hst] by evaluates.
  assert (match r with
          | Some s =>
              trace s !! 9 = Some (0, Did (ExtractLetter.Post (ExtractLetter.make_payload
                                     "The lane turns left, so the answer is B.")))
          | None => False
          end) as Hk by (vm_compute; reflexivity).
  rewrite Hst in Hk.
  exists st. split; [exact Hst|]. split; [exact Hk|].
  exact (process_all_files_effects_have_causes _ _ _ _ _ _ _ _ _ _ _ _ _ _ Hst Hk).
Defined.

(** ** The event loop with no permit *)

Section NoPermit.
Context {Item Ev Res : Type} (fn : async_fn Item Ev Res).

Lemma run_without_permit qs sched st :
  run fn sched (init fn 0 qs) = Some st → sched = [].
Proof.
  destruct sched as [|i sched]; [done|]. simpl.
  unfold step_task. simpl. rewrite list_lookup_fmap.
  by destruct (qs !! i).
Qed.

Lemma gather_init_nonempty n q qs : gather fn (init fn n (q :: qs)) = None.
Proof. done. Qed.

End NoPermit.

(** X4. A processor made with [max_concurrent_requests = 0] never returns
    from [process_batch] on a batch that is not empty: no task can pass
    the semaphore, so no turn of the loop is possible and [gather] never
    resolves. Stated for [inference4o_8frames.py]. *)
Theorem process_batch_without_permit_never_returns
    (get_frame_paths : string → list string)
    (encode_image : string → outcome string)
    (create : nat → OpenAI.request → outcome OpenAI.completion)
    (questions : list WorkItem) (sched : list nat) :
  questions ≠ [] →
  Inference4o8Frames.process_batch get_frame_paths encode_image create
    0 questions sched = None ∧
  (∀ i, step_task (Inference4o8Frames.process_question_fn
                     get_frame_paths encode_image create)
          i (init _ 0 questions) = None).
Proof.
  intros Hne. split.
  - unfold Inference4o8Frames.process_batch.
    destruct (run _ sched _) as [st|] eqn:Hrun; [|done].
    pose proof (run_without_permit _ _ _ _ Hrun) as ->.
    simpl in Hrun. simplify_eq. simpl.
    destruct questions; [done|]. apply gather_init_nonempty.
  - intros i. unfold step_task. simpl. rewrite list_lookup_fmap.
    by destruct (questions !! i).
Qed.

Lemma process_batch_without_permit_never_returns_witness :
  Demo.questions ≠ [] ∧
  Inference4o8Frames.process_batch Demo.get_frame_paths Demo.encode_image
    Demo.create 0 Demo.questions [0; 1] = None.
Proof.
  assert (Demo.questions ≠ []) as Hne by discriminate.
  split; [exact Hne|].
  exact (proj1 (process_batch_without_permit_never_returns
                  Demo.get_frame_paths Demo.encode_image Demo.create
                  Demo.questions [0; 1] Hne)).
Defined.

(** ** gemini_pro.py: the calls do not overlap *)

(** X5. In [gemini_pro.py] the provider is called without [await], so a
    task runs from the semaphore to its [return] in one turn of the loop:
    in every state a batch can reach no task is inside the [async with]
    block, the semaphore has all its permits, and every task has either
    not started or is done. The calls are made one after the other,
    whatever [max_concurrent_requests] is. *)
Theorem gemini_pro_calls_one_at_a_time
    (get_frame_paths : string → list string)
    (load_image_bytes : string → outcome string)
    (generate_content : nat → VertexAI.request → outcome VertexAI.gen_response)
    (max_concurrent_requests : nat) (questions : list WorkItem)
    (sched : list nat) st :
  run (GeminiPro.process_question_fn get_frame_paths load_image_bytes generate_content)
      sched (init _ max_concurrent_requests questions) = Some st →
  in_flight _ st = 0 ∧ sem_value st = max_concurrent_requests ∧
  (∀ i, permits i (trace st) = 0%Z) ∧
  (∀ i t, tasks st !! i = Some t →
          (∃ q, t = Waiting q) ∨
          (∃ q, questions !! i = Some q ∧
                t = Done (snd (GeminiPro.process_question get_frame_paths
                                 load_image_bytes generate_content
                                 i (id q) (question q))))).
Proof.
  intros Hrun.
  assert (in_flight _ st = 0) as Hz.
  { unfold in_flight. induction (tasks st) as [|t l IH]; [done|].
    rewrite filter_cons. destruct t as [q|f|r]; [|destruct f|]; by case_decide. }
  pose proof (AsyncioFacts.run_permits _ _ _ _ _ Hrun) as Hsem.
  split_and!; [done|lia| |].
  - intros i. destruct (AsyncioFacts.run_trace_ok _ _ _ _ _ Hrun) as [Hp _].
    rewrite Hp. unfold holds.
    destruct (tasks st !! i) as [[q|f|r]|]; [|destruct f| |]; done.
  - intros i t Hi.
    pose proof (AsyncioFacts.run_length _ _ _ _ _ Hrun) as Hlen.
    destruct (lookup_lt_is_Some_2 questions i) as [q Hq].
    { rewrite <- Hlen. by eapply lookup_lt_Some. }
    destruct (AsyncioFacts.run_tasks_ok _
                (λ i q, snd (GeminiPro.process_question get_frame_paths
                               load_image_bytes generate_content i (id q) (question q)))
                (λ _ _ _, True)
                (GeminiProFacts.gemini_pro_start_returned _ _ _)
                (λ _ _ _ _ _ _ _, I)
                (λ i q (f : Empty_set), match f with end)
                (λ i q (f : Empty_set), match f with end)
                _ _ _ _ Hrun i q Hq) as (t' & Hi' & Ht).
    rewrite Hi in Hi'. simplify_eq.
    destruct t' as [q'|f|r]; [left; by exists q'|destruct f|].
    right. exists q. simpl in Ht. by subst.
Qed.

Lemma gemini_pro_calls_one_at_a_time_witness :
  ∃ st,
    run (GeminiPro.process_question_fn Demo.get_frame_paths Demo.encode_image
           Demo.generate_content)
        [1] (init _ 5 Demo.questions) = Some st ∧
    in_flight _ st = 0 ∧ sem_value st = 5.
Proof.
  assert (is_Some (run (GeminiPro.process_question_fn Demo.get_frame_paths
                          Demo.encode_image Demo.generate_content)
                     [1] (init _ 5 Demo.questions))) as [st Hst] by evaluates.
  exists st. split; [exact Hst|].
  destruct (gemini_pro_calls_one_at_a_time _ _ _ _ _ _ _ Hst) as (H1 & H2 & _).
  split; [exact H1 | exact H2].
Defined.

(** ** gemini_video.py: results and counter *)

(** X6. In [gemini_video.py], with at least one permit, [process_batch]
    always comes to an end and returns one record per item, carrying the
    item's identifier; and each record is determined by the outcome of the
    item's own call: neither the order of the turns nor the shared counter
    and its cooldown sleeps change any result. *)
Theorem gemini_video_results_ignore_cooldown
    (generate_content : nat → VertexAI.request → outcome VertexAI.gen_response)
    (max_concurrent_requests : nat) (questions : list WorkItem) :
  0 < max_concurrent_requests →
  returns_one_result_per_item (GeminiVideo.process_question_fn generate_content)
    (λ q r, r !! "video_id" = Some (id q)) 2 max_concurrent_requests questions ∧
  (∀ sched rs,
     GeminiVideo.process_batch generate_content max_concurrent_requests
       questions sched = Some rs →
     rs = imap (GeminiVideo.question_result generate_content) questions).
Proof.
  intros Hn. split.
  - by apply GeminiVideoResults.video_returns_all.
  - intros sched rs. unfold GeminiVideo.process_batch.
    destruct (run _ sched _) as [st|] eqn:Hrun; [|done]. simpl.
    by eapply GeminiVideoResults.video_gather_expected.
Qed.

Lemma gemini_video_results_ignore_cooldown_witness :
  0 < 5 ∧
  ∃ rs, GeminiVideo.process_batch Demo.generate_content_failing 5
          Demo.six_questions [4; 3; 2; 1; 0; 5; 5] = Some rs ∧
        rs = imap (GeminiVideo.question_result Demo.generate_content_failing)
               Demo.six_questions.
Proof.
  split; [lia|].
  assert (is_Some (GeminiVideo.process_batch Demo.generate_content_failing 5
                     Demo.six_questions [4; 3; 2; 1; 0; 5; 5])) as [rs Hrs] by evaluates.
  exists rs. split; [exact Hrs|].
  destruct (gemini_video_results_ignore_cooldown Demo.generate_content_failing
              5 Demo.six_questions) as [_ H]; [lia|].
  exact (H _ _ Hrs).
Defined.

(** X7. When a batch of [gemini_video.py] has completed, [request_count]
    is the number of items whose call returned, and the number of cooldown
    sleeps that were started is that number divided by [batch_size] = 5,
    rounded down; before completion the counter never exceeds the number
    of items. *)
Theorem gemini_video_counter_at_completion
    (generate_content : nat → VertexAI.request → outcome VertexAI.gen_response)
    (max_concurrent_requests : nat) (questions : list WorkItem)
    (sched : list nat) st :
  run (GeminiVideo.process_question_fn generate_content)
      sched (init _ max_concurrent_requests questions) = Some st →
  attrs st ≤ length questions ∧
  (∀ rs, gather _ st = Some rs →
     attrs st = GeminiVideo.successes generate_content 0 questions ∧
     GeminiVideo.sleeps (trace st)
     = GeminiVideo.successes generate_content 0 questions / GeminiVideo.batch_size).
Proof.
  intros Hrun.
  destruct (GeminiVideoResults.run_counter_ok _ _ _ _ _ Hrun) as (Hlen & _ & Hcount).
  destruct (GeminiVideoFacts.run_cooldown_ok _ _ _ _ _ Hrun) as (_ & Hsleeps & _).
  split.
  - rewrite Hcount. clear. generalize 0 (tasks st).
    induction questions as [|q qs IH]; intros i [|t ts]; simpl; try lia.
    specialize (IH (S i) ts).
    destruct t; simpl; try destruct (GeminiVideo.call_returns _ _ _); lia.
  - intros rs Hg. apply AsyncioFacts.gather_Some in Hg.
    assert (attrs st = GeminiVideo.successes generate_content 0 questions) as Ha.
    { rewrite Hcount, Hg. apply GeminiVideoResults.calls_counted_done.
      rewrite Hg, length_fmap in Hlen. done. }
    split; [done|]. by rewrite Hsleeps, Ha.
Qed.

Lemma gemini_video_counter_at_completion_witness :
  ∃ st rs,
    run (GeminiVideo.process_question_fn Demo.generate_content_failing)
        [0; 1; 2; 3; 4; 5; 5] (init _ 5 Demo.six_questions) = Some st ∧
    gather _ st = Some rs ∧
    attrs st = 5 ∧ GeminiVideo.sleeps (trace st) = 1.
Proof.
  pose (r := run (GeminiVideo.process_question_fn Demo.generate_content_failing)
               [0; 1; 2; 3; 4; 5; 5] (init _ 5 Demo.six_questions)).
  assert (is_Some r) as [st Hst] by evaluates.
  assert (is_Some (r ≫= gather _)) as [rs Hrs] by evaluates.
  rewrite Hst in Hrs. simpl in Hrs.
  exists st, rs. split; [exact Hst|]. split; [exact Hrs|].
  destruct (gemini_video_counter_at_completion _ _ _ _ _ Hst) as [_ H].
  destruct (H rs Hrs) as [Ha Hs].
  split.
  - rewrite Ha. vm_compute. reflexivity.
  - rewrite Hs. vm_compute. reflexivity.
Defined.

(** ** inference4o_8frames.py: the request *)

Module Inference4o8FramesRequest.
Import OpenAI Inference4o8Frames.

Section Processor.
Variable get_frame_paths : string → list string.
Variable encode_image : string → outcome string.

Local Abbreviation image_part := (λ base64_image : string,
  ImageUrl ("data:image/jpeg;base64," +:+ base64_image)).

Lemma add_frames_Returns frame_paths content content' :
  add_frames encode_image frame_paths content = Returns content' ↔
  ∃ images, Forall2 (λ path b, encode_image path = Returns b) frame_paths images ∧
            content' = content ++ (image_part <$> images).
Proof.
  revert content. induction frame_paths as [|path rest IH]; intros content;
    cbn [add_frames].
  - split.
    + intros [= <-]. exists []. split; [constructor|]. by rewrite app_nil_r.
    + intros (images & Hall & ->). apply Forall2_nil_inv_l in Hall as ->.
      by rewrite app_nil_r.
  - destruct (encode_image path) as [b|msg] eqn:He; simpl.
    + rewrite IH. split.
      * intros (images & Hall & ->). exists (b :: images).
        split; [by constructor|]. by rewrite <- app_assoc.
      * intros (images & Hall & ->).
        apply Forall2_cons_inv_l in Hall as (b' & images' & Hb & Hall & ->).
        rewrite He in Hb. simplify_eq.
        exists images'. split; [done|]. by rewrite <- app_assoc.
    + split; [done|]. intros (images & Hall & _).
      apply Forall2_cons_inv_l in Hall as (b' & images' & Hb & _).
      congruence.
Qed.

Lemma add_frames_Raises frame_paths content msg :
  add_frames encode_image frame_paths content = Raises msg ↔
  ∃ k path, frame_paths !! k = Some path ∧ encode_image path = Raises msg ∧
            ∀ j p, j < k → frame_paths !! j = Some p →
                   ∃ b, encode_image p = Returns b.
Proof.
  revert content. induction frame_paths as [|path rest IH]; intros content;
    cbn [add_frames].
  - split; [done|]. by intros (k & p & Hk & _).
  - destruct (encode_image path) as [b|msg'] eqn:He; simpl.
    + rewrite IH. split.
      * intros (k & p & Hk & Hp & Hbefore). exists (S k), p.
        split_and!; [done..|].
        intros [|j] p' Hj Hp'; simplify_eq/=; [by exists b|].
        eapply Hbefore; [|done]. lia.
      * intros (k & p & Hk & Hp & Hbefore).
        destruct k as [|k]; simplify_eq/=; [congruence|].
        exists k, p. split_and!; [done..|].
        intros j p' Hj Hp'. apply (Hbefore (S j) p'); [lia|done].
    + split.
      * intros [= <-]. exists 0, path. split_and!; [done..|]. intros j p' Hj. lia.
      * intros (k & p & Hk & Hp & Hbefore).
        destruct k as [|k]; simplify_eq/=; [congruence|].
        destruct (Hbefore 0 path) as [b Hb]; [lia|done|]. congruence.
Qed.

End Processor.
End Inference4o8FramesRequest.

(** X8. The request [process_question] of [inference4o_8frames.py] sends
    holds the text prompt first and then one image per frame file, in the
    order of the frame files; it is built exactly when there is at least
    one frame and every frame can be read, and then it is the one call
    the item makes. Otherwise the item fails without a call: its record
    has the identifier and, as error, the missing-frames message or the
    error of the first frame that cannot be read. In a batch, every call
    in the trace is the call of an item whose request could be built,
    made with that request. *)
Theorem request_has_prompt_then_frames_in_order
    (get_frame_paths : string → list string)
    (encode_image : string → outcome string)
    (video_id question : string) :
  (∀ req,
     Inference4o8Frames.build_request get_frame_paths encode_image video_id question
       = Returns req ↔
     get_frame_paths video_id ≠ [] ∧
     ∃ images,
       Forall2 (λ path b, encode_image path = Returns b)
         (get_frame_paths video_id) images ∧
       req = {| OpenAI.model := "gpt-4o";
                OpenAI.content :=
                  OpenAI.Text (Inference4o8Frames.create_prompt question 8)
                  :: ((λ b, OpenAI.ImageUrl ("data:image/jpeg;base64," +:+ b))
                        <$> images);
                OpenAI.max_tokens := Some 4096%Z; OpenAI.temperature := Some 0%Z;
                OpenAI.top_p := Some 0%Z |}) ∧
  (∀ msg,
     Inference4o8Frames.build_request get_frame_paths encode_image video_id question
       = Raises msg ↔
     (get_frame_paths video_id = [] ∧
      msg = "No frames found for video ID " +:+ video_id) ∨
     (∃ k path,
        get_frame_paths video_id !! k = Some path ∧
        encode_image path = Raises msg ∧
        ∀ j p, j < k → get_frame_paths video_id !! j = Some p →
               ∃ b, encode_image p = Returns b)) ∧
  (∀ (create : nat → OpenAI.request → outcome OpenAI.completion) i,
     match Inference4o8Frames.build_request get_frame_paths encode_image
             video_id question with
     | Returns req =>
         fst (Inference4o8Frames.process_question get_frame_paths encode_image
                create i video_id question) = [OpenAI.RemoteCall req]
     | Raises msg =>
         Inference4o8Frames.process_question get_frame_paths encode_image
           create i video_id question
         = ([], {[ "video_id" := video_id; "error" := msg ]})
     end) ∧
  (∀ (create : nat → OpenAI.request → outcome OpenAI.completion)
     max_concurrent_requests questions sched st k i e,
     run (Inference4o8Frames.process_question_fn get_frame_paths encode_image create)
         sched (init _ max_concurrent_requests questions) = Some st →
     trace st !! k = Some (i, Did e) →
     ∃ item_id item_question req,
       questions !! i = Some (mkWorkItem item_id item_question) ∧
       e = OpenAI.RemoteCall req ∧
       Inference4o8Frames.build_request get_frame_paths encode_image
         item_id item_question = Returns req).
Proof.
  split_and!; [| |intros create i; unfold Inference4o8Frames.process_question,
                    Inference4o8Frames.start_question; simpl;
                  by destruct (Inference4o8Frames.build_request _ _ _ _)
              |intros create n questions sched st k i e Hrun Hk;
                 destruct (Inference4o8FramesFacts.frames8_calls_in_trace
                             _ _ _ _ _ _ _ _ _ _ Hrun Hk)
                   as ([item_id item_question] & req & ? & ? & ?);
                 by exists item_id, item_question, req];
    unfold Inference4o8Frames.build_request.
  - intros req. case_bool_decide as Hnil.
    + split; [done|]. by intros [? _].
    + destruct (Inference4o8Frames.add_frames encode_image _ _) as [content|msg] eqn:Ha;
        simpl.
      * apply Inference4o8FramesRequest.add_frames_Returns in Ha
          as (images & Hall & ->).
        split.
        -- intros [= <-]. split; [done|]. by exists images.
        -- intros (_ & images' & Hall' & ->). do 2 f_equal.
           assert (images' = images) as ->; [|done].
           clear -Hall Hall'. revert images' Hall'.
           induction Hall as [|p b ps bs Hb _ IH]; intros images' Hall'.
           ++ by apply Forall2_nil_inv_l in Hall'.
           ++ apply Forall2_cons_inv_l in Hall' as (b' & bs' & Hb' & Hall' & ->).
              rewrite Hb in Hb'. simplify_eq. f_equal. by apply IH.
      * split; [done|]. intros (_ & images & Hall & _).
        assert (Inference4o8Frames.add_frames encode_image
                  (get_frame_paths video_id)
                  [OpenAI.Text (Inference4o8Frames.create_prompt question 8)]
                = Returns ([OpenAI.Text (Inference4o8Frames.create_prompt question 8)]
                           ++ ((λ b, OpenAI.ImageUrl ("data:image/jpeg;base64," +:+ b))
                                 <$> images))) as Ha'.
        { apply Inference4o8FramesRequest.add_frames_Returns. by exists images. }
        congruence.
  - intros msg. case_bool_decide as Hnil.
    + split.
      * intros [= <-]. by left.
      * intros [[_ ->]|(k & p & Hk & _)]; [done|]. by rewrite Hnil in Hk.
    + destruct (Inference4o8Frames.add_frames encode_image _ _) as [content|msg'] eqn:Ha;
        simpl.
      * split; [done|]. intros [[? _]|Hfail]; [done|].
        apply (Inference4o8FramesRequest.add_frames_Raises encode_image _
                 [OpenAI.Text (Inference4o8Frames.create_prompt question 8)]) in Hfail.
        congruence.
      * split.
        -- intros [= <-]. right.
           by eapply Inference4o8FramesRequest.add_frames_Raises.
        -- intros [[? _]|Hfail]; [done|].
           apply (Inference4o8FramesRequest.add_frames_Raises encode_image _
                    [OpenAI.Text (Inference4o8Frames.create_prompt question 8)]) in Hfail.
           congruence.
Qed.

(** ** choose_majority.py: the table as a whole *)







(** An empty cell that ties with an answer ends the vote, in whatever
    order the two rows come. *)
Example find_majority_answers_empty_cell_example :
  ChooseMajority.find_majority_answers
    [ChooseMajority.Table [(51, ChooseMajority.NaN); (51, ChooseMajority.Text "A")]%Z]
  = Raises "TypeError" ∧
  ChooseMajority.find_majority_answers
    [ChooseMajority.Table [(51, ChooseMajority.Text "A"); (51, ChooseMajority.NaN)]%Z]
  = Raises "TypeError" ∧
  ChooseMajority.find_majority_answers
    [ChooseMajority.Table [(51, ChooseMajority.NaN); (51, ChooseMajority.Text "A");
                           (51, ChooseMajority.NaN)]%Z]
  = Returns [(51%Z, ChooseMajority.NaN)].
Proof. vm_compute. done. Qed.

(** ** extract_answers.py: the table of [process_files] *)

Module ExtractAnswersFiles.
Import ExtractAnswers ExtractAnswersFacts.

Local Abbreviation le_key := (λ x y : Z * (string * list N), (x.1 ≤ y.1)%Z).

Section Files.
Variable int : string → outcome Z.

Lemma row_of_Some f k r :
  row_of int f = Some (k, r) ↔
  ∃ json_content,
    f.2 = Returns json_content ∧ r.1 = before_underscore f.1 ∧
    int r.1 = Returns k ∧ (51 ≤ k ≤ 251)%Z ∧
    extract_answer_from_json json_content = Returns (Some r.2).
Proof.
  unfold row_of. destruct f as [name content], r as [file_id answer].
  cbn [fst snd].
  destruct (int (before_underscore name)) as [id_num|msg] eqn:Hint;
    [|split; [done|]; intros (? & _ & -> & ? & _); congruence].
  destruct content as [json_content|msg];
    [|split; [done|]; by intros (? & ? & _)].
  case_bool_decide as Hrange.
  - destruct (extract_answer_from_json json_content) as [[a|]|msg] eqn:He.
    + split.
      * intros [= <- <- <-]. by exists json_content.
      * intros (? & [= <-] & -> & Hk & _ & Ha).
        rewrite Hint in Hk. rewrite He in Ha. by simplify_eq.
    + split; [done|]. intros (? & [= <-] & _ & _ & _ & Ha).
      rewrite He in Ha. done.
    + split; [done|]. intros (? & [= <-] & _ & _ & _ & Ha).
      rewrite He in Ha. done.
  - split; [done|]. intros (? & _ & -> & Hk & ? & _).
    rewrite Hint in Hk. by simplify_eq.
Qed.

Lemma process_file_row acc f :
  process_file int acc f
  = (acc.1 ++ (option_list (row_of int f)).*2,
     acc.2 ++ (option_list (row_of int f)).*1).
Proof.
  destruct acc as [results processed_ids], f as [name content].
  unfold process_file, row_of. simpl.
  destruct (int (before_underscore name)); simpl; [|by rewrite !app_nil_r].
  destruct content; simpl;
    [|case_bool_decide; by rewrite !app_nil_r].
  case_bool_decide; [|by rewrite !app_nil_r].
  destruct (extract_answer_from_json _) as [[ans|]|msg']; simpl;
    by rewrite ?app_nil_r.
Qed.

Lemma foldl_process_file files results processed_ids :
  foldl (process_file int) (results, processed_ids) files
  = (results ++ (omap (row_of int) files).*2,
     processed_ids ++ (omap (row_of int) files).*1).
Proof.
  revert results processed_ids.
  induction files as [|f files IH]; intros results processed_ids.
  - simpl. by rewrite !app_nil_r.
  - cbn [foldl omap list_omap]. rewrite process_file_row. cbn [fst snd].
    rewrite IH.
    destruct (row_of int f); simpl; by rewrite <- ?app_assoc, ?app_nil_r.
Qed.

Lemma int_keys_rows (kr : list (Z * row)) :
  Forall (λ p, int p.2.1 = Returns p.1) kr →
  int_keys int kr.*2 = Returns kr.*1.
Proof.
  induction 1 as [|p kr Hp _ IH]; [done|].
  rewrite !fmap_cons. cbn [int_keys].
  destruct p as [k [file_id answer]]. cbn [fst snd] in *.
  rewrite Hp. cbn [mbind outcome_bind]. by rewrite IH.
Qed.

Lemma insert_by_key_perm x sorted : insert_by_key x sorted ≡ₚ x :: sorted.
Proof.
  induction sorted as [|y rest IH]; simpl; [done|].
  case_decide; [done|]. rewrite IH. apply Permutation_swap.
Qed.

Lemma insert_by_key_sorted x sorted :
  StronglySorted le_key sorted → StronglySorted le_key (insert_by_key x sorted).
Proof.
  induction 1 as [|y rest Hs IH Hall]; simpl.
  - repeat constructor.
  - case_decide as Hle.
    + constructor; [by constructor|].
      constructor; [done|]. eapply Forall_impl; [exact Hall|].
      simpl. intros; lia.
    + constructor; [done|].
      rewrite insert_by_key_perm. constructor; [simpl; lia|done].
Qed.

Lemma sort_by_key_spec (l : list (Z * row)) :
  StronglySorted le_key (foldr insert_by_key [] l) ∧
  foldr insert_by_key [] l ≡ₚ l.
Proof.
  induction l as [|x l [IHs IHp]]; simpl; [split; [constructor|done]|].
  split; [by apply insert_by_key_sorted|].
  by rewrite insert_by_key_perm, IHp.
Qed.

(** Rows that are in order already, and not after any of the rows
    sorted so far, stay in front and in their order. *)
Lemma foldr_insert_in_front (front sorted : list (Z * row)) :
  StronglySorted le_key (front ++ sorted) →
  foldr insert_by_key sorted front = front ++ sorted.
Proof.
  induction front as [|x front IH]; simpl; [done|].
  intros [Hall Hs]%StronglySorted_cons. rewrite IH by done.
  destruct (front ++ sorted) as [|y rest]; simpl; [done|].
  apply Forall_cons in Hall as [Hxy _]. by rewrite decide_True.
Qed.

Lemma sort_by_int_id_rows (kr : list (Z * row)) :
  Forall (λ p, int p.2.1 = Returns p.1) kr →
  sort_by_int_id int kr.*2 = Returns (foldr insert_by_key [] kr).*2.
Proof.
  intros Hkr. unfold sort_by_int_id. rewrite (int_keys_rows kr Hkr). simpl.
  by rewrite zip_fst_snd.
Qed.

End Files.

Lemma seqZ_sorted : StronglySorted Z.le (seqZ 1 50).
Proof. apply (bool_decide_unpack _). vm_compute. exact I. Qed.

End ExtractAnswersFiles.

(** X12. The table [process_files] of [extract_answers.py] writes starts
    with the fifty rows of the identifiers 1 to 50, each with the answer
    X, in this order; after them come the rows of the files, sorted by the
    number of their identifier. A file has a row exactly when its name
    starts, before the first underscore, with a number from 51 to 251, it
    can be read, and an answer can be extracted from it; the row has the
    identifier as the name writes it and the letter extracted. The
    identifiers reported as missing are the numbers from 51 to 251 that no
    row of a file has. (Under the one fact about [int] that the sort needs:
    it reads back the zero-padded numerals of 1 to 50.) *)
Theorem process_files_rows
    (int : string → outcome Z)
    (json_files : list (string * outcome (gmap string ExtractAnswers.json_value))) :
  Forall (λ n : Z, int (GeminiVideo.zfill 5 (pretty n)) = Returns n) (seqZ 1 50) →
  ∃ file_rows missing_ids,
    ExtractAnswers.process_files int json_files
      = Returns (ExtractAnswers.x_rows ++ file_rows, missing_ids) ∧
    (∀ file_id answer,
       (file_id, answer) ∈ file_rows ↔
       ∃ name json_content id_num,
         (name, Returns json_content) ∈ json_files ∧
         file_id = ExtractAnswers.before_underscore name ∧
         int file_id = Returns id_num ∧ (51 ≤ id_num ≤ 251)%Z ∧
         ExtractAnswers.extract_answer_from_json json_content
         = Returns (Some answer)) ∧
    (∀ i j r r', i < j → file_rows !! i = Some r → file_rows !! j = Some r' →
       ∃ n n', int r.1 = Returns n ∧ int r'.1 = Returns n' ∧ (n ≤ n')%Z) ∧
    (∀ n, n ∈ missing_ids ↔
          (51 ≤ n ≤ 251)%Z ∧ ∀ r, r ∈ file_rows → int r.1 ≠ Returns n).
Proof.
  intros Hint.
  set (new := omap (ExtractAnswers.row_of int) json_files).
  set (front := (λ n : Z, (n, (GeminiVideo.zfill 5 (pretty n),
                               ExtractAnswers.code_points "X"))) <$> seqZ 1 50).
  set (sorted := foldr ExtractAnswers.insert_by_key [] new).
  assert (ExtractAnswers.x_rows = front.*2) as Hx.
  { unfold ExtractAnswers.x_rows, front. by rewrite <- list_fmap_compose. }
  assert (∀ p, p ∈ new → int p.2.1 = Returns p.1 ∧ (51 ≤ p.1 ≤ 251)%Z) as Hnew.
  { intros [k r] Hp. apply list_elem_of_omap in Hp as (f & _ & Hf).
    apply ExtractAnswersFiles.row_of_Some in Hf as (? & _ & _ & ? & ? & _). done. }
  destruct (ExtractAnswersFiles.sort_by_key_spec new) as [Hsorted Hperm].
  fold sorted in Hsorted, Hperm.
  assert (Forall (λ p, int p.2.1 = Returns p.1) (front ++ new)) as Hkeys.
  { apply Forall_app. split.
    - unfold front. apply Forall_fmap. eapply Forall_impl; [exact Hint|]. done.
    - apply Forall_forall. intros p Hp. by apply Hnew. }
  assert (StronglySorted (λ x y : Z * (string * list N), (x.1 ≤ y.1)%Z)
            (front ++ sorted)) as Hall.
  { apply StronglySorted_app_2; [|  |done].
    - intros x y Hx' Hy. unfold front in Hx'.
      apply list_elem_of_fmap in Hx' as (n & -> & Hn%elem_of_seqZ).
      rewrite Hperm in Hy. apply Hnew in Hy as [_ ?].
      destruct y as [ky ry]. simpl in *. lia.
    - unfold front.
      apply (StronglySorted_fmap _ Z.le); [done|].
      apply ExtractAnswersFiles.seqZ_sorted. }
  exists sorted.*2,
    (filter (λ id_num, id_num ∉ new.*1) (seqZ 51 201)).
  split_and!.
  - unfold ExtractAnswers.process_files.
    rewrite ExtractAnswersFiles.foldl_process_file. fold new.
    rewrite app_nil_l, Hx, <- fmap_app.
    rewrite (ExtractAnswersFiles.sort_by_int_id_rows int _ Hkeys).
    cbn [mbind outcome_bind].
    rewrite foldr_app. fold sorted.
    rewrite (ExtractAnswersFiles.foldr_insert_in_front _ _ Hall).
    by rewrite fmap_app.
  - intros file_id answer. rewrite list_elem_of_fmap. split.
    + intros ([k [fid ans]] & Heq & Hin). cbn [snd] in Heq.
      injection Heq as -> ->. rewrite Hperm in Hin.
      apply list_elem_of_omap in Hin as ([name content] & Hf & Hrow).
      apply ExtractAnswersFiles.row_of_Some in Hrow
        as (json_content & Hc & Hid & Hk & Hrange & Ha).
      cbn [fst snd] in Hc, Hid, Hk, Ha. subst content fid.
      exists name, json_content, k.
      split; [assumption|]. split; [reflexivity|]. split; [assumption|].
      split; assumption.
    + intros (name & json_content & k & Hf & -> & Hk & Hrange & Ha).
      exists (k, (ExtractAnswers.before_underscore name, answer)).
      split; [done|]. rewrite Hperm. apply list_elem_of_omap.
      exists (name, Returns json_content). split; [done|].
      apply ExtractAnswersFiles.row_of_Some. exists json_content.
      cbn [fst snd].
      split; [reflexivity|]. split; [reflexivity|]. split; [assumption|].
      split; assumption.
  - intros i j r r' Hij Hi Hj.
    apply list_lookup_fmap_Some in Hi as ([n r0] & -> & Hi).
    apply list_lookup_fmap_Some in Hj as ([n' r0'] & -> & Hj).
    exists n, n'. simpl.
    assert ((n, r0) ∈ new) as Hn by (rewrite <- Hperm; by eapply list_elem_of_lookup_2).
    assert ((n', r0') ∈ new) as Hn' by (rewrite <- Hperm; by eapply list_elem_of_lookup_2).
    apply Hnew in Hn as [Hn _]. apply Hnew in Hn' as [Hn' _].
    split_and!; [done..|].
    apply (take_drop_middle sorted) in Hj as Hsplit.
    rewrite <- Hsplit in Hsorted.
    apply (StronglySorted_app_1_elem_of _ _ _ (n, r0) (n', r0')) in Hsorted;
      [done| |by left].
    apply list_elem_of_lookup. exists i. rewrite lookup_take_lt by done. done.
  - intros n. rewrite list_elem_of_filter, elem_of_seqZ. split.
    + intros [Hnot Hrange]. split; [lia|].
      intros r ([k r0] & -> & Hin)%list_elem_of_fmap Hr.
      rewrite Hperm in Hin. apply Hnot.
      apply list_elem_of_fmap. exists (k, r0). split; [|done].
      apply Hnew in Hin as [Hk _]. simpl in *. congruence.
    + intros [Hrange Hnone]. split; [|lia].
      intros ([k r0] & -> & Hin)%list_elem_of_fmap.
      apply (Hnone r0).
      * apply list_elem_of_fmap. exists (k, r0). split; [done|]. by rewrite Hperm.
      * by apply Hnew in Hin as [Hk _].
Qed.

Lemma process_files_rows_witness :
  ∃ file_rows missing_ids,
    ExtractAnswers.process_files DemoFiles.int DemoFiles.answer_files
      = Returns (ExtractAnswers.x_rows ++ file_rows, missing_ids) ∧
    (∀ file_id answer,
       (file_id, answer) ∈ file_rows ↔
       ∃ name json_content id_num,
         (name, Returns json_content) ∈ DemoFiles.answer_files ∧
         file_id = ExtractAnswers.before_underscore name ∧
         DemoFiles.int file_id = Returns id_num ∧ (51 ≤ id_num ≤ 251)%Z ∧
         ExtractAnswers.extract_answer_from_json json_content
         = Returns (Some answer)) ∧
    (∀ i j r r', i < j → file_rows !! i = Some r → file_rows !! j = Some r' →
       ∃ n n', DemoFiles.int r.1 = Returns n ∧ DemoFiles.int r'.1 = Returns n' ∧
               (n ≤ n')%Z) ∧
    (∀ n, n ∈ missing_ids ↔
          (51 ≤ n ≤ 251)%Z ∧ ∀ r, r ∈ file_rows → DemoFiles.int r.1 ≠ Returns n).
Proof.
  apply (process_files_rows DemoFiles.int DemoFiles.answer_files).
  let l := eval vm_compute in (seqZ 1 50) in change (seqZ 1 50) with l.
  repeat (apply Forall_cons_2; [vm_compute; reflexivity|]).
  apply Forall_nil_2.
Defined.

(** The table of the sample folder: the fifty rows with X, then the rows
    of the two files in the range from which a letter can be extracted;
    the first numbers reported as missing are 52 and 53. *)
Example process_files_example :
  match ExtractAnswers.process_files DemoFiles.int DemoFiles.answer_files with
  | Returns (results, missing_ids) =>
      length results = 52 ∧
      take 2 results = [("00001", [88%N]); ("00002", [88%N])] ∧
      drop 49 results = [("00050", [88%N]); ("00051", [66%N]); ("00060", [67%N])] ∧
      take 3 missing_ids = [52; 53; 54]%Z ∧ length missing_ids = 199
  | Raises _ => False
  end.
Proof. vm_compute. done. Qed.

(** X13. [extract_answer_from_json] tries the form with further content
    first, over the whole text: when the text has a tag of that form for
    a letter from A to E, the letter returned is the letter of such a
    tag, whatever tags that hold a bare letter the text has, before or
    after it. *)
Theorem content_form_is_tried_first
    (json_content : gmap string ExtractAnswers.json_value)
    (answer_text : list N) (l : N) :
  default (ExtractAnswers.JString []) (json_content !! "answer")
    = ExtractAnswers.JString answer_text →
  (65 ≤ l ≤ 69)%N →
  ExtractAnswers.content_tag answer_text l →
  ∃ l', ExtractAnswers.extract_answer_from_json json_content
        = Returns (Some [l']) ∧
        (65 ≤ l' ≤ 69)%N ∧
        ExtractAnswers.content_tag answer_text l'.
Proof.
  intros Htext Hl Htag. unfold ExtractAnswers.extract_answer_from_json.
  rewrite Htext. cbn [ExtractAnswers.re_search mbind outcome_bind].
  destruct (ExtractAnswers.search ExtractAnswers.match_with_content _)
    as [l'|] eqn:Hs.
  - exists l'. split; [done|]. by apply ExtractAnswersFacts.search_content_tag.
  - by destruct (ExtractAnswersFacts.search_no_content_tag _ Hs l Hl).
Qed.

Lemma content_form_is_tried_first_witness :
  ∃ l', ExtractAnswers.extract_answer_from_json
          {[ "answer" := ExtractAnswers.JString
                           (ExtractAnswers.code_points
                              "<answer>A</answer> or <answer>B. 27</answer>") ]}
        = Returns (Some [l']) ∧
        (65 ≤ l' ≤ 69)%N ∧
        ExtractAnswers.content_tag
          (ExtractAnswers.code_points
             "<answer>A</answer> or <answer>B. 27</answer>") l'.
Proof.
  apply (content_form_is_tried_first _ _ 66); [vm_compute; reflexivity|lia|].
  exists (ExtractAnswers.code_points "<answer>A</answer> or "), 46%N,
    (ExtractAnswers.code_points " 27"), [].
  split_and!; [vm_compute; reflexivity | by left | repeat constructor; done].
Defined.

(** The bare letter comes first in this text, and the letter of the other
    form is returned. *)
Example extract_answer_from_json_example :
  ExtractAnswers.extract_answer_from_json
    {[ "answer" := ExtractAnswers.JString
                     (ExtractAnswers.code_points
                        "<answer>A</answer> or <answer>B. 27</answer>") ]}
  = Returns (Some (ExtractAnswers.code_points "B")).
Proof. vm_compute. reflexivity. Qed.

(** ** gemini_video.py: [main] *)

Module GeminiVideoMain.
Import Asyncio AsyncioFacts VertexAI GeminiVideo.

Lemma string_length_app (s1 s2 : string) :
  String.length (s1 +:+ s2) = String.length s1 + String.length s2.
Proof. induction s1 as [|c s1 IH]; simpl; [done|]. by rewrite IH. Qed.

Lemma zeros_length n : String.length (zeros n) = n.
Proof. induction n as [|n IH]; simpl; [done|]. by rewrite IH. Qed.

Lemma zfill_length width s :
  String.length (zfill width s) = width `max` String.length s.
Proof.
  unfold zfill. case_decide as Hw; [lia|].
  destruct s as [|c rest].
  - rewrite zeros_length. simpl. lia.
  - destruct (is_sign c); cbn [String.length] in *;
      rewrite string_length_app, zeros_length; cbn [String.length]; lia.
Qed.

Lemma zfill_idemp width s : zfill width (zfill width s) = zfill width s.
Proof.
  unfold zfill at 1. rewrite decide_True; [done|]. rewrite zfill_length. lia.
Qed.

Section Main.
Variable int : string → outcome Z.

Lemma read_questions_Returns rows questions :
  read_questions int rows = Returns questions ↔
  Forall2 (λ row q, ∃ id_num, int (id row) = Returns id_num ∧
             q = mkWorkItem (zfill 5 (pretty id_num)) (question row))
    rows questions.
Proof.
  revert questions. induction rows as [|row rest IH]; intros questions;
    cbn [read_questions].
  - split; [intros [= <-]; constructor|]. by intros ->%Forall2_nil_inv_l.
  - destruct (int (id row)) as [id_num|msg] eqn:Hint; simpl.
    + destruct (read_questions int rest) as [qs|msg] eqn:Hrest; simpl.
      * split.
        -- intros [= <-]. constructor; [by exists id_num|by apply IH].
        -- intros (q & qs' & (n & Hn & ->) & Hall & ->)%Forall2_cons_inv_l.
           rewrite Hint in Hn. apply IH in Hall. by simplify_eq.
      * split; [done|].
        intros (q & qs' & _ & Hall & ->)%Forall2_cons_inv_l.
        by apply IH in Hall.
    + split; [done|].
      intros (q & qs' & (n & Hn & _) & _)%Forall2_cons_inv_l. congruence.
Qed.

Lemma read_questions_Raises rows msg :
  read_questions int rows = Raises msg ↔
  ∃ k row, rows !! k = Some row ∧ int (id row) = Raises msg ∧
           ∀ j r, j < k → rows !! j = Some r → ∃ n, int (id r) = Returns n.
Proof.
  induction rows as [|row rest IH]; cbn [read_questions].
  - split; [done|]. by intros (k & r & Hk & _).
  - destruct (int (id row)) as [id_num|msg'] eqn:Hint; simpl.
    + destruct (read_questions int rest) as [qs|msg'] eqn:Hrest; simpl.
      * split; [done|]. intros (k & r & Hk & Hr & Hbefore).
        destruct k as [|k]; simplify_eq/=; [congruence|].
        assert (Returns qs = Raises msg) as Habs; [|done].
        apply IH. exists k, r. split_and!; [done..|].
        intros j r' Hj Hr'. apply (Hbefore (S j) r'); [lia|done].
      * split.
        -- intros [= <-]. destruct (proj1 IH eq_refl) as (k & r & Hk & Hr & Hbefore).
           exists (S k), r. split_and!; [done..|].
           intros [|j] r' Hj Hr'; simplify_eq/=; [by exists id_num|].
           eapply Hbefore; [|done]. lia.
        -- intros (k & r & Hk & Hr & Hbefore).
           destruct k as [|k]; simplify_eq/=; [congruence|].
           assert (@Raises (list WorkItem) msg' = Raises msg) as [= ->]; [|done].
           apply IH. exists k, r. split_and!; [done..|].
           intros j r' Hj Hr'. apply (Hbefore (S j) r'); [lia|done].
    + split.
      * intros [= <-]. exists 0, row. split_and!; [done..|]. intros j r Hj. lia.
      * intros (k & r & Hk & Hr & Hbefore).
        destruct k as [|k]; simplify_eq/=; [congruence|].
        destruct (Hbefore 0 row) as [n Hn]; [lia|done|]. congruence.
Qed.

Lemma save_results_imap (f : nat → WorkItem → pydict) questions :
  (∀ i q, f i q !! "video_id" = Some (id q)) →
  save_results (imap f questions)
  = (imap (λ i q, ("gemini_video_answers/" +:+ id q +:+ "_result.json",
                   delete "video_id" (f i q))) questions,
     Returns tt).
Proof.
  revert f. induction questions as [|q rest IH]; intros f Hf; [done|].
  rewrite !imap_cons. cbn [save_results]. rewrite Hf.
  rewrite (IH (f ∘ S)) by (intros; apply Hf). done.
Qed.

End Main.
End GeminiVideoMain.

(** X14. [main] of [gemini_video.py] reads the questions exactly when
    [int] accepts the identifier of every row, and otherwise ends with the
    error of the first row it does not accept. Every identifier it hands
    on is the number of the row written with at least five characters, so
    that [process_question], which pads the identifier again for the
    path of the video, asks for the video of exactly that identifier. *)
Theorem gemini_video_main_normalises_ids
    (int : string → outcome Z) (rows : list WorkItem) :
  (∀ questions,
     GeminiVideo.read_questions int rows = Returns questions ↔
     Forall2 (λ row q, ∃ id_num, int (id row) = Returns id_num ∧
                q = mkWorkItem (GeminiVideo.zfill 5 (pretty id_num)) (question row))
       rows questions) ∧
  (∀ questions q,
     GeminiVideo.read_questions int rows = Returns questions → q ∈ questions →
     5 ≤ String.length (id q) ∧
     VertexAI.contents (GeminiVideo.build_request (id q) (question q))
     = [VertexAI.FromUri ("gs://tesla_videos/videos/" +:+ id q +:+ ".mp4") "video/mp4";
        VertexAI.Prompt (GeminiVideo.create_prompt (question q))]) ∧
  (∀ msg,
     GeminiVideo.read_questions int rows = Raises msg ↔
     ∃ k row, rows !! k = Some row ∧ int (id row) = Raises msg ∧
              ∀ j r, j < k → rows !! j = Some r → ∃ n, int (id r) = Returns n).
Proof.
  split_and!.
  - apply GeminiVideoMain.read_questions_Returns.
  - intros questions q Hread Hq.
    apply GeminiVideoMain.read_questions_Returns in Hread.
    apply list_elem_of_lookup in Hq as [i Hi].
    destruct (Forall2_lookup_r _ _ _ _ _ Hread Hi) as (row & _ & n & _ & ->).
    cbn [id question]. split.
    + rewrite GeminiVideoMain.zfill_length. lia.
    + unfold GeminiVideo.build_request. cbn [VertexAI.contents].
      by rewrite GeminiVideoMain.zfill_idemp.
  - apply GeminiVideoMain.read_questions_Raises.
Qed.

(** X15. When [main] of [gemini_video.py] comes to its end after the
    questions were read, the saving loop never fails on a record without
    [video_id]: it writes one file per question, in the order of the
    questions, named after the identifier of the question, and the object
    in the file is the record of that question without its identifier,
    that is the answer alone or the error alone. *)
Theorem gemini_video_main_writes_one_file_per_item
    (generate_content : nat → VertexAI.request → outcome VertexAI.gen_response)
    (int : string → outcome Z) (rows questions : list WorkItem)
    (sched : list nat) (out : list (string * pydict) * outcome unit) :
  GeminiVideo.read_questions int rows = Returns questions →
  GeminiVideo.main generate_content int rows sched = Some out →
  out = (imap (λ i q, ("gemini_video_answers/" +:+ id q +:+ "_result.json",
                       delete "video_id"
                         (GeminiVideo.question_result generate_content i q)))
           questions,
         Returns tt) ∧
  (∀ file content, (file, content) ∈ out.1 →
     (∃ answer, content = {[ "answer" := answer ]}) ∨
     (∃ msg, content = {[ "error" := msg ]})).
Proof.
  intros Hread Hmain. unfold GeminiVideo.main in Hmain. rewrite Hread in Hmain.
  destruct (GeminiVideo.process_batch generate_content 5 questions sched)
    as [results|] eqn:Hbatch; [|done].
  simpl in Hmain. injection Hmain as <-.
  unfold GeminiVideo.process_batch in Hbatch.
  destruct (run _ sched _) as [st|] eqn:Hrun; [|done]. simpl in Hbatch.
  rewrite (GeminiVideoResults.video_gather_expected generate_content
             _ _ _ _ _ Hrun Hbatch).
  rewrite GeminiVideoMain.save_results_imap
    by apply GeminiVideoResults.video_result_video_id.
  split; [done|].
  intros file content Hin. cbn [fst] in Hin.
  apply list_elem_of_lookup in Hin as [i Hi].
  apply list_lookup_imap_Some in Hi as (q & _ & [= _ ->]).
  unfold GeminiVideo.question_result, GeminiVideo.finish_question.
  destruct (generate_content i _) as [resp|msg].
  - destruct (VertexAI.text resp) as [answer|msg].
    + left. exists answer. unfold GeminiVideo.answer_result.
      by rewrite delete_insert_eq, delete_singleton_ne.
    + right. exists msg. unfold GeminiVideo.error_result.
      by rewrite delete_insert_eq, delete_singleton_ne.
  - right. exists msg. unfold GeminiVideo.error_result.
    by rewrite delete_insert_eq, delete_singleton_ne.
Qed.

Lemma gemini_video_main_writes_one_file_per_item_witness :
  ∃ questions out,
    GeminiVideo.read_questions DemoFiles.int Demo.six_questions = Returns questions ∧
    GeminiVideo.main Demo.generate_content_failing DemoFiles.int
      Demo.six_questions [4; 3; 2; 1; 0; 5; 5] = Some out ∧
    out = (imap (λ i q, ("gemini_video_answers/" +:+ id q +:+ "_result.json",
                         delete "video_id"
                           (GeminiVideo.question_result
                              Demo.generate_content_failing i q)))
             questions,
           Returns tt) ∧
    (∀ file content, (file, content) ∈ out.1 →
       (∃ answer, content = {[ "answer" := answer ]}) ∨
       (∃ msg, content = {[ "error" := msg ]})).
Proof.
  assert (∃ questions,
            GeminiVideo.read_questions DemoFiles.int Demo.six_questions
            = Returns questions) as [questions Hread]
    by (eexists; vm_compute; reflexivity).
  assert (is_Some (GeminiVideo.main Demo.generate_content_failing DemoFiles.int
                     Demo.six_questions [4; 3; 2; 1; 0; 5; 5])) as [out Hout]
    by evaluates.
  exists questions, out. split; [exact Hread|]. split; [exact Hout|].
  exact (gemini_video_main_writes_one_file_per_item _ _ _ _ _ _ Hread Hout).
Defined.

(** The files of the sample batch: the call of the first question fails,
    so its file holds the error. *)
Example gemini_video_main_example :
  fst <$> GeminiVideo.main Demo.generate_content_failing DemoFiles.int
            (take 2 Demo.six_questions) [1; 0]
  = Some [("gemini_video_answers/00001_result.json",
           {[ "error" := "503 Service Unavailable" ]});
          ("gemini_video_answers/00002_result.json",
           {[ "answer" := "<answer>C. Turn right</answer>" ]})].
Proof. vm_compute. reflexivity. Qed.
